(** * rhid: HID enumeration, descriptor building, polling and decoding

    A shallow embedding of [src/rhid_win.c].  C integers are [Z]; the only
    arithmetic that can wrap in the code below is the 16-bit usage counter of
    the range loop, whose wrap-around is written out.  C arrays are lists of
    their declared length, read and written through [array_get] and
    [array_set]; an access outside the array is undefined behaviour in C and
    is [Undefined] (or [None]) here.  Pointers that may be NULL are options.
    Calls into the operating system and the HID driver are answered by
    explicit records of their results. *)

From Stdlib Require Import ZArith Lia List Bool.
From stdpp Require Import base option list.
Import ListNotations.

Local Open Scope Z_scope.

(** ** Arrays *)

Definition array_get {A} (l : list A) (i : Z) : option A :=
  if decide (0 <= i) then l !! Z.to_nat i else None.

Definition array_set {A} (l : list A) (i : Z) (x : A) : option (list A) :=
  if decide (0 <= i < Z.of_nat (length l))
  then Some (<[Z.to_nat i := x]> l) else None.

(** [a[i].field = v]: read-modify-write of one element. *)
Definition array_upd {A} (l : list A) (i : Z) (f : A -> A) : option (list A) :=
  match array_get l i with
  | Some x => array_set l i (f x)
  | None => None
  end.

(** Result of a piece of C code that may run into undefined behaviour, or
    whose model may run out of fuel. *)
Inductive result (A : Type) : Type :=
| Ok (a : A)
| Undefined
| OutOfFuel.
Arguments Ok {A} a.
Arguments Undefined {A}.
Arguments OutOfFuel {A}.

(** ** Driver data ([hidpi.h]) *)

Definition HIDP_STATUS_SUCCESS : Z := 0x00110000.
Definition HIDP_STATUS_USAGE_NOT_FOUND : Z := 0xC0110004.
Definition HIDP_STATUS_BUFFER_TOO_SMALL : Z := 0xC0110007.

(** The [Range] / [NotRange] union of a capability entry, tagged by
    [IsRange]. *)
Inductive usage_spec : Type :=
| Range (UsageMin UsageMax : Z)
| NotRange (Usage : Z).

Record HIDP_BUTTON_CAPS : Type := {
  bc_UsagePage : Z;
  bc_ReportID : Z;
  bc_usages : usage_spec
}.

Record HIDP_VALUE_CAPS : Type := {
  vc_UsagePage : Z;
  vc_ReportID : Z;
  vc_usages : usage_spec;
  vc_LogicalMin : Z;
  vc_LogicalMax : Z
}.

Record HIDP_CAPS : Type := {
  Usage : Z;
  UsagePage : Z;
  InputReportByteLength : Z;
  NumberInputButtonCaps : Z;
  NumberInputValueCaps : Z
}.

(** ** Descriptors ([rhid.h]) *)

Record button_descriptor : Type := {
  bd_report_id : Z;
  bd_page : Z;
  bd_usage : Z;
  bd_index : Z
}.

Record value_descriptor : Type := {
  vd_report_id : Z;
  vd_page : Z;
  vd_usage : Z;
  vd_logical_min : Z;
  vd_logical_max : Z;
  vd_index : Z
}.

Definition bd_zero : button_descriptor :=
  {| bd_report_id := 0; bd_page := 0; bd_usage := 0; bd_index := 0 |}.

Definition vd_zero : value_descriptor :=
  {| vd_report_id := 0; vd_page := 0; vd_usage := 0;
     vd_logical_min := 0; vd_logical_max := 0; vd_index := 0 |}.

Definition bd_set_report_id (v : Z) (d : button_descriptor) :=
  {| bd_report_id := v; bd_page := bd_page d;
     bd_usage := bd_usage d; bd_index := bd_index d |}.

(** The three assignments [.page = p; .usage = u; .index = i] done together
    on one element. *)
Definition bd_set_page_usage_index (p u i : Z) (d : button_descriptor) :=
  {| bd_report_id := bd_report_id d; bd_page := p;
     bd_usage := u; bd_index := i |}.

(** ** Button descriptor builder (rhid_get_devices, lines 378-412) *)

Definition uint16 (z : Z) : Z := z mod 65536.

(** The inner loop [for(uint16_t u = UsageMin; u <= UsageMax; u++)].  Each
    iteration writes [button_descriptors[btn_desc_idx]] and advances
    [btn_desc_idx]. *)
Fixpoint range_loop (fuel : nat) (page umax u : Z)
    (descs : list button_descriptor) (btn_desc_idx : Z)
    : result (list button_descriptor * Z) :=
  match fuel with
  | O => OutOfFuel
  | S fuel' =>
      if decide (u <= umax) then
        match array_upd descs btn_desc_idx
                (bd_set_page_usage_index page u btn_desc_idx) with
        | None => Undefined
        | Some descs' =>
            range_loop fuel' page umax (uint16 (u + 1)) descs'
              (btn_desc_idx + 1)
        end
      else Ok (descs, btn_desc_idx)
  end.

(** Every iteration of the range loop consumes one free element of the
    array, so one more than the array length is always enough fuel. *)
Definition range_fuel (descs : list button_descriptor) : nat :=
  S (length descs).

(** The outer loop [for(int k = 0; k < NumberInputButtonCaps; k++)], with
    [n] the number of iterations left. *)
Fixpoint button_loop (button_caps : list HIDP_BUTTON_CAPS) (k n : nat)
    (descs : list button_descriptor) (btn_desc_idx : Z)
    : result (list button_descriptor * Z) :=
  match n with
  | O => Ok (descs, btn_desc_idx)
  | S n' =>
      match button_caps !! k with
      | None => Undefined
      | Some cap =>
          match array_upd descs btn_desc_idx
                  (bd_set_report_id (bc_ReportID cap)) with
          | None => Undefined
          | Some descs1 =>
              match bc_usages cap with
              | Range umin umax =>
                  match range_loop (range_fuel descs1) (bc_UsagePage cap)
                          umax umin descs1 btn_desc_idx with
                  | Ok (descs2, idx2) =>
                      button_loop button_caps (S k) n' descs2 (idx2 + 1)
                  | Undefined => Undefined
                  | OutOfFuel => OutOfFuel
                  end
              | NotRange usage =>
                  match array_upd descs1 btn_desc_idx
                          (bd_set_page_usage_index (bc_UsagePage cap) usage
                             btn_desc_idx) with
                  | None => Undefined
                  | Some descs2 =>
                      button_loop button_caps (S k) n' descs2
                        (btn_desc_idx + 1)
                  end
              end
          end
      end
  end.

(** [int btn_desc_idx = 0; for(...) {...}] on the device's descriptor
    array. *)
Definition build_button_descriptors (button_caps : list HIDP_BUTTON_CAPS)
    (number_input_button_caps : Z) (descs : list button_descriptor)
    : result (list button_descriptor * Z) :=
  button_loop button_caps 0 (Z.to_nat number_input_button_caps) descs 0.

(** ** Value descriptor builder (rhid_get_devices, lines 460-482) *)

(** A ranged value capability is not expanded: the usage recorded is
    [Range.UsageMax]. *)
Definition value_cap_usage (cap : HIDP_VALUE_CAPS) : Z :=
  match vc_usages cap with
  | Range _ umax => umax
  | NotRange usage => usage
  end.

Fixpoint value_loop (value_caps : list HIDP_VALUE_CAPS) (k n : nat)
    (descs : list value_descriptor) : result (list value_descriptor) :=
  match n with
  | O => Ok descs
  | S n' =>
      match value_caps !! k with
      | None => Undefined
      | Some cap =>
          match array_set descs (Z.of_nat k)
                  {| vd_report_id := vc_ReportID cap;
                     vd_page := vc_UsagePage cap;
                     vd_usage := value_cap_usage cap;
                     vd_logical_min := vc_LogicalMin cap;
                     vd_logical_max := vc_LogicalMax cap;
                     vd_index := Z.of_nat k |} with
          | None => Undefined
          | Some descs' => value_loop value_caps (S k) n' descs'
          end
      end
  end.

Definition build_value_descriptors (value_caps : list HIDP_VALUE_CAPS)
    (number_input_value_caps : Z) (descs : list value_descriptor)
    : result (list value_descriptor) :=
  value_loop value_caps 0 (Z.to_nat number_input_value_caps) descs.

(** ** The device record ([rhid.h]) *)

Definition NULL : Z := 0.

(** [rhid_native_t]; its [report_overlapped] member is never used, the
    code reads through [_rhid_win_gcache.report_overlapped]. *)
Record rhid_native_t : Type := {
  is_reading : Z
}.

(** [rhid_device_t] with the members [rhid_win.c] uses.  Strings are lists
    of character codes without the terminating zero; [report], [buttons],
    [values] and [native] are pointers to heap blocks. *)
Record rhid_device_t : Type := {
  path : list Z;
  handle : Z;
  vendor_id : Z;
  product_id : Z;
  version : Z;
  manufacturer_name : list Z;
  product_name : list Z;
  cap_button_count : Z;
  cap_value_count : Z;
  button_descriptors : list button_descriptor;
  value_descriptors : list value_descriptor;
  usage_page : Z;
  usage : Z;
  button_count : Z;
  value_count : Z;
  report_size : Z;
  _preparsed : Z;
  report : option (list Z);
  buttons : option (list Z);
  values : option (list Z);
  native : option rhid_native_t;
  is_open : Z
}.

(** Assignments to the members of a device. *)

Definition set_path (v_path : list Z) (d : rhid_device_t) : rhid_device_t :=
  {| path := v_path; handle := handle d; vendor_id := vendor_id d;
     product_id := product_id d; version := version d;
     manufacturer_name := manufacturer_name d;
     product_name := product_name d; cap_button_count := cap_button_count d;
     cap_value_count := cap_value_count d;
     button_descriptors := button_descriptors d;
     value_descriptors := value_descriptors d; usage_page := usage_page d;
     usage := usage d; button_count := button_count d;
     value_count := value_count d; report_size := report_size d;
     _preparsed := _preparsed d; report := report d; buttons := buttons d;
     values := values d; native := native d; is_open := is_open d |}.

Definition set_handle (v_handle : Z) (d : rhid_device_t) : rhid_device_t :=
  {| path := path d; handle := v_handle; vendor_id := vendor_id d;
     product_id := product_id d; version := version d;
     manufacturer_name := manufacturer_name d;
     product_name := product_name d; cap_button_count := cap_button_count d;
     cap_value_count := cap_value_count d;
     button_descriptors := button_descriptors d;
     value_descriptors := value_descriptors d; usage_page := usage_page d;
     usage := usage d; button_count := button_count d;
     value_count := value_count d; report_size := report_size d;
     _preparsed := _preparsed d; report := report d; buttons := buttons d;
     values := values d; native := native d; is_open := is_open d |}.

Definition set_attributes (v_vendor_id : Z) (v_product_id : Z) (v_version : Z) (d : rhid_device_t) : rhid_device_t :=
  {| path := path d; handle := handle d; vendor_id := v_vendor_id;
     product_id := v_product_id; version := v_version;
     manufacturer_name := manufacturer_name d;
     product_name := product_name d; cap_button_count := cap_button_count d;
     cap_value_count := cap_value_count d;
     button_descriptors := button_descriptors d;
     value_descriptors := value_descriptors d; usage_page := usage_page d;
     usage := usage d; button_count := button_count d;
     value_count := value_count d; report_size := report_size d;
     _preparsed := _preparsed d; report := report d; buttons := buttons d;
     values := values d; native := native d; is_open := is_open d |}.

Definition set_manufacturer_name (v_manufacturer_name : list Z) (d : rhid_device_t) : rhid_device_t :=
  {| path := path d; handle := handle d; vendor_id := vendor_id d;
     product_id := product_id d; version := version d;
     manufacturer_name := v_manufacturer_name;
     product_name := product_name d; cap_button_count := cap_button_count d;
     cap_value_count := cap_value_count d;
     button_descriptors := button_descriptors d;
     value_descriptors := value_descriptors d; usage_page := usage_page d;
     usage := usage d; button_count := button_count d;
     value_count := value_count d; report_size := report_size d;
     _preparsed := _preparsed d; report := report d; buttons := buttons d;
     values := values d; native := native d; is_open := is_open d |}.

Definition set_product_name (v_product_name : list Z) (d : rhid_device_t) : rhid_device_t :=
  {| path := path d; handle := handle d; vendor_id := vendor_id d;
     product_id := product_id d; version := version d;
     manufacturer_name := manufacturer_name d;
     product_name := v_product_name; cap_button_count := cap_button_count d;
     cap_value_count := cap_value_count d;
     button_descriptors := button_descriptors d;
     value_descriptors := value_descriptors d; usage_page := usage_page d;
     usage := usage d; button_count := button_count d;
     value_count := value_count d; report_size := report_size d;
     _preparsed := _preparsed d; report := report d; buttons := buttons d;
     values := values d; native := native d; is_open := is_open d |}.

Definition set_cap_button_count (v_cap_button_count : Z) (d : rhid_device_t) : rhid_device_t :=
  {| path := path d; handle := handle d; vendor_id := vendor_id d;
     product_id := product_id d; version := version d;
     manufacturer_name := manufacturer_name d;
     product_name := product_name d; cap_button_count := v_cap_button_count;
     cap_value_count := cap_value_count d;
     button_descriptors := button_descriptors d;
     value_descriptors := value_descriptors d; usage_page := usage_page d;
     usage := usage d; button_count := button_count d;
     value_count := value_count d; report_size := report_size d;
     _preparsed := _preparsed d; report := report d; buttons := buttons d;
     values := values d; native := native d; is_open := is_open d |}.

Definition set_cap_value_count (v_cap_value_count : Z) (d : rhid_device_t) : rhid_device_t :=
  {| path := path d; handle := handle d; vendor_id := vendor_id d;
     product_id := product_id d; version := version d;
     manufacturer_name := manufacturer_name d;
     product_name := product_name d; cap_button_count := cap_button_count d;
     cap_value_count := v_cap_value_count;
     button_descriptors := button_descriptors d;
     value_descriptors := value_descriptors d; usage_page := usage_page d;
     usage := usage d; button_count := button_count d;
     value_count := value_count d; report_size := report_size d;
     _preparsed := _preparsed d; report := report d; buttons := buttons d;
     values := values d; native := native d; is_open := is_open d |}.

Definition set_button_descriptors (v_button_descriptors : list button_descriptor) (d : rhid_device_t) : rhid_device_t :=
  {| path := path d; handle := handle d; vendor_id := vendor_id d;
     product_id := product_id d; version := version d;
     manufacturer_name := manufacturer_name d;
     product_name := product_name d; cap_button_count := cap_button_count d;
     cap_value_count := cap_value_count d;
     button_descriptors := v_button_descriptors;
     value_descriptors := value_descriptors d; usage_page := usage_page d;
     usage := usage d; button_count := button_count d;
     value_count := value_count d; report_size := report_size d;
     _preparsed := _preparsed d; report := report d; buttons := buttons d;
     values := values d; native := native d; is_open := is_open d |}.

Definition set_value_descriptors (v_value_descriptors : list value_descriptor) (d : rhid_device_t) : rhid_device_t :=
  {| path := path d; handle := handle d; vendor_id := vendor_id d;
     product_id := product_id d; version := version d;
     manufacturer_name := manufacturer_name d;
     product_name := product_name d; cap_button_count := cap_button_count d;
     cap_value_count := cap_value_count d;
     button_descriptors := button_descriptors d;
     value_descriptors := v_value_descriptors; usage_page := usage_page d;
     usage := usage d; button_count := button_count d;
     value_count := value_count d; report_size := report_size d;
     _preparsed := _preparsed d; report := report d; buttons := buttons d;
     values := values d; native := native d; is_open := is_open d |}.

Definition set_usage_page (v_usage_page : Z) (d : rhid_device_t) : rhid_device_t :=
  {| path := path d; handle := handle d; vendor_id := vendor_id d;
     product_id := product_id d; version := version d;
     manufacturer_name := manufacturer_name d;
     product_name := product_name d; cap_button_count := cap_button_count d;
     cap_value_count := cap_value_count d;
     button_descriptors := button_descriptors d;
     value_descriptors := value_descriptors d; usage_page := v_usage_page;
     usage := usage d; button_count := button_count d;
     value_count := value_count d; report_size := report_size d;
     _preparsed := _preparsed d; report := report d; buttons := buttons d;
     values := values d; native := native d; is_open := is_open d |}.

Definition set_usage (v_usage : Z) (d : rhid_device_t) : rhid_device_t :=
  {| path := path d; handle := handle d; vendor_id := vendor_id d;
     product_id := product_id d; version := version d;
     manufacturer_name := manufacturer_name d;
     product_name := product_name d; cap_button_count := cap_button_count d;
     cap_value_count := cap_value_count d;
     button_descriptors := button_descriptors d;
     value_descriptors := value_descriptors d; usage_page := usage_page d;
     usage := v_usage; button_count := button_count d;
     value_count := value_count d; report_size := report_size d;
     _preparsed := _preparsed d; report := report d; buttons := buttons d;
     values := values d; native := native d; is_open := is_open d |}.

Definition set_button_count (v_button_count : Z) (d : rhid_device_t) : rhid_device_t :=
  {| path := path d; handle := handle d; vendor_id := vendor_id d;
     product_id := product_id d; version := version d;
     manufacturer_name := manufacturer_name d;
     product_name := product_name d; cap_button_count := cap_button_count d;
     cap_value_count := cap_value_count d;
     button_descriptors := button_descriptors d;
     value_descriptors := value_descriptors d; usage_page := usage_page d;
     usage := usage d; button_count := v_button_count;
     value_count := value_count d; report_size := report_size d;
     _preparsed := _preparsed d; report := report d; buttons := buttons d;
     values := values d; native := native d; is_open := is_open d |}.

Definition set_value_count (v_value_count : Z) (d : rhid_device_t) : rhid_device_t :=
  {| path := path d; handle := handle d; vendor_id := vendor_id d;
     product_id := product_id d; version := version d;
     manufacturer_name := manufacturer_name d;
     product_name := product_name d; cap_button_count := cap_button_count d;
     cap_value_count := cap_value_count d;
     button_descriptors := button_descriptors d;
     value_descriptors := value_descriptors d; usage_page := usage_page d;
     usage := usage d; button_count := button_count d;
     value_count := v_value_count; report_size := report_size d;
     _preparsed := _preparsed d; report := report d; buttons := buttons d;
     values := values d; native := native d; is_open := is_open d |}.

Definition set_report_size (v_report_size : Z) (d : rhid_device_t) : rhid_device_t :=
  {| path := path d; handle := handle d; vendor_id := vendor_id d;
     product_id := product_id d; version := version d;
     manufacturer_name := manufacturer_name d;
     product_name := product_name d; cap_button_count := cap_button_count d;
     cap_value_count := cap_value_count d;
     button_descriptors := button_descriptors d;
     value_descriptors := value_descriptors d; usage_page := usage_page d;
     usage := usage d; button_count := button_count d;
     value_count := value_count d; report_size := v_report_size;
     _preparsed := _preparsed d; report := report d; buttons := buttons d;
     values := values d; native := native d; is_open := is_open d |}.

Definition set_preparsed (v_preparsed : Z) (d : rhid_device_t) : rhid_device_t :=
  {| path := path d; handle := handle d; vendor_id := vendor_id d;
     product_id := product_id d; version := version d;
     manufacturer_name := manufacturer_name d;
     product_name := product_name d; cap_button_count := cap_button_count d;
     cap_value_count := cap_value_count d;
     button_descriptors := button_descriptors d;
     value_descriptors := value_descriptors d; usage_page := usage_page d;
     usage := usage d; button_count := button_count d;
     value_count := value_count d; report_size := report_size d;
     _preparsed := v_preparsed; report := report d; buttons := buttons d;
     values := values d; native := native d; is_open := is_open d |}.

Definition set_report (v_report : option (list Z)) (d : rhid_device_t) : rhid_device_t :=
  {| path := path d; handle := handle d; vendor_id := vendor_id d;
     product_id := product_id d; version := version d;
     manufacturer_name := manufacturer_name d;
     product_name := product_name d; cap_button_count := cap_button_count d;
     cap_value_count := cap_value_count d;
     button_descriptors := button_descriptors d;
     value_descriptors := value_descriptors d; usage_page := usage_page d;
     usage := usage d; button_count := button_count d;
     value_count := value_count d; report_size := report_size d;
     _preparsed := _preparsed d; report := v_report; buttons := buttons d;
     values := values d; native := native d; is_open := is_open d |}.

Definition set_buttons (v_buttons : option (list Z)) (d : rhid_device_t) : rhid_device_t :=
  {| path := path d; handle := handle d; vendor_id := vendor_id d;
     product_id := product_id d; version := version d;
     manufacturer_name := manufacturer_name d;
     product_name := product_name d; cap_button_count := cap_button_count d;
     cap_value_count := cap_value_count d;
     button_descriptors := button_descriptors d;
     value_descriptors := value_descriptors d; usage_page := usage_page d;
     usage := usage d; button_count := button_count d;
     value_count := value_count d; report_size := report_size d;
     _preparsed := _preparsed d; report := report d; buttons := v_buttons;
     values := values d; native := native d; is_open := is_open d |}.

Definition set_values (v_values : option (list Z)) (d : rhid_device_t) : rhid_device_t :=
  {| path := path d; handle := handle d; vendor_id := vendor_id d;
     product_id := product_id d; version := version d;
     manufacturer_name := manufacturer_name d;
     product_name := product_name d; cap_button_count := cap_button_count d;
     cap_value_count := cap_value_count d;
     button_descriptors := button_descriptors d;
     value_descriptors := value_descriptors d; usage_page := usage_page d;
     usage := usage d; button_count := button_count d;
     value_count := value_count d; report_size := report_size d;
     _preparsed := _preparsed d; report := report d; buttons := buttons d;
     values := v_values; native := native d; is_open := is_open d |}.

Definition set_native (v_native : option rhid_native_t) (d : rhid_device_t) : rhid_device_t :=
  {| path := path d; handle := handle d; vendor_id := vendor_id d;
     product_id := product_id d; version := version d;
     manufacturer_name := manufacturer_name d;
     product_name := product_name d; cap_button_count := cap_button_count d;
     cap_value_count := cap_value_count d;
     button_descriptors := button_descriptors d;
     value_descriptors := value_descriptors d; usage_page := usage_page d;
     usage := usage d; button_count := button_count d;
     value_count := value_count d; report_size := report_size d;
     _preparsed := _preparsed d; report := report d; buttons := buttons d;
     values := values d; native := v_native; is_open := is_open d |}.

Definition set_is_open (v_is_open : Z) (d : rhid_device_t) : rhid_device_t :=
  {| path := path d; handle := handle d; vendor_id := vendor_id d;
     product_id := product_id d; version := version d;
     manufacturer_name := manufacturer_name d;
     product_name := product_name d; cap_button_count := cap_button_count d;
     cap_value_count := cap_value_count d;
     button_descriptors := button_descriptors d;
     value_descriptors := value_descriptors d; usage_page := usage_page d;
     usage := usage d; button_count := button_count d;
     value_count := value_count d; report_size := report_size d;
     _preparsed := _preparsed d; report := report d; buttons := buttons d;
     values := values d; native := native d; is_open := v_is_open |}.

(** ** Enumeration (rhid_get_devices) *)

(** The process-wide scratch cache [_rhid_win_gcache]: for each of the two
    capability tables the recorded entry count and the buffer, which is
    either NULL ([None]) or allocated for a number of entries. *)
Record gcache : Type := {
  button_caps_count : Z;
  button_caps : option Z;
  value_caps_count : Z;
  value_caps : option Z
}.

(** [_rhid_win_gcache = {0}]. *)
Definition gcache_zero : gcache :=
  {| button_caps_count := 0; button_caps := None;
     value_caps_count := 0; value_caps := None |}.

(** Number of entries a cache buffer has room for. *)
Definition buffer_size (buf : option Z) : Z :=
  match buf with
  | Some n => n
  | None => 0
  end.

(** Lines 339-355: both [malloc] and [realloc] leave a buffer of
    [number] entries. *)
Definition grow_button_caps (number : Z) (c : gcache) : gcache :=
  if decide (button_caps_count c < number) then
    {| button_caps_count := number;
       button_caps := match button_caps c with
                      | None => Some number
                      | Some _ => Some number
                      end;
       value_caps_count := value_caps_count c;
       value_caps := value_caps c |}
  else c.

(** Lines 419-435. *)
Definition grow_value_caps (number : Z) (c : gcache) : gcache :=
  if decide (value_caps_count c < number) then
    {| button_caps_count := button_caps_count c;
       button_caps := button_caps c;
       value_caps_count := number;
       value_caps := match value_caps c with
                     | None => Some number
                     | Some _ => Some number
                     end |}
  else c.

Definition ERROR_NO_MORE_ITEMS : Z := 259.
Definition ERROR_INSUFFICIENT_BUFFER : Z := 122.
Definition ERROR_IO_PENDING : Z := 997.
Definition INVALID_HANDLE_VALUE : Z := -1.

(** What the operating system and the HID driver answer for the device
    interface at one index of the device list.  A [BOOL] result comes with
    the value [GetLastError] has after the call. *)
Record device_io : Type := {
  (** [SetupDiEnumDeviceInterfaces] *)
  io_enum : bool * Z;
  (** [SetupDiGetDeviceInterfaceDetailA], size query *)
  io_detail_size : bool * Z;
  (** [SetupDiGetDeviceInterfaceDetailA]: the device path, or [FALSE] *)
  io_detail : option (list Z);
  (** [CreateFileA] with [FILE_SHARE_READ | FILE_SHARE_WRITE] *)
  io_open_read_write : Z;
  (** [CreateFileA] with [FILE_SHARE_READ] *)
  io_open_read : Z;
  (** [HidD_GetAttributes]: vendor, product, version *)
  io_attributes : option (Z * Z * Z);
  (** [HidD_GetManufacturerString], after [wcstombs] *)
  io_manufacturer_name : option (list Z);
  (** [HidD_GetProductString], after [wcstombs] *)
  io_product_name : option (list Z);
  (** [HidD_GetPreparsedData]: the blob, or [FALSE] *)
  io_preparsed : option Z;
  (** [HidP_GetCaps]: status and header *)
  io_caps : Z * HIDP_CAPS;
  (** [HidP_GetButtonCaps]: status and the entries written to the buffer *)
  io_button_caps : Z * list HIDP_BUTTON_CAPS;
  (** [HidP_GetValueCaps]: status and the entries written to the buffer *)
  io_value_caps : Z * list HIDP_VALUE_CAPS;
  (** [HidP_MaxUsageListLength(HidP_Input, 0, preparsed)] *)
  io_max_usage_list_length : Z
}.

(** [_rhid_open_device_handle], given what [CreateFileA] returned. *)
Definition _rhid_open_device_handle (create_file : Z) : Z :=
  if decide (create_file = INVALID_HANDLE_VALUE) then NULL else create_file.

(** Lines 243-250: the path is copied, and when its last three characters
    are "kbd" the last four are cut off.  [p] holds the characters of
    [DevicePath] without the terminating zero, so [next_iface_size] is
    [length p + 1]. *)
Definition copy_device_path (p : list Z) : option (list Z) :=
  let next_iface_size := Z.of_nat (length p) + 1 in
  match array_get p (next_iface_size - 4) with
  | None => None
  | Some c1 =>
      if decide (c1 = 107) then
        match array_get p (next_iface_size - 3) with
        | None => None
        | Some c2 =>
            if decide (c2 = 98) then
              match array_get p (next_iface_size - 2) with
              | None => None
              | Some c3 =>
                  if decide (c3 = 100) then
                    if decide (0 <= next_iface_size - 5)
                    then Some (take (Z.to_nat (next_iface_size - 5)) p)
                    else None
                  else Some p
              end
            else Some p
        end
      else Some p
  end.

(** Why an iteration of the enumeration loop ended in [continue]. *)
Inductive device_failure : Type :=
| HandleOpenError
| PreparsedDataError
| CapabilityQueryError (status : Z)
| TooManyCapabilities.

(** How one iteration of the loop over the devices ends. *)
Inductive iteration : Type :=
| Continue (why : device_failure) (c : gcache) (d : rhid_device_t)
| Completed (c : gcache) (d : rhid_device_t)
| Break (d : rhid_device_t)
| Return (code : Z) (d : rhid_device_t)
| IterUndefined
| IterOutOfFuel.

Section Enumeration.

(** Declared in [rhid.h]: the lengths of the [button_descriptors] and
    [value_descriptors] arrays of a device. *)
Variable RHID_MAX_BUTTON_CAPS : Z.
Variable RHID_MAX_VALUE_CAPS : Z.

(** [memset(&devices[i], 0, sizeof(rhid_device_t))]. *)
Definition device_zero : rhid_device_t :=
  {| path := []; handle := NULL; vendor_id := 0; product_id := 0;
     version := 0; manufacturer_name := []; product_name := [];
     cap_button_count := 0; cap_value_count := 0;
     button_descriptors :=
       replicate (Z.to_nat RHID_MAX_BUTTON_CAPS) bd_zero;
     value_descriptors :=
       replicate (Z.to_nat RHID_MAX_VALUE_CAPS) vd_zero;
     usage_page := 0; usage := 0; button_count := 0; value_count := 0;
     report_size := 0; _preparsed := NULL; report := None;
     buttons := None; values := None; native := None; is_open := 0 |}.

(** Lines 487-505: the end of the loop body. *)
Definition finish_device (io : device_io) (dev_caps : HIDP_CAPS)
    (c : gcache) (d : rhid_device_t) : iteration :=
  Completed c
    (set_handle NULL
      (set_report_size (InputReportByteLength dev_caps)
        (set_value_count (NumberInputValueCaps dev_caps)
          (set_button_count (io_max_usage_list_length io)
            (set_usage (Usage dev_caps)
              (set_usage_page (UsagePage dev_caps) d)))))).

(** Lines 417-485: the value capabilities. *)
Definition value_caps_stage (io : device_io) (dev_caps : HIDP_CAPS)
    (c : gcache) (d : rhid_device_t) : iteration :=
  if decide (NumberInputValueCaps dev_caps > 0) then
    let c := grow_value_caps (NumberInputValueCaps dev_caps) c in
    let d := set_cap_value_count (NumberInputValueCaps dev_caps) d in
    let '(ret, value_caps) := io_value_caps io in
    if decide (ret <> HIDP_STATUS_SUCCESS) then
      finish_device io dev_caps c d
    else
      let d := set_cap_value_count (Z.of_nat (length value_caps)) d in
      if decide (NumberInputValueCaps dev_caps > RHID_MAX_VALUE_CAPS) then
        Continue TooManyCapabilities c (set_handle NULL d)
      else
        match build_value_descriptors value_caps
                (NumberInputValueCaps dev_caps) (value_descriptors d) with
        | Ok descs =>
            finish_device io dev_caps c (set_value_descriptors descs d)
        | Undefined => IterUndefined
        | OutOfFuel => IterOutOfFuel
        end
  else finish_device io dev_caps c d.

(** Lines 337-415: the button capabilities. *)
Definition button_caps_stage (io : device_io) (dev_caps : HIDP_CAPS)
    (c : gcache) (d : rhid_device_t) : iteration :=
  if decide (NumberInputButtonCaps dev_caps > 0) then
    let c := grow_button_caps (NumberInputButtonCaps dev_caps) c in
    let d := set_cap_button_count (NumberInputButtonCaps dev_caps) d in
    let '(ret, button_caps) := io_button_caps io in
    if decide (ret <> HIDP_STATUS_SUCCESS) then
      value_caps_stage io dev_caps c d
    else
      let d := set_cap_button_count (Z.of_nat (length button_caps)) d in
      if decide (NumberInputButtonCaps dev_caps > RHID_MAX_BUTTON_CAPS) then
        Continue TooManyCapabilities c (set_handle NULL d)
      else
        match build_button_descriptors button_caps
                (NumberInputButtonCaps dev_caps) (button_descriptors d) with
        | Ok (descs, _) =>
            value_caps_stage io dev_caps c (set_button_descriptors descs d)
        | Undefined => IterUndefined
        | OutOfFuel => IterOutOfFuel
        end
  else value_caps_stage io dev_caps c d.

(** Lines 268-306: vendor, product and version, and the two names. *)
Definition read_identity (io : device_io) (d : rhid_device_t)
    : rhid_device_t :=
  let d := match io_attributes io with
           | Some (vendor, product, vers) =>
               set_attributes vendor product vers d
           | None => d
           end in
  let d := match io_manufacturer_name io with
           | Some name => set_manufacturer_name name d
           | None => d
           end in
  match io_product_name io with
  | Some name => set_product_name name d
  | None => d
  end.

(** Lines 268-335: the identity, the preparsed data and the capability
    header of a device whose handle is open. *)
Definition opened_device_stage (io : device_io) (c : gcache)
    (d : rhid_device_t) : iteration :=
  let d := read_identity io d in
  match io_preparsed io with
  | None => Continue PreparsedDataError c (set_handle NULL d)
  | Some _ =>
      let '(ret, dev_caps) := io_caps io in
      if decide (ret <> HIDP_STATUS_SUCCESS) then
        Continue (CapabilityQueryError ret) c (set_handle NULL d)
      else button_caps_stage io dev_caps c d
  end.

(** Lines 229-266: the device path and the two attempts to open the
    device. *)
Definition path_and_handle_stage (io : device_io) (c : gcache)
    (d : rhid_device_t) : iteration :=
  match io_detail io with
  | None => Return (-1) d
  | Some p =>
      match copy_device_path p with
      | None => IterUndefined
      | Some p' =>
          let d := set_path p' d in
          let h := _rhid_open_device_handle (io_open_read_write io) in
          if decide (h = NULL) then
            let h := _rhid_open_device_handle (io_open_read io) in
            if decide (h = NULL) then
              Continue HandleOpenError c (set_handle h d)
            else opened_device_stage io c (set_handle h d)
          else opened_device_stage io c (set_handle h d)
      end
  end.

(** One iteration of [for(int i = 0; i < count; i++)], lines 197-505,
    as a function of the answers for index [i] and of the cache; the
    device returned is what [devices[i]] holds when the iteration ends. *)
Definition device_step (io : device_io) (c : gcache) : iteration :=
  let d := device_zero in
  match io_enum io with
  | (false, err) =>
      if decide (err = ERROR_NO_MORE_ITEMS) then Break d
      else Return (-1) d
  | (true, _) =>
      match io_detail_size io with
      | (false, err) =>
          if decide (err <> ERROR_INSUFFICIENT_BUFFER) then Return (-1) d
          else path_and_handle_stage io c d
      | (true, _) => path_and_handle_stage io c d
      end
  end.

(** The loop of [rhid_get_devices] from index [i], with [n] iterations
    left.  [ios] are the interfaces of the device list; an index past
    its end is answered with [ERROR_NO_MORE_ITEMS]. *)
Fixpoint get_devices_loop (ios : list device_io) (i n : nat)
    (devices : list rhid_device_t) (c : gcache)
    : result (Z * gcache * list rhid_device_t) :=
  match n with
  | O => Ok (0, c, devices)
  | S n' =>
      match array_set devices (Z.of_nat i) device_zero with
      | None => Undefined
      | Some devices0 =>
          match ios !! i with
          | None => Ok (0, c, devices0)
          | Some io =>
              match device_step io c with
              | Continue _ c' d | Completed c' d =>
                  get_devices_loop ios (S i) n' (<[i := d]> devices0) c'
              | Break d => Ok (0, c, <[i := d]> devices0)
              | Return code d => Ok (code, c, <[i := d]> devices0)
              | IterUndefined => Undefined
              | IterOutOfFuel => OutOfFuel
              end
          end
      end
  end.

(** [rhid_get_devices(devices, count)].  [dev_list] is what
    [SetupDiGetClassDevsA] returns: [None] for
    [INVALID_HANDLE_VALUE]. *)
Definition rhid_get_devices (dev_list : option (list device_io))
    (devices : list rhid_device_t) (count : Z) (c : gcache)
    : result (Z * gcache * list rhid_device_t) :=
  match dev_list with
  | None => Ok (-1, c, devices)
  | Some ios => get_devices_loop ios 0 (Z.to_nat count) devices c
  end.

End Enumeration.

(** ** Selection (rhid_select_count, rhid_select_devices) *)

(** [rhid_select_func_t]: called with a usage page and a usage. *)
Definition rhid_select_func_t : Type := Z -> Z -> Z.

Fixpoint select_count_loop (select_func : rhid_select_func_t)
    (devices : list rhid_device_t) (i n : nat) (new_count : Z) : option Z :=
  match n with
  | O => Some new_count
  | S n' =>
      match devices !! i with
      | None => None
      | Some d =>
          if decide (select_func (usage_page d) (usage d) = 1)
          then select_count_loop select_func devices (S i) n' (new_count + 1)
          else select_count_loop select_func devices (S i) n' new_count
      end
  end.

Definition rhid_select_count (devices : list rhid_device_t) (count : Z)
    (select_func : rhid_select_func_t) : option Z :=
  select_count_loop select_func devices 0 (Z.to_nat count) 0.

(** The loop of [rhid_select_devices].  A pointer [&devices[i]] is the
    index [i]; [selected] is the caller's array, whose entries are [None]
    until they are assigned.  Next to the status and the array the model
    returns the list of the indices of [selected] that were assigned, in
    the order of the assignments. *)
Fixpoint select_devices_loop (select_func : rhid_select_func_t)
    (devices : list rhid_device_t) (i n : nat)
    (selected : list (option nat)) (selected_count select_index : Z)
    (written : list Z) : option (Z * list (option nat) * list Z) :=
  match n with
  | O => Some (0, selected, written)
  | S n' =>
      match devices !! i with
      | None => None
      | Some d =>
          if decide (select_func (usage_page d) (usage d) = 1) then
            if decide (select_index > selected_count) then
              Some (-1, selected, written)
            else
              match array_set selected select_index (Some i) with
              | None => None
              | Some selected' =>
                  select_devices_loop select_func devices (S i) n'
                    selected' selected_count (select_index + 1)
                    (written ++ [select_index])
              end
          else
            select_devices_loop select_func devices (S i) n'
              selected selected_count select_index written
      end
  end.

Definition rhid_select_devices (devices : list rhid_device_t) (count : Z)
    (selected : list (option nat)) (selected_count : Z)
    (select_func : rhid_select_func_t)
    : option (Z * list (option nat) * list Z) :=
  select_devices_loop select_func devices 0 (Z.to_nat count)
    selected selected_count 0 [].

(** ** Polling (rhid_read_report) *)

(** What the operating system answers during one call of
    [rhid_read_report]. *)
Record poll_io : Type := {
  (** bytes the driver has stored into the report buffer for the read in
      flight when the call starts, if any *)
  io_arrived : option (list Z);
  (** [bytes_read] after [GetOverlappedResult(..., FALSE)] *)
  io_overlapped_bytes_read : Z;
  (** [ReadFile]: result and [GetLastError] *)
  io_read_file : bool * Z;
  (** bytes [ReadFile] stored into the buffer before it returned, if any *)
  io_read_data : option (list Z)
}.

(** The calls made to the operating system, in order. *)
Inductive io_event : Type :=
| EvGetOverlappedResult
| EvReadFile (buffer : list Z) (size : Z).

(** The driver overwrites the front of the buffer. *)
Definition store_bytes (data : option (list Z)) (buffer : list Z) : list Z :=
  match data with
  | None => buffer
  | Some bytes =>
      take (length buffer) bytes ++ drop (length bytes) buffer
  end.

Definition set_is_reading (v : Z) (d : rhid_device_t) : rhid_device_t :=
  set_native (Some {| is_reading := v |}) d.

(** Lines 566-584: from [device->report[0] = report_id] on.  [events] are
    the calls already made, [is_reading_now] the current value of
    [device->native->is_reading]. *)
Definition start_read (io : poll_io) (device : rhid_device_t)
    (buffer : list Z) (is_reading_now : Z) (report_id : Z)
    (events : list io_event) : option (Z * rhid_device_t * list io_event) :=
  match array_set buffer 0 report_id with
  | None => None
  | Some buffer1 =>
      let events := events ++ [EvReadFile buffer1 (report_size device)] in
      let buffer2 := store_bytes (io_read_data io) buffer1 in
      let device := set_report (Some buffer2) device in
      match io_read_file io with
      | (false, err) =>
          if decide (err <> ERROR_IO_PENDING) then Some (0, device, events)
          else if decide (is_reading_now = 0)
               then Some (1, set_is_reading 1 device, events)
               else Some (0, device, events)
      | (true, _) =>
          if decide (is_reading_now = 0)
          then Some (1, set_is_reading 1 device, events)
          else Some (0, device, events)
      end
  end.

(** [rhid_read_report(device, report_id)]: the returned integer, the
    device afterwards and the calls made. *)
Definition rhid_read_report (io : poll_io) (device : rhid_device_t)
    (report_id : Z) : option (Z * rhid_device_t * list io_event) :=
  match native device, report device with
  | Some state, Some buffer =>
      if decide (is_reading state <> 0) then
        let buffer := store_bytes (io_arrived io) buffer in
        let device := set_report (Some buffer) device in
        if decide (io_overlapped_bytes_read io >= report_size device) then
          start_read io (set_is_reading 0 device) buffer 0 report_id
            [EvGetOverlappedResult]
        else Some (0, device, [EvGetOverlappedResult])
      else start_read io device buffer (is_reading state) report_id []
  | _, _ => None
  end.

(** [ReadFile] either completed at once or queued the read. *)
Definition read_started (io : poll_io) : Prop :=
  match io_read_file io with
  | (false, err) => err = ERROR_IO_PENDING
  | (true, _) => True
  end.

(** ** Opening and closing (rhid_open, rhid_close) *)

Record open_io : Type := {
  (** [CreateFileA] with [FILE_SHARE_READ] *)
  oio_open_read : Z;
  (** [CreateFileA] with [FILE_SHARE_READ | FILE_SHARE_WRITE] *)
  oio_open_read_write : Z;
  (** [HidD_GetPreparsedData] *)
  oio_preparsed : option Z;
  (** contents of the [malloc]ed report buffer after
      [HidD_GetInputReport] *)
  oio_report : list Z
}.

Definition rhid_open (io : open_io) (device : rhid_device_t)
    : Z * rhid_device_t :=
  let h := _rhid_open_device_handle (oio_open_read io) in
  let h := if decide (h = NULL)
           then _rhid_open_device_handle (oio_open_read_write io) else h in
  if decide (h = NULL) then (-1, set_handle h device)
  else
    let device := set_handle h device in
    match oio_preparsed io with
    | None => (-1, set_handle NULL device)
    | Some preparsed =>
        let device := set_preparsed preparsed device in
        let device :=
          set_report
            (Some (resize (Z.to_nat (report_size device)) 0 (oio_report io)))
            device in
        let device :=
          set_buttons
            (Some (replicate (Z.to_nat (button_count device)) 0)) device in
        let device :=
          set_values
            (Some (replicate (Z.to_nat (value_count device)) 0)) device in
        let device := set_is_reading 0 device in
        (0, set_is_open 1 device)
    end.

Definition rhid_close (device : rhid_device_t) : Z * rhid_device_t :=
  if decide (is_open device = 0) then (-1, device)
  else
    (0, set_is_open 0
          (set_native None
            (set_values None
              (set_buttons None
                (set_report None
                  (set_preparsed NULL (set_handle NULL device))))))).

(** ** Decoding (rhid_report) *)

(** The usage queries of the HID driver.  Both read the preparsed data and
    the raw report; [HidP_GetUsagesEx] returns a status and the list of
    active (page, usage) pairs it stored, whose length is the final
    [active_count]; [HidP_GetUsageValue] returns a status and what it has
    stored through its output pointer, [None] when it has stored nothing.
    The code gives no reason to tie the one to the other: a query may fail
    and store a value, or succeed and store none. *)
Record hid_driver : Type := {
  HidP_GetUsagesEx : Z -> list Z -> Z -> Z * list (Z * Z);
  HidP_GetUsageValue : Z -> Z -> Z -> list Z -> Z -> Z * option Z
}.

(** [memset(device->buttons, 0, device->button_count)]. *)
Definition clear_buttons (buttons : list Z) (button_count : Z)
    : option (list Z) :=
  if decide (0 <= button_count <= Z.of_nat (length buttons)) then
    Some (replicate (Z.to_nat button_count) 0
            ++ drop (Z.to_nat button_count) buttons)
  else None.

(** The inner loop of lines 702-710 for one active pair, from descriptor
    [i] with [n] descriptors left: the [index] of the first descriptor with
    that page and usage, if there is one. *)
Fixpoint find_button (descs : list button_descriptor) (page usage : Z)
    (i n : nat) : option (option Z) :=
  match n with
  | O => Some None
  | S n' =>
      match descs !! i with
      | None => None
      | Some d =>
          if decide (bd_page d = page /\ bd_usage d = usage)
          then Some (Some (bd_index d))
          else find_button descs page usage (S i) n'
      end
  end.

(** The outer loop of lines 701-711 over the active pairs. *)
Fixpoint mark_buttons (descs : list button_descriptor) (button_count : Z)
    (active : list (Z * Z)) (buttons : list Z) : option (list Z) :=
  match active with
  | [] => Some buttons
  | (page, usage) :: active' =>
      match find_button descs page usage 0 (Z.to_nat button_count) with
      | None => None
      | Some None => mark_buttons descs button_count active' buttons
      | Some (Some index) =>
          match array_set buttons index 1 with
          | None => None
          | Some buttons' =>
              mark_buttons descs button_count active' buttons'
          end
      end
  end.

Section Decoding.

Variable driver : hid_driver.

(** Lines 757-767, from descriptor [i] with [n] descriptors left.  The
    query is handed [&device->values[i]]: the slot holds afterwards what
    the query has stored there.  The status [ret] is compared with success
    only to write a log line (lines 763-766). *)
Fixpoint value_phase (device : rhid_device_t) (buffer : list Z)
    (i n : nat) (values : list Z) : option (list Z) :=
  match n with
  | O => Some values
  | S n' =>
      match value_descriptors device !! i, values !! i with
      | Some vd, Some _ =>
          let '(ret, stored) :=
            HidP_GetUsageValue driver (vd_page vd) 0 (vd_usage vd)
              buffer (report_size device) in
          let values :=
            match stored with
            | Some v => <[i := v]> values
            | None => values
            end in
          value_phase device buffer (S i) n' values
      | _, _ => None
      end
  end.

(** Lines 686-770: [rhid_report] after the call of [rhid_read_report],
    given what that call returned. *)
Definition decode_report (report_avaliable : Z) (device : rhid_device_t)
    : option (Z * rhid_device_t) :=
  if decide (report_avaliable <> 0) then
    match report device with
    | None => None
    | Some buffer =>
        let '(ret, usages_pages) :=
          HidP_GetUsagesEx driver (_preparsed device) buffer
            (report_size device) in
        if decide (ret <> HIDP_STATUS_SUCCESS) then Some (-1, device)
        else
          match buttons device, values device with
          | Some btns, Some vals =>
              match clear_buttons btns (button_count device) with
              | None => None
              | Some btns0 =>
                  match mark_buttons (button_descriptors device)
                          (button_count device) usages_pages btns0 with
                  | None => None
                  | Some btns1 =>
                      match value_phase device buffer 0
                              (Z.to_nat (value_count device)) vals with
                      | None => None
                      | Some vals1 =>
                          Some (0, set_values (Some vals1)
                                     (set_buttons (Some btns1) device))
                      end
                  end
              end
          | _, _ => None
          end
    end
  else Some (0, device).

(** [rhid_report(device, report_id)]: the status, the device afterwards
    and the calls made to the operating system. *)
Definition rhid_report (io : poll_io) (device : rhid_device_t)
    (report_id : Z) : option (Z * rhid_device_t * list io_event) :=
  if decide (handle device = NULL \/ is_open device = 0)
  then Some (-1, device, [])
  else
    match rhid_read_report io device report_id with
    | None => None
    | Some (report_avaliable, device1, events) =>
        match decode_report report_avaliable device1 with
        | None => None
        | Some (status, device2) => Some (status, device2, events)
        end
    end.

End Decoding.

(** ** State queries (rhid_get_buttons_state, rhid_get_values_state) *)

(** [memcpy(dst, src, n)] on arrays of equally sized elements. *)
Definition memcpy {A} (dst src : list A) (n : Z) : option (list A) :=
  if decide (0 <= n /\ n <= Z.of_nat (length src)
             /\ n <= Z.of_nat (length dst))
  then Some (take (Z.to_nat n) src ++ drop (Z.to_nat n) dst)
  else None.

(** Returns the status and the caller's buffer afterwards. *)
Definition rhid_get_buttons_state (device : rhid_device_t)
    (buttons_out : list Z) (size : Z) : option (Z * list Z) :=
  if decide (size < button_count device) then Some (-1, buttons_out)
  else
    match buttons device with
    | None => None
    | Some src =>
        match memcpy buttons_out src (button_count device) with
        | None => None
        | Some out => Some (0, out)
        end
    end.

Definition rhid_get_values_state (device : rhid_device_t)
    (values_out : list Z) (size : Z) : option (Z * list Z) :=
  if decide (size < value_count device) then Some (-1, values_out)
  else
    match values device with
    | None => None
    | Some src =>
        match memcpy values_out src (value_count device) with
        | None => None
        | Some out => Some (0, out)
        end
    end.

(** ** Sample devices

    The device of the specification's scenario, one ranged button
    capability (page 9, usages 1 to 4) and one value capability (page 1,
    usage 0x30, logical range 0 to 255), and variations of it. *)

Definition range_1_4 : HIDP_BUTTON_CAPS :=
  {| bc_UsagePage := 9; bc_ReportID := 1; bc_usages := Range 1 4 |}.

Definition single_5 : HIDP_BUTTON_CAPS :=
  {| bc_UsagePage := 9; bc_ReportID := 1; bc_usages := NotRange 5 |}.

Definition axis_x : HIDP_VALUE_CAPS :=
  {| vc_UsagePage := 1; vc_ReportID := 1; vc_usages := NotRange 0x30;
     vc_LogicalMin := 0; vc_LogicalMax := 255 |}.

(** A joystick interface answering with the given handles, preparsed
    data, header status, capability counts and capability tables. *)
Definition sample_io (open_read_write open_read : Z) (preparsed : option Z)
    (caps_status : Z) (button_caps : list HIDP_BUTTON_CAPS)
    (number_value_caps : Z) : device_io :=
  {| io_enum := (true, 0);
     io_detail_size := (false, ERROR_INSUFFICIENT_BUFFER);
     io_detail := Some [104; 105; 100; 35; 49];
     io_open_read_write := open_read_write;
     io_open_read := open_read;
     io_attributes := Some (0x046d, 0xc216, 1);
     io_manufacturer_name := Some [76];
     io_product_name := None;
     io_preparsed := preparsed;
     io_caps :=
       (caps_status,
        {| Usage := 4; UsagePage := 1; InputReportByteLength := 3;
           NumberInputButtonCaps := Z.of_nat (length button_caps);
           NumberInputValueCaps := number_value_caps |});
     io_button_caps := (HIDP_STATUS_SUCCESS, button_caps);
     io_value_caps :=
       (HIDP_STATUS_SUCCESS, replicate (Z.to_nat number_value_caps) axis_x);
     io_max_usage_list_length := 4 |}.

Definition gamepad_io : device_io :=
  sample_io 11 11 (Some 77) HIDP_STATUS_SUCCESS [range_1_4] 1.

(** The scenario's device as [rhid_get_devices] records it with room for
    8 button and 4 value descriptors. *)
Definition gamepad_enumerated : rhid_device_t :=
  match device_step 8 4 gamepad_io gcache_zero with
  | Completed _ d => d
  | _ => device_zero 8 4
  end.

Definition gamepad_open_io : open_io :=
  {| oio_open_read := 12; oio_open_read_write := 12;
     oio_preparsed := Some 78; oio_report := [1; 0; 0] |}.

(** The scenario's device after [rhid_open]. *)
Definition gamepad : rhid_device_t :=
  snd (rhid_open gamepad_open_io gamepad_enumerated).

(** A driver that finds usages 2 and 4 of page 9 active and reads 127 for
    usage 0x30 of page 1 in every report whose second byte is not 255, and
    fails on the others. *)
Definition sample_driver : hid_driver :=
  {| HidP_GetUsagesEx := fun _ buffer _ =>
       if decide (buffer !! 1%nat = Some 255)
       then (HIDP_STATUS_BUFFER_TOO_SMALL, [])
       else (HIDP_STATUS_SUCCESS, [(9, 2); (9, 4); (9, 2)]);
     HidP_GetUsageValue := fun page _ usage buffer _ =>
       if decide (page = 1 /\ usage = 0x30)
       then (HIDP_STATUS_SUCCESS, Some 127)
       else (HIDP_STATUS_USAGE_NOT_FOUND, None) |}.

(** A driver whose value query fails on every report and stores 0 through
    its output pointer all the same; its active-usage query is that of
    [sample_driver]. *)
Definition clearing_driver : hid_driver :=
  {| HidP_GetUsagesEx := HidP_GetUsagesEx sample_driver;
     HidP_GetUsageValue := fun _ _ _ _ _ =>
       (HIDP_STATUS_USAGE_NOT_FOUND, Some 0) |}.

(** A read that is queued and has delivered nothing yet. *)
Definition read_queued : poll_io :=
  {| io_arrived := None; io_overlapped_bytes_read := 0;
     io_read_file := (false, ERROR_IO_PENDING); io_read_data := None |}.

(** A read that has completed with the given report. *)
Definition read_completed (data : list Z) : poll_io :=
  {| io_arrived := Some data;
     io_overlapped_bytes_read := Z.of_nat (length data);
     io_read_file := (false, ERROR_IO_PENDING); io_read_data := None |}.

(** The usage and usage page of a device, for selection. *)
Definition is_joystick : rhid_select_func_t :=
  fun page usage => if decide (page = 1 /\ usage = 4) then 1 else 0.

(** ** Notions used to state the properties *)

(** [buttons[s] = 1] for every slot of a list. *)
Definition set_slots (slots : list Z) (buttons : list Z) : list Z :=
  foldl (fun b s => <[Z.to_nat s := 1]> b) buttons slots.

(** The slots the two loops of lines 701-711 assign, in order: for every
    active pair the [index] of the first descriptor that matches it. *)
Fixpoint active_slots (descs : list button_descriptor) (button_count : Z)
    (active : list (Z * Z)) : option (list Z) :=
  match active with
  | [] => Some []
  | (page, usage) :: active' =>
      match find_button descs page usage 0 (Z.to_nat button_count) with
      | None => None
      | Some None => active_slots descs button_count active'
      | Some (Some index) =>
          match active_slots descs button_count active' with
          | None => None
          | Some slots => Some (index :: slots)
          end
      end
  end.

(** The loops of [rhid_report] stay inside the arrays of the device: the
    buffers are allocated, [button_count] elements fit in the button array
    and in the descriptor array, the first [button_count] descriptors carry
    indices inside the button array, and [value_count] elements fit in the
    value array and in its descriptor array. *)
Record decode_ready (device : rhid_device_t) (buffer btns vals : list Z)
    : Prop := {
  ready_report : report device = Some buffer;
  ready_buttons : buttons device = Some btns;
  ready_values : values device = Some vals;
  ready_button_count :
    0 <= button_count device <= Z.of_nat (length btns);
  ready_button_descriptors :
    button_count device <= Z.of_nat (length (button_descriptors device));
  ready_index :
    forall (i : nat) (bd : button_descriptor),
      Z.of_nat i < button_count device ->
      button_descriptors device !! i = Some bd ->
      0 <= bd_index bd < Z.of_nat (length btns);
  ready_value_count :
    value_count device <= Z.of_nat (length vals);
  ready_value_descriptors :
    value_count device <= Z.of_nat (length (value_descriptors device))
}.

(** The scenario's device holding a report on which [sample_driver]
    fails. *)
Definition gamepad_bad_report : rhid_device_t :=
  set_report (Some [1; 255; 0]) gamepad.

(** The scenario's device after one decode cycle. *)
Definition gamepad_cycle_1 : rhid_device_t :=
  match rhid_report sample_driver read_queued gamepad 1 with
  | Some (_, d, _) => d
  | None => gamepad
  end.

(** What lines 758-766 leave in the slot of descriptor [vd] when it held
    [old]: what the query has stored, whatever its status, and [old] when
    it has stored nothing. *)
Definition value_after (driver : hid_driver) (device : rhid_device_t)
    (buffer : list Z) (vd : value_descriptor) (old : Z) : Z :=
  match snd (HidP_GetUsageValue driver (vd_page vd) 0 (vd_usage vd) buffer
               (report_size device)) with
  | Some v => v
  | None => old
  end.

(** The cache records for each buffer the number of entries it has room
    for, which is not negative. *)
Definition cache_ok (c : gcache) : Prop :=
  (0 <= button_caps_count c
   /\ buffer_size (button_caps c) = button_caps_count c)
  /\ (0 <= value_caps_count c
      /\ buffer_size (value_caps c) = value_caps_count c).

(** The cache after an iteration of the enumeration loop that started
    with cache [c]. *)
Definition iteration_cache (it : iteration) (c : gcache) : option gcache :=
  match it with
  | Continue _ c' _ | Completed c' _ => Some c'
  | Break _ | Return _ _ => Some c
  | IterUndefined | IterOutOfFuel => None
  end.

(** [devices[i].handle] after lines 256-266. *)
Definition opened_handle (io : device_io) : Z :=
  let h := _rhid_open_device_handle (io_open_read_write io) in
  if decide (h = NULL) then _rhid_open_device_handle (io_open_read io)
  else h.

(** The enumeration of the interface gets as far as opening the device:
    the interface and its path are obtained (lines 205-250). *)
Definition reaches_handle (io : device_io) : Prop :=
  fst (io_enum io) = true
  /\ (fst (io_detail_size io) = true
      \/ snd (io_detail_size io) = ERROR_INSUFFICIENT_BUFFER)
  /\ exists p p' : list Z,
       io_detail io = Some p /\ copy_device_path p = Some p'.

(** The enumeration of the interface obtains the capability header
    [dev_caps] (lines 205-335). *)
Definition obtains_header (io : device_io) (dev_caps : HIDP_CAPS) : Prop :=
  reaches_handle io
  /\ opened_handle io <> NULL
  /\ is_Some (io_preparsed io)
  /\ io_caps io = (HIDP_STATUS_SUCCESS, dev_caps).

(** Several enumeration passes, one after the other, on the same cache.
    A pass is what [SetupDiGetClassDevsA] returns, the caller's array and
    its [count]. *)
Fixpoint enumeration_passes (max_buttons max_values : Z)
    (passes : list (option (list device_io) * list rhid_device_t * Z))
    (c : gcache) : result gcache :=
  match passes with
  | [] => Ok c
  | (dev_list, devices, count) :: passes' =>
      match rhid_get_devices max_buttons max_values dev_list devices
              count c with
      | Ok (_, c', _) =>
          enumeration_passes max_buttons max_values passes' c'
      | Undefined => Undefined
      | OutOfFuel => OutOfFuel
      end
  end.

Section Failures.

Variable RHID_MAX_BUTTON_CAPS : Z.
Variable RHID_MAX_VALUE_CAPS : Z.

(** The check of line 368 is reached and fails. *)
Definition too_many_buttons (io : device_io) (dev_caps : HIDP_CAPS) : Prop :=
  NumberInputButtonCaps dev_caps > 0
  /\ fst (io_button_caps io) = HIDP_STATUS_SUCCESS
  /\ NumberInputButtonCaps dev_caps > RHID_MAX_BUTTON_CAPS.




End Failures.

(** Nothing but the identity and the capability tables of the device has
    been recorded: the usage, the counts and the report size are zero and
    there are no buffers. *)
Record not_in_use (d : rhid_device_t) : Prop := {
  unused_usage_page : usage_page d = 0;
  unused_usage : usage d = 0;
  unused_button_count : button_count d = 0;
  unused_value_count : value_count d = 0;
  unused_report_size : report_size d = 0;
  unused_preparsed : _preparsed d = NULL;
  unused_report : report d = None;
  unused_buttons : buttons d = None;
  unused_values : values d = None;
  unused_native : native d = None;
  unused_is_open : is_open d = 0
}.


(** A device with five single-usage button capabilities and one value
    capability. *)
Definition five_buttons_io : device_io :=
  sample_io 11 11 (Some 77) HIDP_STATUS_SUCCESS
    (replicate 5 single_5) 1.

(** A device whose handle cannot be opened. *)
Definition locked_io : device_io :=
  sample_io INVALID_HANDLE_VALUE INVALID_HANDLE_VALUE (Some 77)
    HIDP_STATUS_SUCCESS [range_1_4] 1.

(** No buffer of [c'] has room for fewer entries than it has in [c]. *)
Definition cache_le (c c' : gcache) : Prop :=
  buffer_size (button_caps c) <= buffer_size (button_caps c')
  /\ buffer_size (value_caps c) <= buffer_size (value_caps c').

(** The cache after the enumeration of the scenario's device alone. *)
Definition gamepad_cache : gcache :=
  {| button_caps_count := 1; button_caps := Some 1;
     value_caps_count := 1; value_caps := Some 1 |}.

(** An iteration of the enumeration loop ends on the way to the next
    index, at the end of the loop body or in a [continue], with the
    handle of its device NULL. *)
Definition goes_to_next_device (it : iteration) : Prop :=
  exists (c' : gcache) (d : rhid_device_t),
    (it = Completed c' d \/ exists why, it = Continue why c' d)
    /\ handle d = NULL.

(** ** Counting the interfaces (rhid_get_device_count) *)

Definition INT_MAX : Z := 2147483647.

(** [SetupDiEnumDeviceInterfaces] at a member index of the device list: an
    index past the end of the list is answered with
    [ERROR_NO_MORE_ITEMS]. *)
Definition enum_interface (ios : list device_io) (i : Z) : bool * Z :=
  match array_get ios i with
  | Some io => io_enum io
  | None => (false, ERROR_NO_MORE_ITEMS)
  end.

(** Lines 129-147, [for(int i = jump_count;; i += jump_count)]: the index
    at which the loop breaks, or [None] when the function returns -1 from
    inside the loop.  [i += jump_count] on an [int] must not overflow. *)
Fixpoint count_jump (ios : list device_io) (fuel : nat) (i : Z)
    : result (option Z) :=
  match fuel with
  | O => OutOfFuel
  | S fuel' =>
      match enum_interface ios i with
      | (false, err) =>
          if decide (err = ERROR_NO_MORE_ITEMS) then Ok (Some i)
          else Ok None
      | (true, _) =>
          if decide (i + 5 <= INT_MAX) then count_jump ios fuel' (i + 5)
          else Undefined
      end
  end.

(** Lines 150-157, [for(; last_index >= 0; last_index--)], with [k] the
    number of indices not yet tried, [last_index + 1]: the value of
    [last_index] after the loop. *)
Fixpoint count_back (ios : list device_io) (k : nat) : Z :=
  match k with
  | O => -1
  | S k' =>
      if fst (enum_interface ios (Z.of_nat k')) then Z.of_nat k'
      else count_back ios k'
  end.

(** The jump loop leaves the list after at most one step per five
    interfaces, so this is always enough fuel. *)
Definition count_fuel (ios : list device_io) : nat := S (length ios).

(** [rhid_get_device_count()].  [dev_list] is what [SetupDiGetClassDevsA]
    returns: [None] for [INVALID_HANDLE_VALUE]. *)
Definition rhid_get_device_count (dev_list : option (list device_io))
    : result Z :=
  match dev_list with
  | None => Ok (-1)
  | Some ios =>
      match count_jump ios (count_fuel ios) 5 with
      | Ok None => Ok (-1)
      | Ok (Some last_index) =>
          Ok (count_back ios (Z.to_nat (last_index + 1)) + 1)
      | Undefined => Undefined
      | OutOfFuel => OutOfFuel
      end
  end.

(** ** More notions used to state the properties *)

(** The device holds no handle and no heap block and is not open: the
    state in which [rhid_get_devices] and [rhid_close] leave a device. *)
Record closed_state (d : rhid_device_t) : Prop := {
  closed_handle : handle d = NULL;
  closed_preparsed : _preparsed d = NULL;
  closed_report : report d = None;
  closed_buttons : buttons d = None;
  closed_values : values d = None;
  closed_native : native d = None;
  closed_is_open : is_open d = 0
}.

(** The value descriptor the loop of lines 460-482 writes for entry [k] of
    the value-capability table. *)
Definition value_descriptor_of (cap : HIDP_VALUE_CAPS) (k : nat)
    : value_descriptor :=
  {| vd_report_id := vc_ReportID cap; vd_page := vc_UsagePage cap;
     vd_usage := value_cap_usage cap;
     vd_logical_min := vc_LogicalMin cap;
     vd_logical_max := vc_LogicalMax cap; vd_index := Z.of_nat k |}.

(** Whether entry [i] of the device array matches the selection
    function. *)
Definition selects (select_func : rhid_select_func_t)
    (devices : list rhid_device_t) (i : nat) : bool :=
  match devices !! i with
  | Some d => bool_decide (select_func (usage_page d) (usage d) = 1)
  | None => false
  end.

(** The indices below [count] of the devices the selection function
    matches, in ascending order. *)
Definition matching (select_func : rhid_select_func_t)
    (devices : list rhid_device_t) (count : nat) : list nat :=
  List.filter (selects select_func devices) (seq 0 count).

(** The device an iteration of the enumeration loop leaves in
    [devices[i]]. *)
Definition iteration_device (it : iteration) : option rhid_device_t :=
  match it with
  | Continue _ _ d | Completed _ d | Break d | Return _ d => Some d
  | IterUndefined | IterOutOfFuel => None
  end.



(** What lines 487-505 record in a device from its capability header. *)
Record header_recorded (io : device_io) (dev_caps : HIDP_CAPS)
    (d : rhid_device_t) : Prop := {
  recorded_usage_page : usage_page d = UsagePage dev_caps;
  recorded_usage : usage d = Usage dev_caps;
  recorded_button_count : button_count d = io_max_usage_list_length io;
  recorded_value_count : value_count d = NumberInputValueCaps dev_caps;
  recorded_report_size : report_size d = InputReportByteLength dev_caps
}.

(** An enumeration pass over a device that cannot be opened, a device
    with too many button capabilities and the scenario's device, with
    [count] 2 on an array of three entries. *)
Definition sample_pass : result (Z * gcache * list rhid_device_t) :=
  rhid_get_devices 4 4 (Some [locked_io; five_buttons_io; gamepad_io])
    (replicate 3 (device_zero 4 4)) 2 gcache_zero.

Definition sample_pass_status : Z :=
  match sample_pass with Ok (status, _, _) => status | _ => 0 end.

Definition sample_pass_cache : gcache :=
  match sample_pass with Ok (_, c, _) => c | _ => gcache_zero end.

Definition sample_pass_devices : list rhid_device_t :=
  match sample_pass with Ok (_, _, devices) => devices | _ => [] end.

(** Whether a call to the operating system is a [ReadFile]. *)
Definition is_read_file (event : io_event) : bool :=
  match event with
  | EvReadFile _ _ => true
  | EvGetOverlappedResult => false
  end.

(** A read that has completed with the given report while the next read
    cannot be started. *)
Definition read_completed_restart_fails (data : list Z) : poll_io :=
  {| io_arrived := Some data;
     io_overlapped_bytes_read := Z.of_nat (length data);
     io_read_file := (false, 5); io_read_data := None |}.

(** * Properties *)

(** ** Arrays *)

Lemma array_set_Some {A} (l : list A) (i : Z) (x : A) :
  0 <= i < Z.of_nat (length l) ->
  array_set l i x = Some (<[Z.to_nat i := x]> l).
Proof. intros H. unfold array_set. by rewrite decide_True. Qed.

Lemma array_set_inv {A} (l l' : list A) (i : Z) (x : A) :
  array_set l i x = Some l' ->
  0 <= i < Z.of_nat (length l) /\ l' = <[Z.to_nat i := x]> l.
Proof. unfold array_set. case_decide; [by intros [= <-] | done]. Qed.

Lemma array_set_length {A} (l l' : list A) (i : Z) (x : A) :
  array_set l i x = Some l' -> length l' = length l.
Proof.
  intros [_ ->]%array_set_inv. apply length_insert.
Qed.

Lemma memcpy_spec {A} (dst src out : list A) (n : Z) :
  memcpy dst src n = Some out ->
  take (Z.to_nat n) out = take (Z.to_nat n) src
  /\ drop (Z.to_nat n) out = drop (Z.to_nat n) dst
  /\ length out = length dst.
Proof.
  unfold memcpy. case_decide as Hn; [|done]. intros [= <-].
  destruct Hn as (H0 & Hsrc & Hdst).
  assert (Hlen : length (take (Z.to_nat n) src) = Z.to_nat n).
  { rewrite length_take. lia. }
  split_and!.
  - rewrite take_app_le by lia. rewrite take_take. f_equal. lia.
  - rewrite drop_app_ge by lia. rewrite Hlen, Nat.sub_diag. done.
  - rewrite length_app, Hlen, length_drop. lia.
Qed.

(** ** State queries *)

(** C10.  [rhid_get_buttons_state] returns -1 and leaves the caller's buffer
    as it was when [size] is less than [button_count]; otherwise it copies
    exactly [button_count] button bytes to the front of the buffer, leaves
    the rest of the buffer as it was and returns 0.  [rhid_get_values_state]
    does the same with [value_count] value words.  The device's own array
    has [button_count] (resp. [value_count]) elements, as [rhid_open]
    allocates it, and the caller's buffer has at least [size] elements. *)
Theorem get_state_checks_size (device : rhid_device_t)
    (buttons_out values_out : list Z) (size : Z) :
  (size < button_count device ->
   rhid_get_buttons_state device buttons_out size = Some (-1, buttons_out))
  /\ (forall src : list Z,
        button_count device <= size ->
        buttons device = Some src ->
        Z.of_nat (length src) = button_count device ->
        size <= Z.of_nat (length buttons_out) ->
        exists out : list Z,
          rhid_get_buttons_state device buttons_out size = Some (0, out)
          /\ take (length src) out = src
          /\ drop (length src) out = drop (length src) buttons_out
          /\ length out = length buttons_out)
  /\ (size < value_count device ->
      rhid_get_values_state device values_out size = Some (-1, values_out))
  /\ (forall src : list Z,
        value_count device <= size ->
        values device = Some src ->
        Z.of_nat (length src) = value_count device ->
        size <= Z.of_nat (length values_out) ->
        exists out : list Z,
          rhid_get_values_state device values_out size = Some (0, out)
          /\ take (length src) out = src
          /\ drop (length src) out = drop (length src) values_out
          /\ length out = length values_out).
Proof.
  split_and!.
  - intros H. unfold rhid_get_buttons_state. by rewrite decide_True.
  - intros src Hsz Hsrc Hlen Hout. unfold rhid_get_buttons_state.
    rewrite decide_False by lia. rewrite Hsrc.
    destruct (memcpy buttons_out src (button_count device)) as [out|] eqn:E.
    + exists out. split; [done|].
      apply memcpy_spec in E. rewrite <- Hlen, Nat2Z.id in E.
      destruct E as (E1 & E2 & E3). rewrite firstn_all in E1. done.
    + exfalso. unfold memcpy in E. rewrite decide_True in E; [done|lia].
  - intros H. unfold rhid_get_values_state. by rewrite decide_True.
  - intros src Hsz Hsrc Hlen Hout. unfold rhid_get_values_state.
    rewrite decide_False by lia. rewrite Hsrc.
    destruct (memcpy values_out src (value_count device)) as [out|] eqn:E.
    + exists out. split; [done|].
      apply memcpy_spec in E. rewrite <- Hlen, Nat2Z.id in E.
      destruct E as (E1 & E2 & E3). rewrite firstn_all in E1. done.
    + exfalso. unfold memcpy in E. rewrite decide_True in E; [done|lia].
Qed.

Lemma get_state_checks_size_witness :
  exists out : list Z,
    rhid_get_buttons_state gamepad [9; 9; 9; 9; 9] 5 = Some (0, out)
    /\ take 4 out = [0; 0; 0; 0]
    /\ drop 4 out = [9]
    /\ length out = 5%nat.
Proof.
  apply (proj1 (proj2 (get_state_checks_size gamepad [9; 9; 9; 9; 9] [] 5))
           [0; 0; 0; 0]).
  - vm_compute. discriminate.
  - reflexivity.
  - reflexivity.
  - vm_compute. discriminate.
Defined.

(** ** Button descriptor builder *)

Example build_scenario :
  build_button_descriptors [range_1_4] 1 (replicate 6 bd_zero)
  = Ok ([ {| bd_report_id := 1; bd_page := 9; bd_usage := 1; bd_index := 0 |};
          {| bd_report_id := 0; bd_page := 9; bd_usage := 2; bd_index := 1 |};
          {| bd_report_id := 0; bd_page := 9; bd_usage := 3; bd_index := 2 |};
          {| bd_report_id := 0; bd_page := 9; bd_usage := 4; bd_index := 3 |};
          bd_zero; bd_zero ], 5).
Proof. reflexivity. Qed.

(** C1.  For the table of a usage range 1..4 followed by the single usage
    5, both of report 1 and page 9, the builder writes four descriptors for
    the range at elements 0 to 3, of which only the first carries the
    report id, leaves element 4 untouched and gives the descriptor of usage
    5 the slot index 5, although four descriptors were emitted before
    it. *)
Theorem button_builder_skips_slot_after_range :
  build_button_descriptors [range_1_4; single_5] 2 (replicate 8 bd_zero)
  = Ok ([ {| bd_report_id := 1; bd_page := 9; bd_usage := 1; bd_index := 0 |};
          {| bd_report_id := 0; bd_page := 9; bd_usage := 2; bd_index := 1 |};
          {| bd_report_id := 0; bd_page := 9; bd_usage := 3; bd_index := 2 |};
          {| bd_report_id := 0; bd_page := 9; bd_usage := 4; bd_index := 3 |};
          bd_zero;
          {| bd_report_id := 1; bd_page := 9; bd_usage := 5; bd_index := 5 |};
          bd_zero; bd_zero ], 6).
Proof. reflexivity. Qed.

(** ** The fuel of the range loop is enough *)

Lemma array_upd_inv {A} (l l' : list A) (i : Z) (f : A -> A) :
  array_upd l i f = Some l' ->
  0 <= i < Z.of_nat (length l)
  /\ exists x, l !! Z.to_nat i = Some x /\ l' = <[Z.to_nat i := f x]> l.
Proof.
  unfold array_upd, array_get. case_decide; [|done].
  destruct (l !! Z.to_nat i) as [x|] eqn:Hx; [|done].
  intros [Hi ->]%array_set_inv. split; [done|]. by exists x.
Qed.

Lemma array_upd_Some {A} (l : list A) (i : Z) (f : A -> A) (x : A) :
  0 <= i ->
  l !! Z.to_nat i = Some x ->
  array_upd l i f = Some (<[Z.to_nat i := f x]> l).
Proof.
  intros Hi Hx. unfold array_upd, array_get.
  rewrite decide_True by done. rewrite Hx.
  apply array_set_Some. apply lookup_lt_Some in Hx. lia.
Qed.

Lemma range_loop_fuel (page umax : Z) (fuel : nat) :
  forall (u idx : Z) (descs : list button_descriptor),
    (0 < fuel)%nat ->
    Z.of_nat (length descs) - idx < Z.of_nat fuel ->
    range_loop fuel page umax u descs idx <> OutOfFuel.
Proof.
  induction fuel as [|fuel IH]; intros u idx descs Hpos Hfuel; [lia|].
  simpl. case_decide; [|done].
  destruct (array_upd descs idx _) as [descs'|] eqn:Hupd; [|done].
  apply array_upd_inv in Hupd as (Hidx & x & _ & ->).
  apply IH; rewrite ?length_insert; lia.
Qed.

Lemma button_loop_fuel (button_caps : list HIDP_BUTTON_CAPS) (n : nat) :
  forall (k : nat) (descs : list button_descriptor) (idx : Z),
    button_loop button_caps k n descs idx <> OutOfFuel.
Proof.
  induction n as [|n IH]; intros k descs idx; cbn [button_loop]; [done|].
  destruct (button_caps !! k) as [cap|]; [|done].
  destruct (array_upd descs idx _) as [descs1|] eqn:Hupd; [|done].
  apply array_upd_inv in Hupd as (Hidx & x & _ & ->).
  destruct (bc_usages cap) as [umin umax|usage].
  - match goal with
    | |- context [range_loop ?fuel ?p ?m ?u ?l ?i] =>
        destruct (range_loop fuel p m u l i) as [[descs2 idx2]| |]
          eqn:Hrange
    end; [apply IH|done|].
    exfalso. revert Hrange. apply range_loop_fuel; unfold range_fuel;
      rewrite ?length_insert; lia.
  - destruct (array_upd _ idx _); [apply IH|done].
Qed.

(** The model of the builder never stops for lack of fuel: it returns the
    descriptors or runs into an access outside an array. *)
Lemma build_button_descriptors_fuel (button_caps : list HIDP_BUTTON_CAPS)
    (number : Z) (descs : list button_descriptor) :
  build_button_descriptors button_caps number descs <> OutOfFuel.
Proof. apply button_loop_fuel. Qed.

Lemma value_loop_fuel (value_caps : list HIDP_VALUE_CAPS) (n : nat) :
  forall (k : nat) (descs : list value_descriptor),
    value_loop value_caps k n descs <> OutOfFuel.
Proof.
  induction n as [|n IH]; intros k descs; simpl; [done|].
  destruct (value_caps !! k); [|done].
  destruct (array_set descs _ _); [apply IH|done].
Qed.

(** ** What the range loop writes *)

(** The range loop for the usages [u], ..., [umax] writes one descriptor
    per usage, from element [idx] on, each with its own position as slot
    index, and touches neither the report id of these elements nor any
    other element. *)
Lemma range_loop_spec (page umax : Z) (n : nat) :
  forall (fuel : nat) (u idx : Z) (descs : list button_descriptor),
    0 <= u ->
    umax < 65535 ->
    Z.of_nat n = umax + 1 - u ->
    (n < fuel)%nat ->
    0 <= idx ->
    idx + Z.of_nat n <= Z.of_nat (length descs) ->
    exists descs' : list button_descriptor,
      range_loop fuel page umax u descs idx = Ok (descs', idx + Z.of_nat n)
      /\ length descs' = length descs
      /\ forall k : nat,
           descs' !! k
           = if decide (idx <= Z.of_nat k < idx + Z.of_nat n)
             then bd_set_page_usage_index page
                    (u + (Z.of_nat k - idx)) (Z.of_nat k) <$> descs !! k
             else descs !! k.
Proof.
  induction n as [|n IH]; intros fuel u idx descs Hu Hmax Hn Hfuel Hidx Hlen;
    (destruct fuel as [|fuel]; [lia|]); cbn [range_loop].
  - rewrite decide_False by lia. exists descs.
    split_and!; [f_equal; f_equal; lia|done|].
    intros k. by rewrite decide_False by lia.
  - rewrite decide_True by lia.
    destruct (lookup_lt_is_Some_2 descs (Z.to_nat idx)) as [d Hd]; [lia|].
    rewrite (array_upd_Some _ _ _ d) by done.
    assert (Hwrap : uint16 (u + 1) = u + 1)
      by (unfold uint16; apply Z.mod_small; lia).
    rewrite Hwrap.
    destruct (IH fuel (u + 1) (idx + 1)
                (<[Z.to_nat idx :=
                     bd_set_page_usage_index page u idx d]> descs))
      as (descs' & -> & Hlen' & Hlook);
      [lia|done|lia|lia|lia|rewrite length_insert; lia|].
    exists descs'. rewrite length_insert in Hlen'.
    split_and!; [f_equal; f_equal; lia|done|].
    intros k. rewrite Hlook.
    destruct (decide (Z.of_nat k = idx)) as [Hk|Hk].
    + rewrite decide_False by lia. rewrite decide_True by lia.
      replace k with (Z.to_nat idx) by lia.
      rewrite list_lookup_insert_eq by lia. rewrite Hd. simpl.
      do 2 f_equal; lia.
    + rewrite list_lookup_insert_ne by lia.
      destruct (decide (idx + 1 <= Z.of_nat k
                        < idx + 1 + Z.of_nat n)) as [Hin|Hout].
      * rewrite decide_True by lia.
        destruct (descs !! k); simpl; [|done]. do 2 f_equal; lia.
      * by rewrite decide_False by lia.
Qed.

Lemma button_loop_range_step (button_caps : list HIDP_BUTTON_CAPS)
    (k n : nat) (cap : HIDP_BUTTON_CAPS) (umin umax : Z)
    (descs descs1 descs2 : list button_descriptor) (idx idx2 : Z) :
  button_caps !! k = Some cap ->
  bc_usages cap = Range umin umax ->
  array_upd descs idx (bd_set_report_id (bc_ReportID cap)) = Some descs1 ->
  range_loop (range_fuel descs1) (bc_UsagePage cap) umax umin descs1 idx
    = Ok (descs2, idx2) ->
  button_loop button_caps k (S n) descs idx
  = button_loop button_caps (S k) n descs2 (idx2 + 1).
Proof.
  intros Hcap Hrange Hupd Hloop. cbn [button_loop].
  by rewrite Hcap, Hupd, Hrange, Hloop.
Qed.

Lemma button_loop_single_step (button_caps : list HIDP_BUTTON_CAPS)
    (k n : nat) (cap : HIDP_BUTTON_CAPS) (usage : Z)
    (descs descs1 descs2 : list button_descriptor) (idx : Z) :
  button_caps !! k = Some cap ->
  bc_usages cap = NotRange usage ->
  array_upd descs idx (bd_set_report_id (bc_ReportID cap)) = Some descs1 ->
  array_upd descs1 idx
    (bd_set_page_usage_index (bc_UsagePage cap) usage idx) = Some descs2 ->
  button_loop button_caps k (S n) descs idx
  = button_loop button_caps (S k) n descs2 (idx + 1).
Proof.
  intros Hcap Hsingle Hupd Hupd'. cbn [button_loop].
  by rewrite Hcap, Hupd, Hsingle, Hupd'.
Qed.

(** A usage range followed by a single usage, built on a zeroed array
    with enough room: the range takes the elements 0 to [umax - umin], of
    which only element 0 gets the report id; the next element stays
    zeroed; and the single usage gets the slot index [umax - umin + 2],
    one more than the number of descriptors written before it. *)
Lemma range_then_single_leaves_gap (page report_id umin umax : Z)
    (page' report_id' usage' : Z) (room : nat) :
  0 <= umin <= umax ->
  umax < 65535 ->
  umax - umin + 3 <= Z.of_nat room ->
  exists descs : list button_descriptor,
    build_button_descriptors
      [ {| bc_UsagePage := page; bc_ReportID := report_id;
           bc_usages := Range umin umax |};
        {| bc_UsagePage := page'; bc_ReportID := report_id';
           bc_usages := NotRange usage' |} ]
      2 (replicate room bd_zero)
    = Ok (descs, umax - umin + 3)
    /\ descs !! 0%nat
       = Some {| bd_report_id := report_id; bd_page := page;
                 bd_usage := umin; bd_index := 0 |}
    /\ (forall j : nat,
          0 < Z.of_nat j <= umax - umin ->
          descs !! j
          = Some {| bd_report_id := 0; bd_page := page;
                    bd_usage := umin + Z.of_nat j;
                    bd_index := Z.of_nat j |})
    /\ descs !! Z.to_nat (umax - umin + 1) = Some bd_zero
    /\ descs !! Z.to_nat (umax - umin + 2)
       = Some {| bd_report_id := report_id'; bd_page := page';
                 bd_usage := usage'; bd_index := umax - umin + 2 |}.
Proof.
  intros Hrange Hmax Hroom.
  set (n := Z.to_nat (umax - umin + 1)).
  set (zeros := replicate room bd_zero).
  assert (Hz : forall k : nat, (k < room)%nat -> zeros !! k = Some bd_zero)
    by (intros k Hk; by apply lookup_replicate_2).
  set (descs0 := <[Z.to_nat 0 := bd_set_report_id report_id bd_zero]> zeros).
  assert (Hlen0 : length descs0 = room)
    by (unfold descs0, zeros; by rewrite length_insert, length_replicate).
  destruct (range_loop_spec page umax n (range_fuel descs0) umin 0 descs0)
    as (descs1 & Hloop & Hlen1 & Hlook1);
    [lia|done|lia|unfold range_fuel; lia|lia|lia|].
  assert (Hgap : descs1 !! Z.to_nat (umax - umin + 1) = Some bd_zero).
  { rewrite Hlook1. rewrite decide_False by lia.
    unfold descs0. rewrite list_lookup_insert_ne by lia. apply Hz. lia. }
  assert (Hnext : descs1 !! Z.to_nat (umax - umin + 2) = Some bd_zero).
  { rewrite Hlook1. rewrite decide_False by lia.
    unfold descs0. rewrite list_lookup_insert_ne by lia. apply Hz. lia. }
  set (descs2 := <[Z.to_nat (umax - umin + 2) :=
                     bd_set_report_id report_id' bd_zero]> descs1).
  set (descs3 := <[Z.to_nat (umax - umin + 2) :=
                     bd_set_page_usage_index page' usage'
                       (umax - umin + 2)
                       (bd_set_report_id report_id' bd_zero)]> descs2).
  exists descs3. split.
  { unfold build_button_descriptors. change (Z.to_nat 2) with 2%nat.
    rewrite (button_loop_range_step _ 0 1
               {| bc_UsagePage := page; bc_ReportID := report_id;
                  bc_usages := Range umin umax |}
               umin umax zeros descs0 descs1
               0 (0 + Z.of_nat n)); [|done|done| |done].
    2: { apply array_upd_Some; [lia|]. apply Hz. lia. }
    replace (0 + Z.of_nat n + 1) with (umax - umin + 2) by lia.
    rewrite (button_loop_single_step _ 1 0
               {| bc_UsagePage := page'; bc_ReportID := report_id';
                  bc_usages := NotRange usage' |}
               usage' descs1 descs2 descs3);
      [|done|done| |].
    - simpl. do 2 f_equal. lia.
    - apply array_upd_Some; [lia|done].
    - apply array_upd_Some; [lia|].
      unfold descs2. apply list_lookup_insert_eq. lia. }
  unfold descs3, descs2.
  rewrite list_insert_insert_eq.
  split_and!.
  - rewrite list_lookup_insert_ne by lia.
    rewrite Hlook1. rewrite decide_True by lia.
    unfold descs0. change (Z.to_nat 0) with 0%nat.
    rewrite list_lookup_insert_eq by (unfold zeros;
      rewrite length_replicate; lia).
    simpl. unfold bd_set_page_usage_index. simpl. do 2 f_equal; lia.
  - intros j Hj. rewrite list_lookup_insert_ne by lia.
    rewrite Hlook1. rewrite decide_True by lia.
    unfold descs0. rewrite list_lookup_insert_ne by lia.
    rewrite Hz by lia. simpl. unfold bd_set_page_usage_index. simpl.
    do 2 f_equal; lia.
  - rewrite list_lookup_insert_ne by lia. done.
  - rewrite list_lookup_insert_eq by lia. done.
Qed.

(** ** Selection *)

Lemma select_devices_loop_written (f : rhid_select_func_t)
    (devices : list rhid_device_t) (n : nat) :
  forall (i : nat) (selected : list (option nat)) (c idx : Z)
         (written : list Z) st selected' written',
    select_devices_loop f devices i n selected c idx written
      = Some (st, selected', written') ->
    Forall (fun j => j <= c) written ->
    Forall (fun j => j <= c) written'.
Proof.
  induction n as [|n IH]; intros i selected c idx written st sel' w' Hrun Hw.
  - simpl in Hrun. by simplify_eq.
  - simpl in Hrun. destruct (devices !! i) as [d|]; [|done].
    case_decide as Hmatch.
    + case_decide as Hfull; [by simplify_eq|].
      destruct (array_set selected idx (Some i)) as [sel1|]; [|done].
      eapply IH; [exact Hrun|].
      apply Forall_app; split; [done|]. constructor; [lia|constructor].
    + eauto.
Qed.

(** When every device matches and there is one device more than the
    capacity, the loop assigns an element of [selected] for every device,
    the last one at the index equal to the capacity, and returns 0. *)
Lemma select_devices_loop_all_match (f : rhid_select_func_t)
    (devices : list rhid_device_t) (c : Z) :
  (forall d, d ∈ devices -> f (usage_page d) (usage d) = 1) ->
  Z.of_nat (length devices) <= c + 1 ->
  forall (n i : nat) (selected : list (option nat)) (written : list Z),
    (i + n = length devices)%nat ->
    (length devices <= length selected)%nat ->
    exists selected' : list (option nat),
      select_devices_loop f devices i n selected c (Z.of_nat i) written
      = Some (0, selected', written ++ (Z.of_nat <$> seq i n)).
Proof.
  intros Hall Hc. induction n as [|n IH]; intros i selected written Hn Hsel.
  - exists selected. simpl. by rewrite app_nil_r.
  - cbn [select_devices_loop].
    destruct (lookup_lt_is_Some_2 devices i) as [d Hd]; [lia|].
    rewrite Hd. rewrite decide_True
      by (apply Hall; by eapply list_elem_of_lookup_2).
    rewrite decide_False by lia.
    rewrite array_set_Some by lia.
    replace (Z.of_nat i + 1) with (Z.of_nat (S i)) by lia.
    destruct (IH (S i) (<[Z.to_nat (Z.of_nat i) := Some i]> selected)
                (written ++ [Z.of_nat i]))
      as [selected' ->]; [lia|by rewrite length_insert|].
    exists selected'. simpl. by rewrite <- app_assoc.
Qed.

Lemma select_devices_one_too_many (f : rhid_select_func_t)
    (devices : list rhid_device_t) (selected : list (option nat)) :
  (forall d, d ∈ devices -> f (usage_page d) (usage d) = 1) ->
  (length devices <= length selected)%nat ->
  exists selected' : list (option nat),
    rhid_select_devices devices (Z.of_nat (length devices)) selected
      (Z.of_nat (length devices) - 1) f
    = Some (0, selected', Z.of_nat <$> seq 0 (length devices)).
Proof.
  intros Hall Hsel. unfold rhid_select_devices. rewrite Nat2Z.id.
  destruct (select_devices_loop_all_match f devices
              (Z.of_nat (length devices) - 1) Hall ltac:(lia)
              (length devices) 0%nat selected [])
    as [selected' Hrun]; [lia|done|].
  exists selected'. exact Hrun.
Qed.

(** C4.  With two matching devices and an output capacity of 1 the
    function assigns [selected[0]] and [selected[1]], the second of which is
    beyond the capacity, and returns 0 although there are more matching
    devices than the capacity. *)
Theorem select_devices_writes_past_capacity :
  rhid_select_count [gamepad_enumerated; gamepad_enumerated] 2 is_joystick
    = Some 2
  /\ rhid_select_devices [gamepad_enumerated; gamepad_enumerated] 2
       [None; None] 1 is_joystick
     = Some (0, [Some 0%nat; Some 1%nat], [0; 1]).
Proof. split; reflexivity. Qed.

(** ** Enumeration: too many capabilities *)

(** A device is skipped for too many capabilities only on its raw
    capability counts. *)
Lemma too_many_capabilities_raw_counts (max_buttons max_values : Z)
    (io : device_io) (c c' : gcache) (d : rhid_device_t) :
  device_step max_buttons max_values io c
    = Continue TooManyCapabilities c' d ->
  NumberInputButtonCaps (snd (io_caps io)) > max_buttons
  \/ NumberInputValueCaps (snd (io_caps io)) > max_values.
Proof.
  assert (Hfin : forall caps c0 d0,
    finish_device io caps c0 d0 <> Continue TooManyCapabilities c' d)
    by done.
  assert (Hval : forall caps c0 d0,
    value_caps_stage max_values io caps c0 d0
      = Continue TooManyCapabilities c' d ->
    NumberInputValueCaps caps > max_values).
  { intros caps c0 d0. unfold value_caps_stage.
    destruct (io_value_caps io) as [ret tbl].
    repeat case_decide; try done; try (intros E; by apply Hfin in E).
    all: destruct (build_value_descriptors _ _ _); try done.
    all: intros E; by apply Hfin in E. }
  assert (Hbtn : forall caps c0 d0,
    button_caps_stage max_buttons max_values io caps c0 d0
      = Continue TooManyCapabilities c' d ->
    NumberInputButtonCaps caps > max_buttons
    \/ NumberInputValueCaps caps > max_values).
  { intros caps c0 d0. unfold button_caps_stage.
    destruct (io_button_caps io) as [ret tbl].
    repeat case_decide; eauto.
    destruct (build_button_descriptors _ _ _) as [[descs idx]| |]; eauto;
      done. }
  assert (Hopen : forall c0 d0,
    opened_device_stage max_buttons max_values io c0 d0
      = Continue TooManyCapabilities c' d ->
    NumberInputButtonCaps (snd (io_caps io)) > max_buttons
    \/ NumberInputValueCaps (snd (io_caps io)) > max_values).
  { intros c0 d0. unfold opened_device_stage.
    destruct (io_preparsed io); [|done].
    destruct (io_caps io) as [ret caps]. case_decide; [done|]. simpl.
    eauto. }
  assert (Hpath : forall c0 d0,
    path_and_handle_stage max_buttons max_values io c0 d0
      = Continue TooManyCapabilities c' d ->
    NumberInputButtonCaps (snd (io_caps io)) > max_buttons
    \/ NumberInputValueCaps (snd (io_caps io)) > max_values).
  { intros c0 d0. unfold path_and_handle_stage.
    destruct (io_detail io) as [p|]; [|done].
    destruct (copy_device_path p); [|done].
    repeat case_decide; eauto; done. }
  unfold device_step.
  destruct (io_enum io) as [[] err]; [|by case_decide].
  destruct (io_detail_size io) as [[] err']; eauto.
  case_decide; [done|eauto].
Qed.

(** C2.  A device with one raw button capability, a usage range 1..5, and
    room for 4 button descriptors: the raw count 1 passes the check against
    the maximum, the device is not skipped, and the fifth descriptor is
    written past the end of the descriptor array. *)
Theorem expanded_button_count_not_checked :
  device_step 4 4
    (sample_io 11 11 (Some 77) HIDP_STATUS_SUCCESS
       [ {| bc_UsagePage := 9; bc_ReportID := 1; bc_usages := Range 1 5 |} ]
       1)
    gcache_zero
  = IterUndefined.
Proof. reflexivity. Qed.

(** ** Polling *)

Lemma start_read_fields (io : poll_io) (device : rhid_device_t)
    (buffer : list Z) (now report_id : Z) (events : list io_event)
    r device' events' :
  start_read io device buffer now report_id events
    = Some (r, device', events') ->
  buttons device' = buttons device /\ values device' = values device.
Proof.
  unfold start_read.
  destruct (array_set buffer 0 report_id); [|done].
  destruct (io_read_file io) as [[] err]; repeat case_decide;
    intros [= <- <- <-]; done.
Qed.

(** Polling touches neither the button nor the value array. *)
Lemma rhid_read_report_fields (io : poll_io) (device : rhid_device_t)
    (report_id : Z) r device' events :
  rhid_read_report io device report_id = Some (r, device', events) ->
  buttons device' = buttons device /\ values device' = values device.
Proof.
  unfold rhid_read_report.
  destruct (native device) as [state|]; [|done].
  destruct (report device) as [buffer|]; [|done].
  repeat case_decide.
  - intros Hs%start_read_fields. done.
  - intros [= <- <- <-]. done.
  - intros Hs%start_read_fields. done.
Qed.

(** C3, as the code has it.  On a device with no read in flight,
    [rhid_read_report] writes [report_id] into the first byte of the report
    buffer and calls [ReadFile] once, for [report_size] bytes of that
    buffer.  When the read is started, at once or queued, [is_reading]
    becomes 1 and the call returns 1, report available; when it is not
    started, [is_reading] stays 0 and the call returns 0.  A second call
    made while the started read has not delivered [report_size] bytes
    returns 0 and makes no further [ReadFile] call. *)
Theorem idle_poll_starts_one_read (io : poll_io) (device : rhid_device_t)
    (report_id : Z) (state : rhid_native_t) (buffer : list Z) :
  native device = Some state ->
  is_reading state = 0 ->
  report device = Some buffer ->
  buffer <> [] ->
  let buffer1 := <[0%nat := report_id]> buffer in
  let device1 :=
    set_report (Some (store_bytes (io_read_data io) buffer1)) device in
  let reading := set_is_reading 1 device1 in
  buffer1 !! 0%nat = Some report_id
  /\ (read_started io ->
      rhid_read_report io device report_id
      = Some (1, reading, [EvReadFile buffer1 (report_size device)]))
  /\ (~ read_started io ->
      rhid_read_report io device report_id
      = Some (0, device1, [EvReadFile buffer1 (report_size device)])
      /\ native device1 = Some state)
  /\ (forall io2 : poll_io,
        io_overlapped_bytes_read io2 < report_size device ->
        exists device2,
          rhid_read_report io2 reading report_id
          = Some (0, device2, [EvGetOverlappedResult])
          /\ native device2 = Some {| is_reading := 1 |}).
Proof.
  intros Hnat Hidle Hrep Hne buffer1 device1 reading.
  assert (Hset : array_set buffer 0 report_id = Some buffer1).
  { apply array_set_Some. destruct buffer; [done|]. simpl. lia. }
  assert (Hstart : rhid_read_report io device report_id
            = start_read io device buffer 0 report_id []).
  { unfold rhid_read_report. rewrite Hnat, Hrep, Hidle.
    by rewrite decide_False by lia. }
  split_and!.
  - subst buffer1. destruct buffer; done.
  - intros Hst. rewrite Hstart. unfold start_read. rewrite Hset.
    unfold read_started in Hst.
    destruct (io_read_file io) as [[] err]; simpl.
    + done.
    + rewrite decide_False by (intros ?; done). done.
  - intros Hst. rewrite Hstart. unfold start_read. rewrite Hset.
    unfold read_started in Hst.
    destruct (io_read_file io) as [[] err]; simpl.
    + done.
    + rewrite decide_True by done. done.
  - intros io2 Hbytes. eexists. unfold rhid_read_report. simpl.
    rewrite decide_False by lia. done.
Qed.

Lemma idle_poll_starts_one_read_witness :
  rhid_read_report read_queued gamepad 1
  = Some (1,
          set_is_reading 1 (set_report (Some [1; 0; 0]) gamepad),
          [EvReadFile [1; 0; 0] 3]).
Proof.
  refine (proj1 (proj2
    (idle_poll_starts_one_read read_queued gamepad 1
       {| is_reading := 0 |} [1; 0; 0] _ _ _ _)) _).
  - vm_compute; reflexivity.
  - reflexivity.
  - vm_compute; reflexivity.
  - discriminate.
  - vm_compute; reflexivity.
Defined.

(** C3, counterexample.  The device of the scenario, just opened, has no
    read in flight; its first poll queues the read and returns 1, not 0,
    and the next poll, made before any byte has arrived, returns 0: the
    two calls return 1 and 0, not 0 and 0. *)
Lemma idle_poll_returns_available :
  native gamepad = Some {| is_reading := 0 |}
  /\ rhid_read_report read_queued gamepad 1
     = Some (1, set_is_reading 1 (set_report (Some [1; 0; 0]) gamepad),
             [EvReadFile [1; 0; 0] 3])
  /\ rhid_read_report read_queued
       (set_is_reading 1 (set_report (Some [1; 0; 0]) gamepad)) 1
     = Some (0, set_is_reading 1 (set_report (Some [1; 0; 0]) gamepad),
             [EvGetOverlappedResult]).
Proof. split_and!; vm_compute; reflexivity. Qed.

(** ** Decoding: the button phase *)

Lemma find_button_defined (descs : list button_descriptor) (page usage : Z)
    (n : nat) :
  forall i : nat,
    (i + n <= length descs)%nat ->
    is_Some (find_button descs page usage i n).
Proof.
  induction n as [|n IH]; intros i Hlen; simpl; [by eexists|].
  destruct (lookup_lt_is_Some_2 descs i) as [d Hd]; [lia|].
  rewrite Hd. case_decide; [by eexists|]. apply IH. lia.
Qed.

Lemma find_button_found (descs : list button_descriptor) (page usage : Z)
    (n : nat) :
  forall (i : nat) (index : Z),
    find_button descs page usage i n = Some (Some index) ->
    exists (k : nat) (bd : button_descriptor),
      (i <= k < i + n)%nat /\ descs !! k = Some bd
      /\ bd_page bd = page /\ bd_usage bd = usage /\ bd_index bd = index.
Proof.
  induction n as [|n IH]; intros i index; simpl; [done|].
  destruct (descs !! i) as [d|] eqn:Hd; [|done].
  case_decide as Hm.
  - intros [= <-]. exists i, d. destruct Hm. split_and!; [lia|lia|done..].
  - intros (k & bd & Hk & Hrest)%IH. exists k, bd. split; [lia|done].
Qed.

Lemma set_slots_length (slots : list Z) :
  forall b : list Z, length (set_slots slots b) = length b.
Proof.
  induction slots as [|s slots IH]; intros b; [done|].
  unfold set_slots in *. simpl. rewrite IH. apply length_insert.
Qed.

(** A slot that was assigned holds 1, every other element is as before. *)
Lemma set_slots_lookup (slots : list Z) :
  forall (b : list Z) (j : nat),
    Forall (fun s => 0 <= s < Z.of_nat (length b)) slots ->
    set_slots slots b !! j
    = if decide (Z.of_nat j ∈ slots) then Some 1 else b !! j.
Proof.
  induction slots as [|s slots IH]; intros b j Hall.
  - unfold set_slots. simpl foldl.
    rewrite decide_False; [done|apply not_elem_of_nil].
  - apply Forall_cons in Hall as [Hs Hall].
    change (set_slots (s :: slots) b)
      with (set_slots slots (<[Z.to_nat s := 1]> b)).
    rewrite IH by (by rewrite length_insert).
    destruct (decide (Z.of_nat j ∈ slots)) as [Hin|Hnin].
    + rewrite decide_True; [done|]. by apply elem_of_cons; right.
    + destruct (decide (Z.of_nat j = s)) as [<-|Hne].
      * rewrite decide_True by (apply elem_of_cons; by left).
        rewrite Nat2Z.id. apply list_lookup_insert_eq. lia.
      * rewrite decide_False.
        -- apply list_lookup_insert_ne. lia.
        -- intros [?|?]%elem_of_cons; done.
Qed.

Lemma mark_buttons_inv (descs : list button_descriptor) (button_count : Z)
    (active : list (Z * Z)) :
  forall b b' : list Z,
    mark_buttons descs button_count active b = Some b' ->
    exists slots : list Z,
      active_slots descs button_count active = Some slots
      /\ Forall (fun s => 0 <= s < Z.of_nat (length b)) slots
      /\ b' = set_slots slots b.
Proof.
  induction active as [|[page usage] active IH]; intros b b'; simpl.
  - intros [= <-]. exists []. done.
  - destruct (find_button descs page usage 0 (Z.to_nat button_count))
      as [[index|]|]; [| |done].
    + destruct (array_set b index 1) as [b1|] eqn:Hset; [|done].
      apply array_set_inv in Hset as [Hin ->].
      intros (slots & -> & Hall & ->)%IH.
      rewrite length_insert in Hall.
      exists (index :: slots). split_and!; [done| |done].
      by constructor.
    + apply IH.
Qed.

Lemma mark_buttons_intro (descs : list button_descriptor) (button_count : Z)
    (active : list (Z * Z)) :
  forall (b : list Z) (slots : list Z),
    active_slots descs button_count active = Some slots ->
    Forall (fun s => 0 <= s < Z.of_nat (length b)) slots ->
    mark_buttons descs button_count active b = Some (set_slots slots b).
Proof.
  induction active as [|[page usage] active IH]; intros b slots; simpl.
  - intros [= <-]. done.
  - destruct (find_button descs page usage 0 (Z.to_nat button_count))
      as [[index|]|]; [| |done].
    + destruct (active_slots descs button_count active) as [slots'|];
        [|done].
      intros [= <-] [Hin Hall]%Forall_cons.
      rewrite array_set_Some by done.
      rewrite (IH _ slots') by (by rewrite ?length_insert).
      done.
    + apply IH.
Qed.

(** The slot of every active pair that has a descriptor is among the
    assigned slots. *)
Lemma active_slots_elem (descs : list button_descriptor) (button_count : Z)
    (active : list (Z * Z)) :
  forall (slots : list Z) (page usage index : Z),
    active_slots descs button_count active = Some slots ->
    (page, usage) ∈ active ->
    find_button descs page usage 0 (Z.to_nat button_count)
      = Some (Some index) ->
    index ∈ slots.
Proof.
  induction active as [|[p u] active IH]; intros slots page usage index;
    simpl.
  - intros _ Hin. by apply elem_of_nil in Hin.
  - intros Hslots [Heq|Hin]%elem_of_cons Hfind.
    + injection Heq as <- <-. rewrite Hfind in Hslots.
      destruct (active_slots descs button_count active); [|done].
      injection Hslots as <-. by left.
    + destruct (find_button descs p u 0 (Z.to_nat button_count))
        as [[i0|]|]; [| |done].
      * destruct (active_slots descs button_count active) as [sl|] eqn:E;
          [|done].
        injection Hslots as <-. right. eapply IH; eauto.
      * eapply IH; eauto.
Qed.

Lemma active_slots_ready (descs : list button_descriptor)
    (button_count bound : Z) (active : list (Z * Z)) :
  0 <= button_count <= Z.of_nat (length descs) ->
  (forall (i : nat) (bd : button_descriptor),
     Z.of_nat i < button_count -> descs !! i = Some bd ->
     0 <= bd_index bd < bound) ->
  exists slots : list Z,
    active_slots descs button_count active = Some slots
    /\ Forall (fun s => 0 <= s < bound) slots.
Proof.
  intros Hcount Hidx.
  induction active as [|[page usage] active (slots & Hslots & Hall)]; simpl.
  - exists []. done.
  - destruct (find_button_defined descs page usage (Z.to_nat button_count) 0)
      as [[index|] Hfind]; [lia| |]; rewrite Hfind, Hslots.
    + exists (index :: slots). split; [done|]. constructor; [|done].
      apply find_button_found in Hfind as (k & bd & Hk & Hbd & _ & _ & <-).
      eapply Hidx; [|done]. lia.
    + exists slots. done.
Qed.

Lemma clear_buttons_spec (b b0 : list Z) (n : Z) :
  clear_buttons b n = Some b0 ->
  length b0 = length b
  /\ forall j : nat,
       b0 !! j = if decide (Z.of_nat j < n) then Some 0 else b !! j.
Proof.
  unfold clear_buttons. case_decide as Hn; [|done]. intros [= <-].
  split.
  - rewrite length_app, length_replicate, length_drop. lia.
  - intros j. case_decide as Hj.
    + rewrite lookup_app_l by (rewrite length_replicate; lia).
      apply lookup_replicate_2. lia.
    + rewrite lookup_app_r by (rewrite length_replicate; lia).
      rewrite length_replicate, lookup_drop. f_equal. lia.
Qed.

(** ** Decoding: the value phase *)

Lemma value_phase_ext (driver : hid_driver) (d d' : rhid_device_t)
    (buffer : list Z) (n : nat) :
  value_descriptors d = value_descriptors d' ->
  report_size d = report_size d' ->
  forall (i : nat) (vals : list Z),
    value_phase driver d buffer i n vals
    = value_phase driver d' buffer i n vals.
Proof.
  intros Hd Hs. induction n as [|n IH]; intros i vals; simpl; [done|].
  rewrite Hd, Hs.
  destruct (value_descriptors d' !! i) as [vd|]; [|done].
  destruct (vals !! i); [|done].
  destruct (HidP_GetUsageValue _ _ _ _ _ _) as [ret stored].
  apply IH.
Qed.

Lemma value_phase_defined (driver : hid_driver) (d : rhid_device_t)
    (buffer : list Z) (n : nat) :
  forall (i : nat) (vals : list Z),
    (i + n <= length (value_descriptors d))%nat ->
    (i + n <= length vals)%nat ->
    is_Some (value_phase driver d buffer i n vals).
Proof.
  induction n as [|n IH]; intros i vals Hd Hv; simpl; [by eexists|].
  destruct (lookup_lt_is_Some_2 (value_descriptors d) i) as [vd ->]; [lia|].
  destruct (lookup_lt_is_Some_2 vals i) as [old ->]; [lia|].
  destruct (HidP_GetUsageValue _ _ _ _ _ _) as [ret [v|]];
    apply IH; rewrite ?length_insert; lia.
Qed.

Lemma value_phase_spec (driver : hid_driver) (d : rhid_device_t)
    (buffer : list Z) (n : nat) :
  forall (i : nat) (vals vals' : list Z),
    value_phase driver d buffer i n vals = Some vals' ->
    length vals' = length vals
    /\ (forall j : nat,
          (j < i \/ i + n <= j)%nat -> vals' !! j = vals !! j)
    /\ (forall (j : nat) (vd : value_descriptor) (old : Z),
          (i <= j < i + n)%nat ->
          value_descriptors d !! j = Some vd ->
          vals !! j = Some old ->
          vals' !! j = Some (value_after driver d buffer vd old)).
Proof.
  induction n as [|n IH]; intros i vals vals'; simpl.
  - intros [= <-]. split_and!; [done|done|]. intros; lia.
  - destruct (value_descriptors d !! i) as [vd|] eqn:Hvd; [|done].
    destruct (vals !! i) as [old|] eqn:Hold; [|done].
    destruct (HidP_GetUsageValue driver (vd_page vd) 0 (vd_usage vd)
                buffer (report_size d)) as [ret [v|]] eqn:Hq;
      intros (Hlen & Hout & Hin)%IH.
    + rewrite length_insert in Hlen. split_and!; [done| |].
      * intros j Hj. rewrite Hout by lia.
        apply list_lookup_insert_ne. lia.
      * intros j vd' old' Hj Hvd' Hold'.
        destruct (decide (j = i)) as [->|Hne].
        -- rewrite Hout by lia. simplify_eq.
           unfold value_after. rewrite Hq. simpl.
           apply list_lookup_insert_eq. by eapply lookup_lt_Some.
        -- apply Hin; [lia|done|].
           by rewrite list_lookup_insert_ne by lia.
    + split_and!; [done| |].
      * intros j Hj. apply Hout. lia.
      * intros j vd' old' Hj Hvd' Hold'.
        destruct (decide (j = i)) as [->|Hne].
        -- rewrite Hout by lia. simplify_eq.
           unfold value_after. by rewrite Hq.
        -- apply Hin; [lia|done|done].
Qed.

Lemma value_phase_idem (driver : hid_driver) (d : rhid_device_t)
    (buffer : list Z) (n : nat) :
  forall (i : nat) (vals vals' : list Z),
    value_phase driver d buffer i n vals = Some vals' ->
    value_phase driver d buffer i n vals' = Some vals'.
Proof.
  induction n as [|n IH]; intros i vals vals'; simpl; [done|].
  destruct (value_descriptors d !! i) as [vd|] eqn:Hvd; [|done].
  destruct (vals !! i) as [old|] eqn:Hold; [|done].
  destruct (HidP_GetUsageValue driver (vd_page vd) 0 (vd_usage vd)
              buffer (report_size d)) as [ret [v|]] eqn:Hq;
    intros Hrun.
  - destruct (value_phase_spec _ _ _ _ _ _ _ Hrun) as (_ & Hout & _).
    rewrite Hout by lia.
    rewrite list_lookup_insert_eq by (by eapply lookup_lt_Some).
    assert (Hi : vals' !! i = Some v).
    { rewrite Hout by lia.
      apply list_lookup_insert_eq. by eapply lookup_lt_Some. }
    rewrite (list_insert_id _ _ _ Hi). eauto.
  - destruct (value_phase_spec _ _ _ _ _ _ _ Hrun) as (_ & Hout & _).
    rewrite Hout, Hold by lia. eauto.
Qed.

(** ** Decoding: one cycle *)

Lemma store_bytes_length (data : option (list Z)) (buffer : list Z) :
  length (store_bytes data buffer) = length buffer.
Proof.
  destruct data as [bytes|]; simpl; [|done].
  rewrite length_app, length_take, length_drop. lia.
Qed.

(** On a device with its buffers allocated polling always returns. *)
Lemma rhid_read_report_defined (io : poll_io) (device : rhid_device_t)
    (report_id : Z) (state : rhid_native_t) (buffer : list Z) :
  native device = Some state ->
  report device = Some buffer ->
  buffer <> [] ->
  exists r device' events,
    rhid_read_report io device report_id = Some (r, device', events).
Proof.
  intros Hnat Hrep Hne.
  assert (Hstart : forall dev buf now ev,
    buf <> [] -> exists r device' events,
      start_read io dev buf now report_id ev = Some (r, device', events)).
  { intros dev buf now ev Hbuf. unfold start_read.
    rewrite array_set_Some by (destruct buf; [done|simpl; lia]).
    destruct (io_read_file io) as [[] err]; repeat case_decide; eauto. }
  assert (Hstore : store_bytes (io_arrived io) buffer <> []).
  { intros Hnil. apply (f_equal length) in Hnil.
    rewrite store_bytes_length in Hnil. by destruct buffer. }
  unfold rhid_read_report. rewrite Hnat, Hrep.
  repeat case_decide; eauto.
Qed.

(** C6.  In a decode cycle on an open device, polling leaves the button
    and value arrays as they were, and when the report is available and
    the active-usage query fails on it, [rhid_report] returns -1 with the
    device as polling left it: no button slot is modified, so a slot that
    held 1 before the cycle holds 1 after it. *)
Theorem usage_query_failure_keeps_buttons (driver : hid_driver)
    (io : poll_io) (device : rhid_device_t) (report_id : Z)
    (state : rhid_native_t) (buffer : list Z) :
  handle device <> NULL ->
  is_open device <> 0 ->
  native device = Some state ->
  report device = Some buffer ->
  buffer <> [] ->
  exists (report_avaliable : Z) (device1 : rhid_device_t)
         (events : list io_event),
    rhid_read_report io device report_id
      = Some (report_avaliable, device1, events)
    /\ buttons device1 = buttons device
    /\ values device1 = values device
    /\ forall buffer1 : list Z,
         report_avaliable <> 0 ->
         report device1 = Some buffer1 ->
         fst (HidP_GetUsagesEx driver (_preparsed device1) buffer1
                (report_size device1)) <> HIDP_STATUS_SUCCESS ->
         rhid_report driver io device report_id = Some (-1, device1, events)
         /\ forall (b : list Z) (slot : nat),
              buttons device = Some b -> b !! slot = Some 1 ->
              exists b' : list Z,
                buttons device1 = Some b' /\ b' !! slot = Some 1.
Proof.
  intros Hhandle Hopen Hnat Hrep Hne.
  destruct (rhid_read_report_defined io device report_id state buffer)
    as (avail & device1 & events & Hpoll); [done..|].
  destruct (rhid_read_report_fields _ _ _ _ _ _ Hpoll) as [Hb Hv].
  exists avail, device1, events. split_and!; [done..|].
  intros buffer1 Havail Hrep1 Hfail. split.
  - unfold rhid_report. rewrite decide_False by (intros [?|?]; done).
    rewrite Hpoll. unfold decode_report.
    rewrite decide_True by done. rewrite Hrep1.
    destruct (HidP_GetUsagesEx _ _ _ _) as [ret active]. simpl in Hfail.
    by rewrite decide_True.
  - intros b slot Hbtn Hslot. exists b. by rewrite Hb.
Qed.

Lemma usage_query_failure_keeps_buttons_witness :
  exists (report_avaliable : Z) (device1 : rhid_device_t)
         (events : list io_event),
    rhid_read_report (read_completed [1; 255; 0]) gamepad_cycle_1 1
      = Some (report_avaliable, device1, events)
    /\ buttons device1 = buttons gamepad_cycle_1
    /\ values device1 = values gamepad_cycle_1
    /\ forall buffer1 : list Z,
         report_avaliable <> 0 ->
         report device1 = Some buffer1 ->
         fst (HidP_GetUsagesEx sample_driver (_preparsed device1) buffer1
                (report_size device1)) <> HIDP_STATUS_SUCCESS ->
         rhid_report sample_driver (read_completed [1; 255; 0])
           gamepad_cycle_1 1 = Some (-1, device1, events)
         /\ forall (b : list Z) (slot : nat),
              buttons gamepad_cycle_1 = Some b -> b !! slot = Some 1 ->
              exists b' : list Z,
                buttons device1 = Some b' /\ b' !! slot = Some 1.
Proof.
  refine (usage_query_failure_keeps_buttons sample_driver
            (read_completed [1; 255; 0]) gamepad_cycle_1 1
            {| is_reading := 1 |} [1; 0; 0] _ _ _ _ _).
  - vm_compute; discriminate.
  - vm_compute; discriminate.
  - vm_compute; reflexivity.
  - vm_compute; reflexivity.
  - discriminate.
Defined.

(** The failing cycle of the witness, evaluated: the buttons set in the
    first cycle are kept in the second. *)
Example failing_cycle_keeps_snapshot :
  buttons gamepad_cycle_1 = Some [0; 1; 0; 1]
  /\ match rhid_report sample_driver (read_completed [1; 255; 0])
             gamepad_cycle_1 1 with
     | Some (status, d, _) =>
         status = -1 /\ buttons d = Some [0; 1; 0; 1]
         /\ values d = Some [127]
     | None => False
     end.
Proof. vm_compute. split_and!; reflexivity. Qed.

(** C5, as the code has it.  In a decode cycle with a report available on
    a device whose arrays the loops stay inside: when the active-usage
    query fails, the call returns -1 with the device unchanged, so the
    value phase does not run; when it succeeds, the call returns 0 whatever
    the value queries answer, and the value phase has made the query of
    every value descriptor on the slot of that descriptor: the slot holds
    what the query has stored there, and its previous value when the query
    has stored nothing.  The status of a value query plays no part: the
    code neither restores nor clears the slot of a failed query, which
    keeps its previous value exactly when the driver has not written to
    it. *)
Theorem value_phase_runs_after_button_success (driver : hid_driver)
    (report_avaliable : Z) (device : rhid_device_t)
    (buffer btns vals : list Z) :
  report_avaliable <> 0 ->
  decode_ready device buffer btns vals ->
  (fst (HidP_GetUsagesEx driver (_preparsed device) buffer
          (report_size device)) <> HIDP_STATUS_SUCCESS ->
   decode_report driver report_avaliable device = Some (-1, device))
  /\ (fst (HidP_GetUsagesEx driver (_preparsed device) buffer
             (report_size device)) = HIDP_STATUS_SUCCESS ->
      exists (device1 : rhid_device_t) (vals1 : list Z),
        decode_report driver report_avaliable device = Some (0, device1)
        /\ values device1 = Some vals1
        /\ length vals1 = length vals
        /\ (forall (j : nat) (vd : value_descriptor) (old ret : Z)
                   (stored : option Z),
              Z.of_nat j < value_count device ->
              value_descriptors device !! j = Some vd ->
              vals !! j = Some old ->
              HidP_GetUsageValue driver (vd_page vd) 0 (vd_usage vd) buffer
                (report_size device) = (ret, stored) ->
              vals1 !! j
              = Some match stored with
                     | Some v => v
                     | None => old
                     end)
        /\ (forall j : nat,
              value_count device <= Z.of_nat j -> vals1 !! j = vals !! j)).
Proof.
  intros Havail [Hrep Hbtn Hval Hbc Hbd Hidx Hvc Hvd].
  unfold decode_report. rewrite decide_True by done. rewrite Hrep.
  destruct (HidP_GetUsagesEx _ _ _ _) as [ret active]. simpl.
  split; intros Hret.
  - by rewrite decide_True.
  - rewrite decide_False by (intros ?; done). rewrite Hbtn, Hval.
    destruct (clear_buttons btns (button_count device)) as [b0|] eqn:Hclr;
      [|unfold clear_buttons in Hclr; by rewrite decide_True in Hclr].
    destruct (clear_buttons_spec _ _ _ Hclr) as [Hlen0 _].
    destruct (active_slots_ready (button_descriptors device)
                (button_count device) (Z.of_nat (length b0)) active)
      as (slots & Hslots & Hall); [lia|by rewrite Hlen0|].
    rewrite (mark_buttons_intro _ _ _ _ _ Hslots Hall).
    destruct (value_phase_defined driver device buffer
                (Z.to_nat (value_count device)) 0 vals)
      as [vals1 Hrun]; [lia..|].
    rewrite Hrun. eexists _, vals1.
    destruct (value_phase_spec _ _ _ _ _ _ _ Hrun) as (Hlen & Hout & Hin).
    split_and!; [done|done|done| |].
    + intros j vd old ret' stored Hj Hdesc Hold Hq.
      rewrite (Hin j vd old) by (done || lia).
      unfold value_after. by rewrite Hq.
    + intros j Hj. apply Hout. lia.
Qed.

(** The scenario's device, whatever its report buffer holds, keeps the
    decoding loops inside its arrays. *)
Lemma gamepad_ready (buffer : list Z) :
  decode_ready (set_report (Some buffer) gamepad) buffer [0; 0; 0; 0] [0].
Proof.
  split; try (vm_compute; first [reflexivity | split; discriminate
                                | discriminate]).
  intros i bd Hi Hbd.
  change (button_count (set_report (Some buffer) gamepad)) with 4 in Hi.
  destruct i as [|[|[|[|i]]]]; [..|lia];
    vm_compute in Hbd; injection Hbd as <-; vm_compute;
    (split; [discriminate|reflexivity]).
Defined.

Lemma value_phase_runs_after_button_success_witness :
  (fst (HidP_GetUsagesEx sample_driver (_preparsed gamepad) [1; 0; 0]
          (report_size gamepad)) <> HIDP_STATUS_SUCCESS ->
   decode_report sample_driver 1 gamepad = Some (-1, gamepad))
  /\ (fst (HidP_GetUsagesEx sample_driver (_preparsed gamepad) [1; 0; 0]
             (report_size gamepad)) = HIDP_STATUS_SUCCESS ->
      exists (device1 : rhid_device_t) (vals1 : list Z),
        decode_report sample_driver 1 gamepad = Some (0, device1)
        /\ values device1 = Some vals1
        /\ length vals1 = length [0]
        /\ (forall (j : nat) (vd : value_descriptor) (old ret : Z)
                   (stored : option Z),
              Z.of_nat j < value_count gamepad ->
              value_descriptors gamepad !! j = Some vd ->
              [0] !! j = Some old ->
              HidP_GetUsageValue sample_driver (vd_page vd) 0 (vd_usage vd)
                [1; 0; 0] (report_size gamepad) = (ret, stored) ->
              vals1 !! j
              = Some match stored with
                     | Some v => v
                     | None => old
                     end)
        /\ (forall j : nat,
              value_count gamepad <= Z.of_nat j -> vals1 !! j = [0] !! j)).
Proof.
  refine (value_phase_runs_after_button_success sample_driver 1 gamepad
            [1; 0; 0] [0; 0; 0; 0] [0] _ _).
  - discriminate.
  - exact (gamepad_ready [1; 0; 0]).
Defined.

(** C5, counterexample.  The scenario's device holds a fresh report on
    which the active-usage query fails while the value query for usage 0x30
    succeeds and stores 127: [rhid_report]'s decoding returns -1 and the
    value slot keeps its 0 instead of being filled with 127. *)
Lemma value_phase_skipped_on_usage_failure :
  HidP_GetUsageValue sample_driver 1 0 0x30 [1; 255; 0] 3
    = (HIDP_STATUS_SUCCESS, Some 127)
  /\ values gamepad_bad_report = Some [0]
  /\ decode_report sample_driver 1 gamepad_bad_report
     = Some (-1, gamepad_bad_report).
Proof. split_and!; vm_compute; reflexivity. Qed.

(** A value query that fails and stores a value all the same: the decoding
    returns 0 and the slot, which held 127, holds what the failed query
    has stored. *)
Example failed_value_query_can_change_slot :
  values gamepad_cycle_1 = Some [127]
  /\ HidP_GetUsageValue clearing_driver 1 0 0x30 [1; 0; 0] 3
     = (HIDP_STATUS_USAGE_NOT_FOUND, Some 0)
  /\ match decode_report clearing_driver 1 gamepad_cycle_1 with
     | Some (status, d) => status = 0 /\ values d = Some [0]
     | None => False
     end.
Proof. vm_compute. split_and!; reflexivity. Qed.

(** C7.  Decoding the same report twice, with the same driver, gives the
    same result twice: on a device whose arrays the loops stay inside, the
    decoding of an available report returns, and decoding again the device
    it leaves returns the same status and leaves that same device, buttons
    and values included.  After a successful decoding the slot of every
    active (page, usage) pair that has a descriptor holds 1, however many
    pairs lead to the same slot. *)
Theorem decode_idempotent (driver : hid_driver) (report_avaliable : Z)
    (device : rhid_device_t) (buffer btns vals : list Z) :
  report_avaliable <> 0 ->
  decode_ready device buffer btns vals ->
  exists (status : Z) (device1 : rhid_device_t),
    decode_report driver report_avaliable device = Some (status, device1)
    /\ decode_report driver report_avaliable device1
       = Some (status, device1)
    /\ (status = 0 ->
        exists btns1 : list Z,
          buttons device1 = Some btns1
          /\ forall page usage index : Z,
               (page, usage)
                 ∈ snd (HidP_GetUsagesEx driver (_preparsed device) buffer
                          (report_size device)) ->
               find_button (button_descriptors device) page usage 0
                 (Z.to_nat (button_count device)) = Some (Some index) ->
               btns1 !! Z.to_nat index = Some 1).
Proof.
  intros Havail [Hrep Hbtn Hval Hbc Hbd Hidx Hvc Hvd].
  unfold decode_report. rewrite decide_True by done. rewrite Hrep.
  destruct (HidP_GetUsagesEx driver (_preparsed device) buffer
              (report_size device)) as [ret active] eqn:Hq.
  simpl. case_decide as Hret.
  { exists (-1), device. rewrite decide_True by done.
    rewrite Hrep, Hq. rewrite decide_True by done.
    split_and!; [done|done|]. intros [=]. }
  rewrite Hbtn, Hval.
  destruct (clear_buttons btns (button_count device)) as [b0|] eqn:Hclr;
    [|unfold clear_buttons in Hclr; by rewrite decide_True in Hclr].
  destruct (clear_buttons_spec _ _ _ Hclr) as [Hlen0 Hb0].
  destruct (active_slots_ready (button_descriptors device)
              (button_count device) (Z.of_nat (length b0)) active)
    as (slots & Hslots & Hall); [lia|by rewrite Hlen0|].
  rewrite (mark_buttons_intro _ _ _ _ _ Hslots Hall).
  destruct (value_phase_defined driver device buffer
              (Z.to_nat (value_count device)) 0 vals)
    as [vals1 Hrun]; [lia..|].
  rewrite Hrun.
  set (btns1 := set_slots slots b0).
  assert (Hlen1 : length btns1 = length btns)
    by (unfold btns1; by rewrite set_slots_length).
  eexists 0, _. split; [done|]. split.
  - rewrite decide_True by done. simpl.
    rewrite Hrep, Hq. case_decide; [by destruct Hret|].
    destruct (clear_buttons btns1 (button_count device)) as [b0'|] eqn:Hclr';
      [|unfold clear_buttons in Hclr'; rewrite decide_True in Hclr'; [done|lia]].
    destruct (clear_buttons_spec _ _ _ Hclr') as [Hlen0' Hb0'].
    assert (Hall' : Forall (fun s => 0 <= s < Z.of_nat (length b0')) slots)
      by (by rewrite Hlen0', Hlen1, <- Hlen0).
    rewrite (mark_buttons_intro _ _ _ _ _ Hslots Hall').
    assert (Hsame : set_slots slots b0' = btns1).
    { apply list_eq. intros j. unfold btns1.
      rewrite !set_slots_lookup by done.
      case_decide as Hj; [done|].
      rewrite Hb0', Hb0. case_decide; [done|].
      unfold btns1. rewrite set_slots_lookup by done.
      rewrite decide_False by done. rewrite Hb0.
      by rewrite decide_False. }
    rewrite Hsame.
    rewrite (value_phase_ext driver _ device) by done.
    rewrite (value_phase_idem _ _ _ _ _ _ _ Hrun). done.
  - intros _. exists btns1. split; [done|].
    intros page usage index Hin Hfind. unfold btns1.
    rewrite set_slots_lookup by done.
    assert (Hidx' : index ∈ slots)
      by (eapply active_slots_elem; eauto).
    rewrite Z2Nat.id
      by (eapply (Forall_forall (fun s => 0 <= s < _)) in Hall; [|done]; lia).
    by rewrite decide_True.
Qed.

Lemma decode_idempotent_witness :
  exists (status : Z) (device1 : rhid_device_t),
    decode_report sample_driver 1 gamepad = Some (status, device1)
    /\ decode_report sample_driver 1 device1 = Some (status, device1)
    /\ (status = 0 ->
        exists btns1 : list Z,
          buttons device1 = Some btns1
          /\ forall page usage index : Z,
               (page, usage)
                 ∈ snd (HidP_GetUsagesEx sample_driver (_preparsed gamepad)
                          [1; 0; 0] (report_size gamepad)) ->
               find_button (button_descriptors gamepad) page usage 0
                 (Z.to_nat (button_count gamepad)) = Some (Some index) ->
               btns1 !! Z.to_nat index = Some 1).
Proof.
  refine (decode_idempotent sample_driver 1 gamepad
            [1; 0; 0] [0; 0; 0; 0] [0] _ _).
  - discriminate.
  - exact (gamepad_ready [1; 0; 0]).
Defined.

(** The scenario, evaluated: active usages 2 and 4 of page 9, usage 2
    reported twice, give buttons 0 1 0 1, the value query gives 127, and
    a second decoding changes nothing. *)
Example decode_scenario :
  match decode_report sample_driver 1 gamepad with
  | Some (status, d) =>
      status = 0 /\ buttons d = Some [0; 1; 0; 1] /\ values d = Some [127]
      /\ decode_report sample_driver 1 d = Some (0, d)
  | None => False
  end.
Proof. vm_compute. split_and!; reflexivity. Qed.

(** ** Enumeration: one device *)

Section EnumerationProperties.

Variable max_buttons max_values : Z.


(** An interface whose path is obtained is handled from line 256 on. *)
Lemma device_step_reaches (io : device_io) (c : gcache) :
  reaches_handle io ->
  exists p' : list Z,
    device_step max_buttons max_values io c
    = if decide (opened_handle io = NULL)
      then Continue HandleOpenError c
             (set_handle NULL (set_path p' (device_zero max_buttons max_values)))
      else opened_device_stage max_buttons max_values io c
             (set_handle (opened_handle io) (set_path p' (device_zero max_buttons max_values))).
Proof.
  intros (Henum & Hsize & p & p' & Hp & Hp'). exists p'.
  assert (Hstage :
    path_and_handle_stage max_buttons max_values io c
      (device_zero max_buttons max_values)
    = if decide (opened_handle io = NULL)
      then Continue HandleOpenError c
             (set_handle NULL (set_path p' (device_zero max_buttons max_values)))
      else opened_device_stage max_buttons max_values io c
             (set_handle (opened_handle io) (set_path p' (device_zero max_buttons max_values)))).
  { unfold path_and_handle_stage, opened_handle. rewrite Hp, Hp'.
    destruct (decide (_rhid_open_device_handle (io_open_read_write io)
                      = NULL)) as [H1|H1]; [|by rewrite decide_False].
    destruct (decide (_rhid_open_device_handle (io_open_read io) = NULL))
      as [H2|H2]; [|done].
    by rewrite H2. }
  unfold device_step.
  destruct (io_enum io) as [[] err]; [|done].
  destruct (io_detail_size io) as [[] err']; [done|].
  simpl in Hsize. destruct Hsize as [|Herr]; [done|].
  by rewrite decide_False by (intros ?; done).
Qed.

(** An interface whose path is not obtained leaves the cache alone. *)
Lemma device_step_not_reaches (io : device_io) (c c' : gcache) :
  ~ reaches_handle io ->
  iteration_cache (device_step max_buttons max_values io c) c = Some c' -> c' = c.
Proof.
  intros Hnot. unfold device_step.
  assert (Hstage : forall d,
    (fst (io_enum io) = true) ->
    (fst (io_detail_size io) = true
     \/ snd (io_detail_size io) = ERROR_INSUFFICIENT_BUFFER) ->
    iteration_cache
      (path_and_handle_stage max_buttons max_values io c d) c = Some c' ->
    c' = c).
  { intros d He Hs. unfold path_and_handle_stage.
    destruct (io_detail io) as [p|] eqn:Hp; [|by intros [= <-]].
    destruct (copy_device_path p) as [p'|] eqn:Hp'; [|done].
    destruct Hnot. split_and!; eauto. }
  destruct (io_enum io) as [[] err]; simpl in *.
  - destruct (io_detail_size io) as [[] err']; simpl in *.
    + apply Hstage; auto.
    + case_decide as Herr; [by intros [= <-]|].
      apply Hstage; [done|]. right.
      destruct (decide (err' = ERROR_INSUFFICIENT_BUFFER)); [done|].
      by destruct Herr.
  - case_decide; by intros [= <-].
Qed.

(** The iteration either never touches the cache, or obtains the header
    and goes on with the button capabilities. *)
Lemma device_step_cases (io : device_io) (c : gcache) :
  ((forall c', iteration_cache (device_step max_buttons max_values io c) c = Some c' -> c' = c)
   /\ forall dev_caps, ~ obtains_header io dev_caps)
  \/ (exists dev_caps d,
        obtains_header io dev_caps
        /\ device_step max_buttons max_values io c
           = button_caps_stage max_buttons max_values io dev_caps c d).
Proof.
  assert (Hdec : reaches_handle io \/ ~ reaches_handle io).
  { unfold reaches_handle.
    destruct (io_enum io) as [[] ?]; simpl;
      [|right; intros (? & _); done].
    destruct (io_detail io) as [p|];
      [|right; intros (_ & _ & ? & ? & ? & _); done].
    destruct (copy_device_path p) as [p'|] eqn:Hp';
      [|right; intros (_ & _ & ? & ? & [= <-] & ?); congruence].
    destruct (io_detail_size io) as [[] err']; simpl;
      [left; split_and!; eauto|].
    destruct (decide (err' = ERROR_INSUFFICIENT_BUFFER));
      [left; split_and!; eauto|right; intros (_ & [?|?] & _); done]. }
  destruct Hdec as [Hreach|Hnot].
  2: { left. split; [intros c'; by apply device_step_not_reaches|].
       intros caps [? _]. done. }
  destruct (device_step_reaches io c Hreach) as [p' ->].
  case_decide as Hh.
  { left. split; [by intros c' [= <-]|]. intros caps (_ & ? & _). done. }
  unfold opened_device_stage.
  destruct (io_preparsed io) as [pre|] eqn:Hpre.
  2: { left. split; [by intros c' [= <-]|].
       intros caps (_ & _ & [? ?] & _). congruence. }
  destruct (io_caps io) as [ret caps] eqn:Hcaps.
  case_decide as Hret.
  { left. split; [by intros c' [= <-]|].
    intros caps' (_ & _ & _ & Hc). rewrite Hcaps in Hc.
    injection Hc as -> _. done. }
  right. eexists caps, _. split; [|reflexivity].
  split_and!; [done|done|by eexists|].
  rewrite Hcaps. f_equal.
  destruct (decide (ret = HIDP_STATUS_SUCCESS)); [done|]. exfalso; auto.
Qed.

Lemma obtains_header_unique (io : device_io) (caps caps' : HIDP_CAPS) :
  obtains_header io caps -> obtains_header io caps' -> caps = caps'.
Proof. intros (_ & _ & _ & H1) (_ & _ & _ & H2). congruence. Qed.

(** The cache after the value capabilities. *)
Lemma value_caps_stage_cache (io : device_io) (caps : HIDP_CAPS)
    (c c0 c' : gcache) (d : rhid_device_t) :
  iteration_cache (value_caps_stage max_values io caps c d) c0 = Some c' ->
  c' = if decide (NumberInputValueCaps caps > 0)
       then grow_value_caps (NumberInputValueCaps caps) c else c.
Proof.
  unfold value_caps_stage.
  case_decide; [|by intros [= <-]].
  destruct (io_value_caps io) as [ret tbl].
  repeat case_decide; try by intros [= <-].
  destruct (build_value_descriptors _ _ _); try done. by intros [= <-].
Qed.

(** The cache after the button and the value capabilities. *)
Lemma button_caps_stage_cache (io : device_io) (caps : HIDP_CAPS)
    (c c0 c' : gcache) (d : rhid_device_t) :
  iteration_cache (button_caps_stage max_buttons max_values io caps c d) c0 = Some c' ->
  let c1 := if decide (NumberInputButtonCaps caps > 0)
            then grow_button_caps (NumberInputButtonCaps caps) c else c in
  (too_many_buttons max_buttons io caps /\ c' = c1)
  \/ (~ too_many_buttons max_buttons io caps
      /\ c' = if decide (NumberInputValueCaps caps > 0)
              then grow_value_caps (NumberInputValueCaps caps) c1 else c1).
Proof.
  unfold button_caps_stage, too_many_buttons.
  case_decide as Hn.
  2: { intros Hc%value_caps_stage_cache. right. split; [|done].
       intros (? & _). done. }
  destruct (io_button_caps io) as [ret tbl]. simpl.
  case_decide as Hret.
  { intros Hc%value_caps_stage_cache. right. split; [|done].
    intros (_ & ? & _). done. }
  case_decide as Hmax.
  { intros [= <-]. left. split; [|done]. split_and!; [done| |done].
    destruct (decide (ret = HIDP_STATUS_SUCCESS)); [done|].
    by destruct Hret. }
  destruct (build_button_descriptors _ _ _) as [[descs idx]| |]; try done.
  intros Hc%value_caps_stage_cache. right. split; [|done].
  intros (_ & _ & ?). done.
Qed.

Lemma grow_button_caps_spec (number : Z) (c : gcache) :
  cache_ok c ->
  let c' := if decide (number > 0) then grow_button_caps number c else c in
  cache_ok c'
  /\ value_caps c' = value_caps c
  /\ value_caps_count c' = value_caps_count c
  /\ buffer_size (button_caps c) <= buffer_size (button_caps c')
  /\ (buffer_size (button_caps c) < buffer_size (button_caps c')
      <-> button_caps_count c < number).
Proof.
  intros [[Hb0 Hb] [Hv0 Hv]]. unfold grow_button_caps, cache_ok.
  destruct c as [bn bb vn vb]; simpl in *.
  repeat case_decide; simpl; destruct bb; simpl in *;
    split_and!; first [done | lia].
Qed.

Lemma grow_value_caps_spec (number : Z) (c : gcache) :
  cache_ok c ->
  let c' := if decide (number > 0) then grow_value_caps number c else c in
  cache_ok c'
  /\ button_caps c' = button_caps c
  /\ button_caps_count c' = button_caps_count c
  /\ buffer_size (value_caps c) <= buffer_size (value_caps c')
  /\ (buffer_size (value_caps c) < buffer_size (value_caps c')
      <-> value_caps_count c < number).
Proof.
  intros [[Hb0 Hb] [Hv0 Hv]]. unfold grow_value_caps, cache_ok.
  destruct c as [bn bb vn vb]; simpl in *.
  repeat case_decide; simpl; destruct vb; simpl in *;
    split_and!; first [done | lia].
Qed.

(** What one iteration of the enumeration loop does to the cache. *)
Lemma device_step_cache (io : device_io) (c c' : gcache) :
  cache_ok c ->
  iteration_cache (device_step max_buttons max_values io c) c = Some c' ->
  cache_ok c'
  /\ cache_le c c'
  /\ (buffer_size (button_caps c) < buffer_size (button_caps c')
      <-> exists dev_caps,
            obtains_header io dev_caps
            /\ button_caps_count c < NumberInputButtonCaps dev_caps)
  /\ (buffer_size (value_caps c) < buffer_size (value_caps c')
      <-> exists dev_caps,
            obtains_header io dev_caps
            /\ ~ too_many_buttons max_buttons io dev_caps
            /\ value_caps_count c < NumberInputValueCaps dev_caps).
Proof.
  intros Hok Hc'. unfold cache_le.
  destruct (device_step_cases io c)
    as [[Hsame Hno]|(caps & d & Hhead & Hstep)].
  { apply Hsame in Hc' as ->. split_and!; [done|lia|lia| |].
    - split; [lia|]. intros (caps & Hh & _). by apply Hno in Hh.
    - split; [lia|]. intros (caps & Hh & _). by apply Hno in Hh. }
  rewrite Hstep in Hc'. apply button_caps_stage_cache in Hc'.
  destruct (grow_button_caps_spec (NumberInputButtonCaps caps) c Hok)
    as (Hok1 & Hv1 & Hvn1 & Hle1 & Hiff1).
  set (c1 := if decide (NumberInputButtonCaps caps > 0)
             then grow_button_caps (NumberInputButtonCaps caps) c else c)
    in *.
  destruct (grow_value_caps_spec (NumberInputValueCaps caps) c1 Hok1)
    as (Hok2 & Hb2 & Hbn2 & Hle2 & Hiff2).
  assert (Hcaps : forall caps', obtains_header io caps' -> caps' = caps)
    by (intros caps' Hh; by eapply obtains_header_unique).
  destruct Hc' as [[Hmany ->]|[Hfew ->]].
  - split_and!; [done|lia|rewrite Hv1; lia| |].
    + rewrite Hiff1. split; [by exists caps|].
      intros (caps' & Hh & Hlt). by rewrite <- (Hcaps _ Hh).
    + rewrite Hv1. split; [lia|].
      intros (caps' & Hh & Hfew & _). by rewrite (Hcaps _ Hh) in Hfew.
  - split_and!; [done|rewrite Hb2; lia|rewrite <- Hv1; lia| |].
    + rewrite Hb2, Hiff1. split; [by exists caps|].
      intros (caps' & Hh & Hlt). by rewrite <- (Hcaps _ Hh).
    + rewrite <- Hv1, Hiff2, Hvn1. split; [by exists caps|].
      intros (caps' & Hh & _ & Hlt). by rewrite <- (Hcaps _ Hh).
Qed.

Lemma get_devices_loop_cache (ios : list device_io) (n : nat) :
  forall (i : nat) (devices devices' : list rhid_device_t)
         (c c' : gcache) (status : Z),
    cache_ok c ->
    get_devices_loop max_buttons max_values ios i n devices c
      = Ok (status, c', devices') ->
    cache_ok c' /\ cache_le c c'.
Proof.
  induction n as [|n IH]; intros i devices devices' c c' status Hok; simpl.
  { intros [= _ <- _]. unfold cache_le. split; [done|lia]. }
  destruct (array_set devices (Z.of_nat i) _) as [devices0|]; [|done].
  destruct (ios !! i) as [io|];
    [|intros [= _ <- _]; unfold cache_le; split; [done|lia]].
  destruct (device_step max_buttons max_values io c) as
    [why c1 d|c1 d|d|code d| |] eqn:Hstep; try done.
  - intros Hrest.
    destruct (device_step_cache io c c1 Hok) as (Hok1 & Hle1 & _);
      [by rewrite Hstep|].
    destruct (IH _ _ _ _ _ _ Hok1 Hrest) as [Hok' Hle'].
    split; [done|]. unfold cache_le in *. lia.
  - intros Hrest.
    destruct (device_step_cache io c c1 Hok) as (Hok1 & Hle1 & _);
      [by rewrite Hstep|].
    destruct (IH _ _ _ _ _ _ Hok1 Hrest) as [Hok' Hle'].
    split; [done|]. unfold cache_le in *. lia.
  - intros [= _ <- _]. unfold cache_le. split; [done|lia].
  - intros [= _ <- _]. unfold cache_le. split; [done|lia].
Qed.

Lemma enumeration_passes_cache
    (passes : list (option (list device_io) * list rhid_device_t * Z)) :
  forall c c' : gcache,
    cache_ok c ->
    enumeration_passes max_buttons max_values passes c = Ok c' ->
    cache_ok c' /\ cache_le c c'.
Proof.
  induction passes as [|[[dev_list devices] count] passes IH];
    intros c c' Hok; simpl.
  { intros [= <-]. unfold cache_le. split; [done|lia]. }
  destruct (rhid_get_devices _ _ _ _ _ _) as [[[status c1] devices']| |]
    eqn:Hpass; try done.
  intros Hrest.
  assert (Hc1 : cache_ok c1 /\ cache_le c c1).
  { unfold rhid_get_devices in Hpass. destruct dev_list as [ios|].
    - by eapply get_devices_loop_cache.
    - injection Hpass as _ <- _. unfold cache_le. split; [done|lia]. }
  destruct Hc1 as [Hok1 Hle1].
  destruct (IH _ _ Hok1 Hrest) as [Hok' Hle'].
  split; [done|]. unfold cache_le in *. lia.
Qed.

(** C9, as the code has it.  Across the devices of an enumeration pass
    and across passes no cache buffer ever shrinks.  In the iteration for
    one device the button buffer grows exactly when the capability header
    of the device is obtained and its raw button-capability count exceeds
    the count recorded in the cache; the value buffer grows exactly when
    the header is obtained, the device is not given up for too many button
    capabilities, and its raw value-capability count exceeds the count
    recorded in the cache. *)
Theorem cache_buffers_only_grow :
  (forall (io : device_io) (c c' : gcache),
     cache_ok c ->
     iteration_cache (device_step max_buttons max_values io c) c
       = Some c' ->
     cache_ok c'
     /\ cache_le c c'
     /\ (buffer_size (button_caps c) < buffer_size (button_caps c')
         <-> exists dev_caps,
               obtains_header io dev_caps
               /\ button_caps_count c < NumberInputButtonCaps dev_caps)
     /\ (buffer_size (value_caps c) < buffer_size (value_caps c')
         <-> exists dev_caps,
               obtains_header io dev_caps
               /\ ~ too_many_buttons max_buttons io dev_caps
               /\ value_caps_count c < NumberInputValueCaps dev_caps))
  /\ (forall (passes : list (option (list device_io)
                             * list rhid_device_t * Z))
             (c c' : gcache),
        cache_ok c ->
        enumeration_passes max_buttons max_values passes c = Ok c' ->
        cache_ok c' /\ cache_le c c').
Proof.
  split.
  - apply device_step_cache.
  - intros passes. apply enumeration_passes_cache.
Qed.

(** ** Enumeration: a device that fails *)

Lemma read_identity_unused (io : device_io) (d : rhid_device_t) :
  not_in_use d ->
  not_in_use (read_identity io d)
  /\ button_descriptors (read_identity io d) = button_descriptors d.
Proof.
  intros []. unfold read_identity.
  destruct (io_attributes io) as [[[? ?] ?]|];
    destruct (io_manufacturer_name io); destruct (io_product_name io);
    (split; [split; done|done]).
Qed.







Lemma value_caps_stage_goes_on (io : device_io) (caps : HIDP_CAPS)
    (c : gcache) (d : rhid_device_t) :
  goes_to_next_device (value_caps_stage max_values io caps c d)
  \/ value_caps_stage max_values io caps c d = IterUndefined.
Proof.
  assert (Hfin : forall c0 d0,
    goes_to_next_device (finish_device io caps c0 d0)).
  { intros c0 d0. eexists _, _. split; [by left|done]. }
  unfold value_caps_stage. case_decide; [|left; apply Hfin].
  destruct (io_value_caps io) as [ret tbl].
  case_decide; [left; apply Hfin|].
  case_decide.
  { left. eexists _, _. split; [right; by eexists|done]. }
  pose proof (value_loop_fuel tbl
                (Z.to_nat (NumberInputValueCaps caps)) 0
                (value_descriptors
                   (set_cap_value_count (Z.of_nat (length tbl))
                      (set_cap_value_count (NumberInputValueCaps caps) d))))
    as Hfuel.
  unfold build_value_descriptors.
  destruct (value_loop _ _ _ _); [left; apply Hfin|by right|done].
Qed.

Lemma button_caps_stage_goes_on (io : device_io) (caps : HIDP_CAPS)
    (c : gcache) (d : rhid_device_t) :
  goes_to_next_device
    (button_caps_stage max_buttons max_values io caps c d)
  \/ button_caps_stage max_buttons max_values io caps c d = IterUndefined.
Proof.
  unfold button_caps_stage.
  case_decide; [|apply value_caps_stage_goes_on].
  destruct (io_button_caps io) as [ret tbl].
  case_decide; [apply value_caps_stage_goes_on|].
  case_decide.
  { left. eexists _, _. split; [right; by eexists|done]. }
  pose proof (build_button_descriptors_fuel tbl
                (NumberInputButtonCaps caps)
                (button_descriptors
                   (set_cap_button_count (Z.of_nat (length tbl))
                      (set_cap_button_count (NumberInputButtonCaps caps)
                         d)))) as Hfuel.
  destruct (build_button_descriptors _ _ _) as [[descs idx]| |];
    [apply value_caps_stage_goes_on|by right|done].
Qed.

(** Once the path of a device is obtained, its iteration ends on the way
    to the next device, whatever fails for it. *)
Lemma device_step_goes_on (io : device_io) (c : gcache) :
  reaches_handle io ->
  goes_to_next_device (device_step max_buttons max_values io c)
  \/ device_step max_buttons max_values io c = IterUndefined.
Proof.
  intros Hreach. destruct (device_step_reaches io c Hreach) as [p' ->].
  case_decide.
  { left. eexists _, _. split; [right; by eexists|done]. }
  unfold opened_device_stage.
  destruct (io_preparsed io).
  2: { left. eexists _, _. split; [right; by eexists|done]. }
  destruct (io_caps io) as [ret caps]. case_decide.
  { left. eexists _, _. split; [right; by eexists|done]. }
  apply button_caps_stage_goes_on.
Qed.

End EnumerationProperties.

(** A pass over a device that cannot be opened, a device with too many
    button capabilities and the device of the scenario: the pass succeeds
    and the third device is recorded in full. *)
Example enumeration_goes_on :
  match rhid_get_devices 4 4 (Some [locked_io; five_buttons_io; gamepad_io])
          (replicate 3 (device_zero 4 4)) 3 gcache_zero with
  | Ok (status, c, [d0; d1; d2]) =>
      status = 0
      /\ handle d0 = NULL /\ button_count d0 = 0
      /\ handle d1 = NULL /\ button_count d1 = 0 /\ value_count d1 = 0
      /\ button_count d2 = 4 /\ value_count d2 = 1 /\ report_size d2 = 3
  | _ => False
  end.
Proof. vm_compute. split_and!; reflexivity. Qed.

Lemma cache_buffers_only_grow_witness :
  cache_ok gamepad_cache
  /\ cache_le gcache_zero gamepad_cache
  /\ (buffer_size (button_caps gcache_zero)
        < buffer_size (button_caps gamepad_cache)
      <-> exists dev_caps,
            obtains_header gamepad_io dev_caps
            /\ button_caps_count gcache_zero
               < NumberInputButtonCaps dev_caps)
  /\ (buffer_size (value_caps gcache_zero)
        < buffer_size (value_caps gamepad_cache)
      <-> exists dev_caps,
            obtains_header gamepad_io dev_caps
            /\ ~ too_many_buttons 8 gamepad_io dev_caps
            /\ value_caps_count gcache_zero
               < NumberInputValueCaps dev_caps).
Proof.
  refine (proj1 (cache_buffers_only_grow 8 4) gamepad_io gcache_zero
            gamepad_cache _ _).
  - unfold cache_ok. simpl. lia.
  - vm_compute; reflexivity.
Defined.

(** C9, counterexample.  A device with five button capabilities and one
    value capability, enumerated with room for four button descriptors and
    an empty cache: its raw value-capability count 1 exceeds the count 0
    recorded in the cache, but the device is given up for its button
    capabilities before the value buffer is looked at, and the value
    buffer is still unallocated after the iteration. *)
Lemma value_buffer_not_grown_for_skipped_device :
  NumberInputValueCaps (snd (io_caps five_buttons_io)) = 1
  /\ value_caps_count gcache_zero = 0
  /\ iteration_cache (device_step 4 4 five_buttons_io gcache_zero)
       gcache_zero
     = Some {| button_caps_count := 5; button_caps := Some 5;
               value_caps_count := 0; value_caps := None |}.
Proof. split_and!; vm_compute; reflexivity. Qed.

(** * Further properties *)

(** ** Counting the interfaces *)

Lemma enum_interface_inside (ios : list device_io) (i : Z) :
  (forall io, io ∈ ios -> fst (io_enum io) = true) ->
  0 <= i < Z.of_nat (length ios) ->
  fst (enum_interface ios i) = true.
Proof.
  intros Hall Hi. unfold enum_interface, array_get.
  rewrite decide_True by lia.
  destruct (lookup_lt_is_Some_2 ios (Z.to_nat i)) as [io Hio]; [lia|].
  rewrite Hio. apply Hall. by eapply list_elem_of_lookup_2.
Qed.

Lemma enum_interface_outside (ios : list device_io) (i : Z) :
  Z.of_nat (length ios) <= i ->
  enum_interface ios i = (false, ERROR_NO_MORE_ITEMS).
Proof.
  intros Hi. unfold enum_interface, array_get.
  rewrite decide_True by lia.
  by rewrite lookup_ge_None_2 by lia.
Qed.

(** On a list whose interfaces all enumerate, the jump loop breaks at an
    index that is not below the length of the list. *)
Lemma count_jump_breaks (ios : list device_io) (fuel : nat) :
  (forall io, io ∈ ios -> fst (io_enum io) = true) ->
  Z.of_nat (length ios) + 5 <= INT_MAX ->
  forall i : Z,
    0 <= i ->
    (1 <= fuel)%nat ->
    Z.of_nat (length ios) - i <= 5 * (Z.of_nat fuel - 1) ->
    exists j : Z,
      count_jump ios fuel i = Ok (Some j) /\ Z.of_nat (length ios) <= j.
Proof.
  intros Hall Hmax.
  induction fuel as [|fuel IH]; intros i Hi Hfuel Hlen; [lia|].
  cbn [count_jump].
  destruct (decide (i < Z.of_nat (length ios))) as [Hin|Hout].
  - pose proof (enum_interface_inside ios i Hall ltac:(lia)) as Htrue.
    destruct (enum_interface ios i) as [[] err]; [|done].
    rewrite decide_True by lia. apply IH; lia.
  - rewrite enum_interface_outside by lia.
    rewrite decide_True by done. exists i. split; [done|lia].
Qed.

(** Walking back from any index that is not below the length of the list
    stops at its last interface. *)
Lemma count_back_last (ios : list device_io) (extra : nat) :
  (forall io, io ∈ ios -> fst (io_enum io) = true) ->
  count_back ios (length ios + extra) = Z.of_nat (length ios) - 1.
Proof.
  intros Hall. induction extra as [|extra IH].
  - rewrite Nat.add_0_r. destruct (length ios) as [|m] eqn:Hlen;
      [done|]. cbn [count_back].
    rewrite enum_interface_inside by (done || lia). lia.
  - rewrite Nat.add_succ_r. cbn [count_back].
    rewrite enum_interface_outside by lia. done.
Qed.

(** X1.  When every interface of the device list enumerates,
    [rhid_get_device_count] returns the number of interfaces of the list,
    whatever that number is (a multiple of the jump of five or not, zero
    included). *)
Theorem device_count_is_list_length (ios : list device_io) :
  (forall io, io ∈ ios -> fst (io_enum io) = true) ->
  Z.of_nat (length ios) + 5 <= INT_MAX ->
  rhid_get_device_count (Some ios) = Ok (Z.of_nat (length ios)).
Proof.
  intros Hall Hmax. unfold rhid_get_device_count.
  destruct (count_jump_breaks ios (count_fuel ios) Hall Hmax 5)
    as (j & -> & Hj); [lia|unfold count_fuel; lia|unfold count_fuel; lia|].
  replace (Z.to_nat (j + 1))
    with (length ios + (Z.to_nat (j + 1) - length ios))%nat by lia.
  rewrite count_back_last by done. f_equal. lia.
Qed.

Lemma device_count_is_list_length_witness :
  rhid_get_device_count
    (Some (replicate 7 gamepad_io)) = Ok (Z.of_nat (length (replicate 7 gamepad_io))).
Proof.
  refine (device_count_is_list_length (replicate 7 gamepad_io) _ _).
  - intros io Hio. apply elem_of_replicate in Hio as [-> _]. reflexivity.
  - vm_compute. discriminate.
Defined.

(** ** The device path *)

(** X2.  The path copy of lines 243-250 cuts the last four characters off
    a path that ends in "kbd" and leaves every other path of at least
    three characters as it is; on a path of fewer than three characters,
    and on the path "kbd" itself, it accesses the path array outside its
    bounds. *)
Theorem copy_device_path_cases :
  (forall (q : list Z) (x : Z),
     copy_device_path (q ++ [x; 107; 98; 100]) = Some q)
  /\ (forall (q : list Z) (a b c : Z),
        (a, b, c) <> (107, 98, 100) ->
        copy_device_path (q ++ [a; b; c]) = Some (q ++ [a; b; c]))
  /\ (forall p : list Z, (length p < 3)%nat -> copy_device_path p = None)
  /\ copy_device_path [107; 98; 100] = None.
Proof.
  assert (Hget : forall (q : list Z) (l : list Z) (k : nat),
    array_get (q ++ l) (Z.of_nat (length q) + Z.of_nat k) = l !! k).
  { intros q l k. unfold array_get. rewrite decide_True by lia.
    rewrite lookup_app_r by lia. f_equal. lia. }
  split_and!.
  - intros q x. unfold copy_device_path.
    rewrite length_app. cbn [length].
    replace (Z.of_nat (length q + 4) + 1 - 4)
      with (Z.of_nat (length q) + Z.of_nat 1) by lia.
    replace (Z.of_nat (length q + 4) + 1 - 3)
      with (Z.of_nat (length q) + Z.of_nat 2) by lia.
    replace (Z.of_nat (length q + 4) + 1 - 2)
      with (Z.of_nat (length q) + Z.of_nat 3) by lia.
    rewrite !Hget. cbn [lookup list_lookup].
    rewrite !decide_True by (done || lia).
    f_equal. replace (Z.to_nat (Z.of_nat (length q + 4) + 1 - 5))
      with (length q) by lia.
    by rewrite take_app_length.
  - intros q a b c Hne. unfold copy_device_path.
    rewrite length_app. cbn [length].
    replace (Z.of_nat (length q + 3) + 1 - 4)
      with (Z.of_nat (length q) + Z.of_nat 0) by lia.
    replace (Z.of_nat (length q + 3) + 1 - 3)
      with (Z.of_nat (length q) + Z.of_nat 1) by lia.
    replace (Z.of_nat (length q + 3) + 1 - 2)
      with (Z.of_nat (length q) + Z.of_nat 2) by lia.
    rewrite !Hget. cbn [lookup list_lookup].
    repeat case_decide; try done; subst; by destruct Hne.
  - intros p Hp. unfold copy_device_path, array_get.
    by rewrite decide_False by lia.
  - vm_compute. reflexivity.
Qed.

Lemma copy_device_path_cases_witness :
  copy_device_path ([104; 105] ++ [100; 35; 49])
  = Some ([104; 105] ++ [100; 35; 49]).
Proof.
  refine (proj1 (proj2 copy_device_path_cases) [104; 105] 100 35 49 _).
  discriminate.
Defined.

(** ** The value descriptor builder *)

Lemma value_loop_inv (value_caps : list HIDP_VALUE_CAPS) (n : nat) :
  forall (k : nat) (descs descs' : list value_descriptor),
    value_loop value_caps k n descs = Ok descs' ->
    length descs' = length descs
    /\ (forall j : nat,
          (j < k \/ k + n <= j)%nat -> descs' !! j = descs !! j)
    /\ (forall j : nat,
          (k <= j < k + n)%nat ->
          exists cap,
            value_caps !! j = Some cap
            /\ descs' !! j = Some (value_descriptor_of cap j)).
Proof.
  induction n as [|n IH]; intros k descs descs'; cbn [value_loop].
  - intros [= <-]. split_and!; [done|done|]. intros; lia.
  - destruct (value_caps !! k) as [cap|] eqn:Hcap; [|done].
    destruct (array_set descs (Z.of_nat k) _) as [descs1|] eqn:Hset;
      [|done].
    apply array_set_inv in Hset as [Hk ->]. rewrite Nat2Z.id.
    intros (Hlen & Hout & Hin)%IH.
    rewrite length_insert in Hlen.
    split_and!; [done| |].
    + intros j Hj. rewrite Hout by lia.
      apply list_lookup_insert_ne. lia.
    + intros j Hj. destruct (decide (j = k)) as [->|Hne].
      * exists cap. split; [done|]. rewrite Hout by lia.
        apply list_lookup_insert_eq. lia.
      * apply Hin. lia.
Qed.

Lemma value_loop_defined (value_caps : list HIDP_VALUE_CAPS) (n : nat) :
  forall (k : nat) (descs : list value_descriptor),
    (k + n <= length value_caps)%nat ->
    (k + n <= length descs)%nat ->
    exists descs', value_loop value_caps k n descs = Ok descs'.
Proof.
  induction n as [|n IH]; intros k descs Hcaps Hdescs; cbn [value_loop].
  - by eexists.
  - destruct (lookup_lt_is_Some_2 value_caps k) as [cap ->]; [lia|].
    rewrite array_set_Some by lia.
    apply IH; rewrite ?length_insert; lia.
Qed.

(** X3.  When the value-capability table holds the announced number of
    entries and the descriptor array has room for them, the value builder
    returns; it turns entry [j] of the table into descriptor [j], with slot
    index [j], the report id, the usage page and the logical bounds of the
    entry, and as usage the entry's usage or, for a ranged entry, the
    maximum of its range; the descriptors from the announced number on are
    left as they were. *)
Theorem value_builder_one_to_one (value_caps : list HIDP_VALUE_CAPS)
    (number : Z) (descs : list value_descriptor) :
  0 <= number ->
  number <= Z.of_nat (length value_caps) ->
  number <= Z.of_nat (length descs) ->
  exists descs' : list value_descriptor,
    build_value_descriptors value_caps number descs = Ok descs'
    /\ length descs' = length descs
    /\ (forall (j : nat) (cap : HIDP_VALUE_CAPS),
          Z.of_nat j < number ->
          value_caps !! j = Some cap ->
          descs' !! j
          = Some {| vd_report_id := vc_ReportID cap;
                    vd_page := vc_UsagePage cap;
                    vd_usage :=
                      match vc_usages cap with
                      | Range _ umax => umax
                      | NotRange usage => usage
                      end;
                    vd_logical_min := vc_LogicalMin cap;
                    vd_logical_max := vc_LogicalMax cap;
                    vd_index := Z.of_nat j |})
    /\ (forall j : nat,
          number <= Z.of_nat j -> descs' !! j = descs !! j).
Proof.
  intros H0 Hcaps Hdescs. unfold build_value_descriptors.
  destruct (value_loop_defined value_caps (Z.to_nat number) 0 descs)
    as [descs' Hrun]; [lia..|].
  exists descs'. split; [done|].
  destruct (value_loop_inv _ _ _ _ _ Hrun) as (Hlen & Hout & Hin).
  split_and!; [done| |].
  - intros j cap Hj Hcap. destruct (Hin j) as (cap' & Hcap' & ->); [lia|].
    by simplify_eq.
  - intros j Hj. apply Hout. lia.
Qed.

Lemma value_builder_one_to_one_witness :
  exists descs' : list value_descriptor,
    build_value_descriptors [axis_x] 1 (replicate 4 vd_zero) = Ok descs'
    /\ length descs' = length (replicate 4 vd_zero)
    /\ (forall (j : nat) (cap : HIDP_VALUE_CAPS),
          Z.of_nat j < 1 ->
          [axis_x] !! j = Some cap ->
          descs' !! j
          = Some {| vd_report_id := vc_ReportID cap;
                    vd_page := vc_UsagePage cap;
                    vd_usage :=
                      match vc_usages cap with
                      | Range _ umax => umax
                      | NotRange usage => usage
                      end;
                    vd_logical_min := vc_LogicalMin cap;
                    vd_logical_max := vc_LogicalMax cap;
                    vd_index := Z.of_nat j |})
    /\ (forall j : nat,
          1 <= Z.of_nat j -> descs' !! j = replicate 4 vd_zero !! j).
Proof.
  refine (value_builder_one_to_one [axis_x] 1 (replicate 4 vd_zero) _ _ _).
  - lia.
  - simpl. lia.
  - simpl. lia.
Defined.

(** ** The button descriptor builder on single usages *)

(** A capability table without usage ranges, from entry [k] on. *)
Lemma button_loop_singles (button_caps : list HIDP_BUTTON_CAPS) (n : nat) :
  forall (k : nat) (descs : list button_descriptor),
    (forall cap, cap ∈ button_caps ->
       exists usage, bc_usages cap = NotRange usage) ->
    (k + n <= length button_caps)%nat ->
    (k + n <= length descs)%nat ->
    exists descs' : list button_descriptor,
      button_loop button_caps k n descs (Z.of_nat k)
        = Ok (descs', Z.of_nat (k + n))
      /\ length descs' = length descs
      /\ (forall j : nat,
            (j < k \/ k + n <= j)%nat -> descs' !! j = descs !! j)
      /\ (forall (j : nat) (cap : HIDP_BUTTON_CAPS) (usage : Z),
            (k <= j < k + n)%nat ->
            button_caps !! j = Some cap ->
            bc_usages cap = NotRange usage ->
            descs' !! j
            = Some {| bd_report_id := bc_ReportID cap;
                      bd_page := bc_UsagePage cap;
                      bd_usage := usage; bd_index := Z.of_nat j |}).
Proof.
  induction n as [|n IH]; intros k descs Hsingle Hcaps Hdescs;
    cbn [button_loop].
  - exists descs. split_and!; [do 2 f_equal; lia|done|done|]. intros; lia.
  - destruct (lookup_lt_is_Some_2 button_caps k) as [cap Hcap]; [lia|].
    destruct (lookup_lt_is_Some_2 descs k) as [d Hd]; [lia|].
    destruct (Hsingle cap) as [usage Husage];
      [by eapply list_elem_of_lookup_2|].
    rewrite Hcap, Husage.
    rewrite (array_upd_Some _ _ _ d) by (rewrite ?Nat2Z.id; done || lia).
    rewrite Nat2Z.id.
    rewrite (array_upd_Some _ _ _ (bd_set_report_id (bc_ReportID cap) d));
      [|lia|rewrite Nat2Z.id; apply list_lookup_insert_eq; lia].
    rewrite Nat2Z.id, list_insert_insert_eq.
    replace (Z.of_nat k + 1) with (Z.of_nat (S k)) by lia.
    destruct (IH (S k)
                (<[k := bd_set_page_usage_index (bc_UsagePage cap) usage
                          (Z.of_nat k)
                          (bd_set_report_id (bc_ReportID cap) d)]> descs))
      as (descs' & -> & Hlen & Hout & Hin);
      [done|lia|rewrite length_insert; lia|].
    rewrite length_insert in Hlen.
    exists descs'. split_and!; [do 2 f_equal; lia|done| |].
    + intros j Hj. rewrite Hout by lia.
      apply list_lookup_insert_ne. lia.
    + intros j cap' usage' Hj Hcap' Husage'.
      destruct (decide (j = k)) as [->|Hne].
      * rewrite Hout by lia. simplify_eq.
        rewrite list_lookup_insert_eq by lia.
        rewrite Husage in Husage'. by injection Husage' as <-.
      * eapply Hin; [lia|done|done].
Qed.

(** X4.  On a capability table without usage ranges that holds the
    announced number of entries, with room for them in the descriptor
    array, the button builder returns; entry [j] of the table becomes
    descriptor [j], with slot index [j] and the report id, usage page and
    usage of the entry, the next free slot is the announced number, and the
    descriptors from there on are left as they were: without ranges the
    slot indices are dense. *)
Theorem button_builder_dense_without_ranges
    (button_caps : list HIDP_BUTTON_CAPS) (number : Z)
    (descs : list button_descriptor) :
  (forall cap, cap ∈ button_caps ->
     exists usage, bc_usages cap = NotRange usage) ->
  0 <= number ->
  number <= Z.of_nat (length button_caps) ->
  number <= Z.of_nat (length descs) ->
  exists descs' : list button_descriptor,
    build_button_descriptors button_caps number descs = Ok (descs', number)
    /\ length descs' = length descs
    /\ (forall (j : nat) (cap : HIDP_BUTTON_CAPS) (usage : Z),
          Z.of_nat j < number ->
          button_caps !! j = Some cap ->
          bc_usages cap = NotRange usage ->
          descs' !! j
          = Some {| bd_report_id := bc_ReportID cap;
                    bd_page := bc_UsagePage cap;
                    bd_usage := usage; bd_index := Z.of_nat j |})
    /\ (forall j : nat,
          number <= Z.of_nat j -> descs' !! j = descs !! j).
Proof.
  intros Hsingle H0 Hcaps Hdescs. unfold build_button_descriptors.
  destruct (button_loop_singles button_caps (Z.to_nat number) 0 descs)
    as (descs' & Hrun & Hlen & Hout & Hin); [done|lia|lia|].
  exists descs'. split_and!; [|done| |].
  - change 0 with (Z.of_nat 0) at 1. rewrite Hrun. do 2 f_equal. lia.
  - intros j cap usage Hj. apply Hin. lia.
  - intros j Hj. apply Hout. lia.
Qed.

Lemma button_builder_dense_without_ranges_witness :
  exists descs' : list button_descriptor,
    build_button_descriptors (replicate 5 single_5) 5 (replicate 8 bd_zero)
      = Ok (descs', 5)
    /\ length descs' = length (replicate 8 bd_zero)
    /\ (forall (j : nat) (cap : HIDP_BUTTON_CAPS) (usage : Z),
          Z.of_nat j < 5 ->
          replicate 5 single_5 !! j = Some cap ->
          bc_usages cap = NotRange usage ->
          descs' !! j
          = Some {| bd_report_id := bc_ReportID cap;
                    bd_page := bc_UsagePage cap;
                    bd_usage := usage; bd_index := Z.of_nat j |})
    /\ (forall j : nat,
          5 <= Z.of_nat j -> descs' !! j = replicate 8 bd_zero !! j).
Proof.
  refine (button_builder_dense_without_ranges (replicate 5 single_5) 5
            (replicate 8 bd_zero) _ _ _ _).
  - intros cap Hcap. apply elem_of_replicate in Hcap as [-> _].
    exists 5. reflexivity.
  - lia.
  - simpl. lia.
  - simpl. lia.
Defined.

(** ** A usage range that ends at 0xFFFF *)

Lemma range_loop_never_leaves (page : Z) (fuel : nat) :
  forall (u idx : Z) (descs descs' : list button_descriptor) (idx' : Z),
    0 <= u <= 65535 ->
    range_loop fuel page 65535 u descs idx <> Ok (descs', idx').
Proof.
  induction fuel as [|fuel IH]; intros u idx descs descs' idx' Hu;
    cbn [range_loop]; [done|].
  rewrite decide_True by lia.
  destruct (array_upd descs idx _); [|done].
  apply IH. unfold uint16.
  pose proof (Z.mod_pos_bound (u + 1) 65536 ltac:(lia)). lia.
Qed.

(** The iteration of the outer loop for a range that ends at 0xFFFF. *)
Lemma range_to_0xFFFF_overruns (button_caps : list HIDP_BUTTON_CAPS)
    (k n : nat) (cap : HIDP_BUTTON_CAPS) (umin : Z)
    (descs : list button_descriptor) (idx : Z) :
  button_caps !! k = Some cap ->
  bc_usages cap = Range umin 65535 ->
  0 <= umin <= 65535 ->
  button_loop button_caps k (S n) descs idx = Undefined.
Proof.
  intros Hcap Hrange Humin. cbn [button_loop]. rewrite Hcap.
  destruct (array_upd descs idx _) as [descs1|] eqn:Hupd; [|done].
  rewrite Hrange.
  apply array_upd_inv in Hupd as (Hidx & x & _ & ->).
  match goal with
  | |- context [range_loop ?fuel ?p ?m ?u ?l ?i] =>
      pose proof (range_loop_never_leaves p fuel u i l) as Hnever;
      pose proof (range_loop_fuel p m fuel u i l) as Hfuel;
      destruct (range_loop fuel p m u l i) as [[descs2 idx2]| |]
  end.
  - by destruct (Hnever descs2 idx2).
  - done.
  - destruct Hfuel; [unfold range_fuel; lia| |done].
    unfold range_fuel. rewrite length_insert. lia.
Qed.

Lemma button_loop_reaches_0xFFFF (button_caps : list HIDP_BUTTON_CAPS)
    (k : nat) (cap : HIDP_BUTTON_CAPS) (umin : Z) (n : nat) :
  button_caps !! k = Some cap ->
  bc_usages cap = Range umin 65535 ->
  0 <= umin <= 65535 ->
  forall (k0 : nat) (descs : list button_descriptor) (idx : Z),
    (k0 <= k < k0 + n)%nat ->
    button_loop button_caps k0 n descs idx = Undefined.
Proof.
  intros Hcap Hrange Humin.
  induction n as [|n IH]; intros k0 descs idx Hk; [lia|].
  destruct (decide (k0 = k)) as [->|Hne];
    [by eapply range_to_0xFFFF_overruns|].
  cbn [button_loop].
  destruct (button_caps !! k0) as [cap0|]; [|done].
  destruct (array_upd descs idx _) as [descs1|] eqn:Hupd; [|done].
  apply array_upd_inv in Hupd as (Hidx & x & _ & ->).
  destruct (bc_usages cap0) as [umin0 umax0|usage0].
  - match goal with
    | |- context [range_loop ?fuel ?p ?m ?u ?l ?i] =>
        pose proof (range_loop_fuel p m fuel u i l) as Hfuel;
        destruct (range_loop fuel p m u l i) as [[descs2 idx2]| |]
    end; [apply IH; lia|done|].
    destruct Hfuel; [unfold range_fuel; lia| |done].
    unfold range_fuel. rewrite length_insert. lia.
  - destruct (array_upd _ idx _); [apply IH; lia|done].
Qed.

(** X5.  A capability table with a usage range that ends at 0xFFFF among
    its announced entries can never be built: the 16-bit usage counter of
    the range loop cannot exceed that maximum, so the loop goes on until
    it writes past the end of the descriptor array, whatever the length of
    the array and wherever the range starts. *)
Theorem range_to_0xFFFF_never_built (button_caps : list HIDP_BUTTON_CAPS)
    (number : Z) (descs : list button_descriptor)
    (k : nat) (cap : HIDP_BUTTON_CAPS) (umin : Z) :
  button_caps !! k = Some cap ->
  Z.of_nat k < number ->
  bc_usages cap = Range umin 65535 ->
  0 <= umin <= 65535 ->
  build_button_descriptors button_caps number descs = Undefined.
Proof.
  intros Hcap Hk Hrange Humin. unfold build_button_descriptors.
  eapply button_loop_reaches_0xFFFF; [done..|lia].
Qed.

Lemma range_to_0xFFFF_never_built_witness :
  build_button_descriptors
    [ single_5;
      {| bc_UsagePage := 9; bc_ReportID := 1;
         bc_usages := Range 65530 65535 |} ]
    2 (replicate 8 bd_zero)
  = Undefined.
Proof.
  refine (range_to_0xFFFF_never_built _ 2 (replicate 8 bd_zero) 1
            {| bc_UsagePage := 9; bc_ReportID := 1;
               bc_usages := Range 65530 65535 |}
            65530 _ _ _ _).
  - reflexivity.
  - lia.
  - reflexivity.
  - lia.
Defined.

(** ** Enumeration: what is recorded *)

Section EnumerationRecords.

Variable max_buttons max_values : Z.

Lemma not_in_use_closed (d : rhid_device_t) :
  not_in_use d -> closed_state (set_handle NULL d).
Proof. intros []. split; done. Qed.

Lemma reaches_handle_dec (io : device_io) :
  reaches_handle io \/ ~ reaches_handle io.
Proof.
  unfold reaches_handle.
  destruct (io_enum io) as [[] ?]; simpl;
    [|right; intros (? & _); done].
  destruct (io_detail io) as [p|];
    [|right; intros (_ & _ & ? & ? & ? & _); done].
  destruct (copy_device_path p) as [p'|] eqn:Hp';
    [|right; intros (_ & _ & ? & ? & [= <-] & ?); congruence].
  destruct (io_detail_size io) as [[] err']; simpl;
    [left; split_and!; eauto|].
  destruct (decide (err' = ERROR_INSUFFICIENT_BUFFER));
    [left; split_and!; eauto|right; intros (_ & [?|?] & _); done].
Qed.

(** An interface whose path is not obtained ends the loop, with the
    zeroed device in the array. *)
Lemma device_step_stops (io : device_io) (c : gcache) :
  ~ reaches_handle io ->
  device_step max_buttons max_values io c
    = Break (device_zero max_buttons max_values)
  \/ device_step max_buttons max_values io c
     = Return (-1) (device_zero max_buttons max_values)
  \/ device_step max_buttons max_values io c = IterUndefined.
Proof.
  intros Hnot. unfold device_step.
  assert (Hstage :
    fst (io_enum io) = true ->
    (fst (io_detail_size io) = true
     \/ snd (io_detail_size io) = ERROR_INSUFFICIENT_BUFFER) ->
    path_and_handle_stage max_buttons max_values io c
      (device_zero max_buttons max_values)
    = Return (-1) (device_zero max_buttons max_values)
    \/ path_and_handle_stage max_buttons max_values io c
         (device_zero max_buttons max_values) = IterUndefined).
  { intros He Hs. unfold path_and_handle_stage.
    destruct (io_detail io) as [p|] eqn:Hp; [|by left].
    destruct (copy_device_path p) as [p'|] eqn:Hp'; [|by right].
    destruct Hnot. split_and!; eauto. }
  destruct (io_enum io) as [[] err]; simpl in *.
  - destruct (io_detail_size io) as [[] err']; simpl in *.
    + right. apply Hstage; auto.
    + case_decide as Herr; [right; by left|].
      right. apply Hstage; [done|]. right.
      destruct (decide (err' = ERROR_INSUFFICIENT_BUFFER)); [done|].
      by destruct Herr.
  - case_decide; [by left|right; by left].
Qed.

Lemma finish_device_recorded (io : device_io) (caps : HIDP_CAPS)
    (c : gcache) (d : rhid_device_t) :
  not_in_use d ->
  exists d',
    finish_device io caps c d = Completed c d'
    /\ closed_state d'
    /\ header_recorded io caps d'
    /\ path d' = path d
    /\ button_descriptors d' = button_descriptors d
    /\ value_descriptors d' = value_descriptors d.
Proof.
  intros []. eexists. split; [done|]. split_and!; try done; split; done.
Qed.

(** The value capabilities of a device that is not given up. *)
Lemma value_caps_stage_completed (io : device_io) (caps : HIDP_CAPS)
    (c c' : gcache) (d d' : rhid_device_t) :
  value_caps_stage max_values io caps c d = Completed c' d' ->
  not_in_use d ->
  closed_state d'
  /\ header_recorded io caps d'
  /\ path d' = path d
  /\ button_descriptors d' = button_descriptors d
  /\ (((NumberInputValueCaps caps <= 0
        \/ fst (io_value_caps io) <> HIDP_STATUS_SUCCESS)
       /\ value_descriptors d' = value_descriptors d)
      \/ (0 < NumberInputValueCaps caps <= max_values
          /\ fst (io_value_caps io) = HIDP_STATUS_SUCCESS
          /\ build_value_descriptors (snd (io_value_caps io))
               (NumberInputValueCaps caps) (value_descriptors d)
             = Ok (value_descriptors d'))).
Proof.
  intros Hrun Hd. unfold value_caps_stage in Hrun.
  assert (Hfin : forall c0 d0,
    finish_device io caps c0 d0 = Completed c' d' ->
    not_in_use d0 ->
    closed_state d' /\ header_recorded io caps d'
    /\ path d' = path d0
    /\ button_descriptors d' = button_descriptors d0
    /\ value_descriptors d' = value_descriptors d0).
  { intros c0 d0 Hf Hd0.
    destruct (finish_device_recorded io caps c0 d0 Hd0)
      as (d1 & Hd1 & Hrest).
    rewrite Hd1 in Hf. by injection Hf as <- <-. }
  case_decide as Hn.
  2: { apply Hfin in Hrun as (? & ? & ? & ? & ?); [|done].
       split_and!; [done..|]. left. split; [left; lia|done]. }
  destruct (io_value_caps io) as [ret tbl]. simpl.
  case_decide as Hret.
  { apply Hfin in Hrun as (? & ? & ? & ? & ?);
      [|destruct Hd; split; done].
    split_and!; [done..|]. left. split; [by right|done]. }
  case_decide as Hmax; [done|].
  destruct (build_value_descriptors tbl _ _) as [descs| |] eqn:Hbuild;
    [|done..].
  apply Hfin in Hrun as (? & ? & Hp & Hb & Hv);
    [|destruct Hd; split; done].
  split_and!; [done..|]. right. split; [lia|split].
  - destruct (decide (ret = HIDP_STATUS_SUCCESS)); [done|].
    by destruct Hret.
  - simpl in Hv, Hbuild. by rewrite Hv.
Qed.

(** The button capabilities of a device that is not given up hand the
    device over to the value capabilities with its value descriptors
    untouched. *)
Lemma button_caps_stage_completed (io : device_io) (caps : HIDP_CAPS)
    (c c' : gcache) (d d' : rhid_device_t) :
  button_caps_stage max_buttons max_values io caps c d = Completed c' d' ->
  not_in_use d ->
  exists c1 d1,
    value_caps_stage max_values io caps c1 d1 = Completed c' d'
    /\ not_in_use d1
    /\ path d1 = path d
    /\ value_descriptors d1 = value_descriptors d.
Proof.
  intros Hrun Hd. unfold button_caps_stage in Hrun.
  case_decide; [|by eexists _, _].
  destruct (io_button_caps io) as [ret tbl].
  case_decide.
  { eexists _, _. split; [done|]. destruct Hd. split_and!; [split|..]; done. }
  case_decide; [done|].
  destruct (build_button_descriptors tbl _ _) as [[descs idx]| |];
    [|done..].
  eexists _, _. split; [done|]. destruct Hd. split_and!; [split|..]; done.
Qed.

(** The iteration for an interface whose path [p] is obtained, from line
    256 on. *)
Lemma device_step_at_path (io : device_io) (c : gcache) (p p' : list Z) :
  fst (io_enum io) = true ->
  (fst (io_detail_size io) = true
   \/ snd (io_detail_size io) = ERROR_INSUFFICIENT_BUFFER) ->
  io_detail io = Some p ->
  copy_device_path p = Some p' ->
  device_step max_buttons max_values io c
  = if decide (opened_handle io = NULL)
    then Continue HandleOpenError c
           (set_handle NULL
              (set_path p' (device_zero max_buttons max_values)))
    else opened_device_stage max_buttons max_values io c
           (set_handle (opened_handle io)
              (set_path p' (device_zero max_buttons max_values))).
Proof.
  intros Henum Hsize Hp Hp'.
  assert (Hstage :
    path_and_handle_stage max_buttons max_values io c
      (device_zero max_buttons max_values)
    = if decide (opened_handle io = NULL)
      then Continue HandleOpenError c
             (set_handle NULL
                (set_path p' (device_zero max_buttons max_values)))
      else opened_device_stage max_buttons max_values io c
             (set_handle (opened_handle io)
                (set_path p' (device_zero max_buttons max_values)))).
  { unfold path_and_handle_stage, opened_handle. rewrite Hp, Hp'.
    destruct (decide (_rhid_open_device_handle (io_open_read_write io)
                      = NULL)) as [H1|H1]; [|by rewrite decide_False].
    destruct (decide (_rhid_open_device_handle (io_open_read io) = NULL))
      as [H2|H2]; [|done].
    by rewrite H2. }
  unfold device_step.
  destruct (io_enum io) as [[] err]; [|done].
  destruct (io_detail_size io) as [[] err']; [done|].
  simpl in Hsize. destruct Hsize as [|Herr]; [done|].
  by rewrite decide_False by (intros ?; done).
Qed.

(** A device whose iteration runs to the end of the loop body. *)
Lemma device_step_completed (io : device_io) (c c' : gcache)
    (d : rhid_device_t) :
  device_step max_buttons max_values io c = Completed c' d ->
  exists (caps : HIDP_CAPS) (p : list Z) (c1 : gcache)
         (d1 : rhid_device_t),
    obtains_header io caps
    /\ io_detail io = Some p
    /\ copy_device_path p = Some (path d1)
    /\ not_in_use d1
    /\ value_descriptors d1 = replicate (Z.to_nat max_values) vd_zero
    /\ value_caps_stage max_values io caps c1 d1 = Completed c' d.
Proof.
  intros Hrun.
  destruct (reaches_handle_dec io) as [Hreach|Hnot].
  2: { destruct (device_step_stops io c Hnot) as [H|[H|H]];
         rewrite H in Hrun; done. }
  pose proof Hreach as (He & Hs & p & p' & Hp & Hp').
  rewrite (device_step_at_path io c p p') in Hrun by done.
  case_decide as Hh; [done|].
  unfold opened_device_stage in Hrun.
  destruct (io_preparsed io) as [pre|] eqn:Hpre; [|done].
  destruct (io_caps io) as [ret caps] eqn:Hcaps.
  case_decide as Hret; [done|].
  assert (Hzero : not_in_use
    (set_handle (opened_handle io)
       (set_path p' (device_zero max_buttons max_values))))
    by (split; done).
  destruct (read_identity_unused io _ Hzero) as [Hid _].
  destruct (button_caps_stage_completed io caps c c' _ d Hrun Hid)
    as (c1 & d1 & Hval & Hd1 & Hpath & Hdescs).
  assert (Hident : forall d0,
    path (read_identity io d0) = path d0
    /\ value_descriptors (read_identity io d0) = value_descriptors d0).
  { intros d0. unfold read_identity.
    destruct (io_attributes io) as [[[? ?] ?]|];
      destruct (io_manufacturer_name io);
      destruct (io_product_name io); done. }
  assert (Hhead : obtains_header io caps).
  { split_and!; [done|done|by eexists|].
    rewrite Hcaps. f_equal.
    destruct (decide (ret = HIDP_STATUS_SUCCESS)); [done|].
    by destruct Hret. }
  exists caps, p, c1, d1.
  split; [done|]. split; [done|].
  split; [by rewrite Hpath, (proj1 (Hident _))|].
  split; [done|].
  split; [by rewrite Hdescs, (proj2 (Hident _))|done].
Qed.

(** X6.  A device whose iteration of the enumeration loop runs to the
    end of the loop body is recorded closed, with no handle and no
    buffers, under the path the path copy gives, with the usage page and
    usage of its capability header, [button_count] the driver's maximal
    usage-list length, [value_count] the header's number of value
    capabilities and [report_size] the header's input report length. *)
Theorem completed_device_records_header (io : device_io) (c c' : gcache)
    (d : rhid_device_t) :
  device_step max_buttons max_values io c = Completed c' d ->
  exists (caps : HIDP_CAPS) (p : list Z),
    obtains_header io caps
    /\ io_detail io = Some p
    /\ copy_device_path p = Some (path d)
    /\ closed_state d
    /\ usage_page d = UsagePage caps
    /\ usage d = Usage caps
    /\ button_count d = io_max_usage_list_length io
    /\ value_count d = NumberInputValueCaps caps
    /\ report_size d = InputReportByteLength caps.
Proof.
  intros Hrun.
  destruct (device_step_completed io c c' d Hrun)
    as (caps & p & c1 & d1 & Hhead & Hp & Hp' & Hd1 & _ & Hval).
  destruct (value_caps_stage_completed io caps c1 c' d1 d Hval Hd1)
    as (Hclosed & [] & Hpath & _).
  exists caps, p. rewrite Hpath. split_and!; done.
Qed.

(** X7.  The value descriptors of a device whose iteration runs to the
    end of the loop body.  When the value-capability query succeeded and
    the device has value capabilities, [value_count] is at most the
    maximum and descriptor [j], for every [j] below [value_count], is
    entry [j] of the table with slot index [j].  When the query failed,
    no bound is checked and no descriptor is written: the descriptor
    array is all zero whatever [value_count] is. *)
Theorem completed_device_value_descriptors (io : device_io)
    (c c' : gcache) (d : rhid_device_t) :
  device_step max_buttons max_values io c = Completed c' d ->
  (fst (io_value_caps io) = HIDP_STATUS_SUCCESS ->
   0 < value_count d ->
   value_count d <= max_values
   /\ forall j : nat,
        Z.of_nat j < value_count d ->
        exists cap : HIDP_VALUE_CAPS,
          snd (io_value_caps io) !! j = Some cap
          /\ value_descriptors d !! j = Some (value_descriptor_of cap j))
  /\ (fst (io_value_caps io) <> HIDP_STATUS_SUCCESS ->
      value_descriptors d = replicate (Z.to_nat max_values) vd_zero).
Proof.
  intros Hrun.
  destruct (device_step_completed io c c' d Hrun)
    as (caps & p & c1 & d1 & Hhead & Hp & Hp' & Hd1 & Hzero & Hval).
  destruct (value_caps_stage_completed io caps c1 c' d1 d Hval Hd1)
    as (_ & [_ _ _ Hcount _] & _ & _ & Hdescs).
  rewrite Hcount. split.
  - intros Hok Hpos.
    destruct Hdescs as [[[?|?] _]|(Hn & _ & Hbuild)]; [lia|done|].
    split; [lia|]. intros j Hj.
    unfold build_value_descriptors in Hbuild.
    destruct (value_loop_inv _ _ _ _ _ Hbuild) as (_ & _ & Hin).
    apply Hin. lia.
  - intros Hfail.
    destruct Hdescs as [[_ ->]|(_ & ? & _)]; [done|].
    by destruct Hfail.
Qed.

(** The device an iteration leaves in the array holds no handle and no
    buffers, however the iteration ends. *)
Lemma device_step_closed (io : device_io) (c : gcache)
    (d : rhid_device_t) :
  iteration_device (device_step max_buttons max_values io c) = Some d ->
  closed_state d.
Proof.
  assert (Hzero : closed_state (device_zero max_buttons max_values))
    by (split; done).
  assert (Hval : forall caps c0 d0,
    not_in_use d0 ->
    iteration_device (value_caps_stage max_values io caps c0 d0) = Some d ->
    closed_state d).
  { intros caps c0 d0 Hd0. unfold value_caps_stage, finish_device.
    destruct (io_value_caps io) as [ret tbl].
    repeat case_decide;
      try destruct (build_value_descriptors tbl _ _); try done;
      intros [= <-]; destruct Hd0; split; done. }
  assert (Hbtn : forall caps c0 d0,
    not_in_use d0 ->
    iteration_device
      (button_caps_stage max_buttons max_values io caps c0 d0) = Some d ->
    closed_state d).
  { intros caps c0 d0 Hd0. unfold button_caps_stage.
    destruct (io_button_caps io) as [ret tbl].
    repeat case_decide.
    - apply Hval. destruct Hd0; split; done.
    - intros [= <-]. destruct Hd0; split; done.
    - destruct (build_button_descriptors tbl _ _) as [[descs idx]| |];
        [|done..].
      apply Hval. destruct Hd0; split; done.
    - by apply Hval. }
  destruct (reaches_handle_dec io) as [Hreach|Hnot].
  2: { destruct (device_step_stops io c Hnot) as [H|[H|H]];
         rewrite H; simpl; [by intros [= <-]..|done]. }
  destruct Hreach as (He & Hs & p & p' & Hp & Hp').
  rewrite (device_step_at_path io c p p') by done.
  assert (Hunused : not_in_use
    (read_identity io
       (set_handle (opened_handle io)
          (set_path p' (device_zero max_buttons max_values))))).
  { apply read_identity_unused. split; done. }
  case_decide; [intros [= <-]; split; done|].
  unfold opened_device_stage.
  destruct (io_preparsed io);
    [|intros [= <-]; by apply not_in_use_closed].
  destruct (io_caps io) as [ret caps].
  case_decide; [intros [= <-]; by apply not_in_use_closed|].
  by apply Hbtn.
Qed.

Lemma device_step_status (io : device_io) (c : gcache) (code : Z)
    (d : rhid_device_t) :
  device_step max_buttons max_values io c = Return code d -> code = -1.
Proof.
  destruct (reaches_handle_dec io) as [Hreach|Hnot].
  - destruct (device_step_goes_on max_buttons max_values io c Hreach)
      as [(c' & d' & [H | [why H]] & _) | H]; rewrite H; done.
  - destruct (device_step_stops io c Hnot) as [H | [H | H]]; rewrite H;
      [done|by intros [= <- _]|done].
Qed.

Lemma get_devices_loop_frame (ios : list device_io) (n : nat) :
  forall (i : nat) (devices devices' : list rhid_device_t)
         (c c' : gcache) (status : Z),
    get_devices_loop max_buttons max_values ios i n devices c
      = Ok (status, c', devices') ->
    length devices' = length devices
    /\ (forall j : nat,
          (j < i \/ i + n <= j)%nat -> devices' !! j = devices !! j)
    /\ (forall (j : nat) (d : rhid_device_t),
          devices' !! j = Some d ->
          devices !! j = Some d \/ closed_state d)
    /\ (status = 0 \/ status = -1).
Proof.
  induction n as [|n IH]; intros i devices devices' c c' status;
    cbn [get_devices_loop].
  { intros [= <- _ <-]. split_and!; [done|done|by left|by left]. }
  destruct (array_set devices (Z.of_nat i) _) as [devices0|] eqn:Hset;
    [|done].
  apply array_set_inv in Hset as [Hi ->]. rewrite Nat2Z.id.
  assert (Hput : forall (d0 : rhid_device_t) (j : nat) (d : rhid_device_t),
    closed_state d0 ->
    <[i := d0]> devices !! j = Some d ->
    devices !! j = Some d \/ closed_state d).
  { intros d0 j d Hd0 Hj. destruct (decide (j = i)) as [->|Hne].
    - rewrite list_lookup_insert_eq in Hj by lia.
      injection Hj as <-. by right.
    - rewrite list_lookup_insert_ne in Hj by done. by left. }
  assert (Hstop : forall (d0 : rhid_device_t) (st : Z),
    closed_state d0 -> (st = 0 \/ st = -1) ->
    Ok (st, c, <[i := d0]> devices) = Ok (status, c', devices') ->
    length devices' = length devices
    /\ (forall j : nat,
          (j < i \/ i + S n <= j)%nat -> devices' !! j = devices !! j)
    /\ (forall (j : nat) (d : rhid_device_t),
          devices' !! j = Some d ->
          devices !! j = Some d \/ closed_state d)
    /\ (status = 0 \/ status = -1)).
  { intros d0 st Hd0 Hst [= <- _ <-]. split_and!.
    - apply length_insert.
    - intros j Hj. apply list_lookup_insert_ne. lia.
    - intros j d. by apply Hput.
    - done. }
  assert (Hzero : closed_state (device_zero max_buttons max_values))
    by (split; done).
  destruct (ios !! i) as [io|]; [|by apply (Hstop _ 0); [|left]].
  pose proof (device_step_closed io c) as Hclosed.
  pose proof (device_step_status io c) as Hcode.
  assert (Hnext : forall (c1 : gcache) (d1 : rhid_device_t),
    closed_state d1 ->
    get_devices_loop max_buttons max_values ios (S i) n
      (<[i := d1]> (<[i := device_zero max_buttons max_values]> devices))
      c1 = Ok (status, c', devices') ->
    length devices' = length devices
    /\ (forall j : nat,
          (j < i \/ i + S n <= j)%nat -> devices' !! j = devices !! j)
    /\ (forall (j : nat) (d : rhid_device_t),
          devices' !! j = Some d ->
          devices !! j = Some d \/ closed_state d)
    /\ (status = 0 \/ status = -1)).
  { intros c1 d1 Hd1. rewrite list_insert_insert_eq.
    intros (Hlen & Hout & Hin & Hst)%IH.
    rewrite length_insert in Hlen. split_and!; [done| | |done].
    - intros j Hj. rewrite Hout by lia.
      apply list_lookup_insert_ne. lia.
    - intros j d Hj. destruct (Hin j d Hj) as [Hold|?]; [|by right].
      by eapply Hput. }
  destruct (device_step max_buttons max_values io c)
    as [why c1 d1|c1 d1|d1|code d1| |]; try done.
  - apply Hnext. by apply Hclosed.
  - apply Hnext. by apply Hclosed.
  - rewrite list_insert_insert_eq.
    apply (Hstop d1 0); [by apply Hclosed|by left].
  - rewrite list_insert_insert_eq.
    apply (Hstop d1 code); [by apply Hclosed|right; by eapply Hcode].
Qed.

(** X8.  [rhid_get_devices] keeps the length of the caller's array and
    leaves every entry from index [count] on as it was; every entry it
    changes is left closed, with no handle and no buffers; and the status
    it returns is 0 or -1. *)
Theorem get_devices_frame (dev_list : option (list device_io))
    (devices devices' : list rhid_device_t) (count : Z)
    (c c' : gcache) (status : Z) :
  rhid_get_devices max_buttons max_values dev_list devices count c
    = Ok (status, c', devices') ->
  length devices' = length devices
  /\ (forall j : nat, count <= Z.of_nat j -> devices' !! j = devices !! j)
  /\ (forall (j : nat) (d : rhid_device_t),
        devices' !! j = Some d ->
        devices !! j = Some d \/ closed_state d)
  /\ (status = 0 \/ status = -1).
Proof.
  unfold rhid_get_devices. destruct dev_list as [ios|].
  - intros (Hlen & Hout & Hin & Hst)%get_devices_loop_frame.
    split_and!; [done| |done|done].
    intros j Hj. apply Hout. lia.
  - intros [= <- _ <-]. split_and!; [done|done|by left|by right].
Qed.

End EnumerationRecords.
Lemma completed_device_records_header_witness :
  exists (caps : HIDP_CAPS) (p : list Z),
    obtains_header gamepad_io caps
    /\ io_detail gamepad_io = Some p
    /\ copy_device_path p = Some (path gamepad_enumerated)
    /\ closed_state gamepad_enumerated
    /\ usage_page gamepad_enumerated = UsagePage caps
    /\ usage gamepad_enumerated = Usage caps
    /\ button_count gamepad_enumerated
       = io_max_usage_list_length gamepad_io
    /\ value_count gamepad_enumerated = NumberInputValueCaps caps
    /\ report_size gamepad_enumerated = InputReportByteLength caps.
Proof.
  refine (completed_device_records_header 8 4 gamepad_io gcache_zero
            gamepad_cache gamepad_enumerated _).
  vm_compute; reflexivity.
Defined.

Lemma completed_device_value_descriptors_witness :
  (fst (io_value_caps gamepad_io) = HIDP_STATUS_SUCCESS ->
   0 < value_count gamepad_enumerated ->
   value_count gamepad_enumerated <= 4
   /\ forall j : nat,
        Z.of_nat j < value_count gamepad_enumerated ->
        exists cap : HIDP_VALUE_CAPS,
          snd (io_value_caps gamepad_io) !! j = Some cap
          /\ value_descriptors gamepad_enumerated !! j
             = Some (value_descriptor_of cap j))
  /\ (fst (io_value_caps gamepad_io) <> HIDP_STATUS_SUCCESS ->
      value_descriptors gamepad_enumerated
      = replicate (Z.to_nat 4) vd_zero).
Proof.
  refine (completed_device_value_descriptors 8 4 gamepad_io gcache_zero
            gamepad_cache gamepad_enumerated _).
  vm_compute; reflexivity.
Defined.

Lemma get_devices_frame_witness :
  length sample_pass_devices = length (replicate 3 (device_zero 4 4))
  /\ (forall j : nat,
        2 <= Z.of_nat j ->
        sample_pass_devices !! j = replicate 3 (device_zero 4 4) !! j)
  /\ (forall (j : nat) (d : rhid_device_t),
        sample_pass_devices !! j = Some d ->
        replicate 3 (device_zero 4 4) !! j = Some d \/ closed_state d)
  /\ (sample_pass_status = 0 \/ sample_pass_status = -1).
Proof.
  refine (get_devices_frame 4 4
            (Some [locked_io; five_buttons_io; gamepad_io])
            (replicate 3 (device_zero 4 4)) sample_pass_devices 2
            gcache_zero sample_pass_cache sample_pass_status _).
  vm_compute; reflexivity.
Defined.

(** ** Selection: counting and filling *)

Lemma matching_step (f : rhid_select_func_t)
    (devices : list rhid_device_t) (i n : nat) (d : rhid_device_t) :
  devices !! i = Some d ->
  List.filter (selects f devices) (seq i (S n))
  = if decide (f (usage_page d) (usage d) = 1)
    then i :: List.filter (selects f devices) (seq (S i) n)
    else List.filter (selects f devices) (seq (S i) n).
Proof.
  intros Hd. cbn [seq List.filter]. unfold selects at 1. rewrite Hd.
  case_decide.
  - by rewrite bool_decide_eq_true_2.
  - by rewrite bool_decide_eq_false_2.
Qed.

Lemma select_count_loop_spec (f : rhid_select_func_t)
    (devices : list rhid_device_t) (n : nat) :
  forall (i : nat) (new_count : Z),
    (i + n <= length devices)%nat ->
    select_count_loop f devices i n new_count
    = Some (new_count
            + Z.of_nat (length (List.filter (selects f devices)
                                  (seq i n)))).
Proof.
  induction n as [|n IH]; intros i new_count Hn.
  - simpl. f_equal. lia.
  - destruct (lookup_lt_is_Some_2 devices i) as [d Hd]; [lia|].
    rewrite (matching_step f devices i n d Hd).
    cbn [select_count_loop]. rewrite Hd.
    case_decide; rewrite IH by lia; f_equal; simpl; lia.
Qed.

(** X9.  [rhid_select_count] returns the number of devices among the
    first [count] for which the selection function returns 1, a number
    between 0 and [count]; a [count] beyond the length of the array makes
    it read past the end of the array. *)
Theorem select_count_counts_matches (devices : list rhid_device_t)
    (count : Z) (f : rhid_select_func_t) :
  (count <= Z.of_nat (length devices) ->
   rhid_select_count devices count f
   = Some (Z.of_nat (length (matching f devices (Z.to_nat count))))
   /\ 0 <= Z.of_nat (length (matching f devices (Z.to_nat count)))
      <= Z.max 0 count)
  /\ (Z.of_nat (length devices) < count ->
      rhid_select_count devices count f = None).
Proof.
  split.
  - intros Hcount. split.
    + unfold rhid_select_count, matching.
      rewrite select_count_loop_spec by lia. f_equal.
    + unfold matching.
      pose proof (filter_length_le (selects f devices)
                    (seq 0 (Z.to_nat count))) as Hle.
      rewrite length_seq in Hle. lia.
  - intros Hcount. unfold rhid_select_count.
    assert (Hloop : forall (n i : nat) (acc : Z),
      (length devices < i + n)%nat ->
      (i <= length devices)%nat ->
      select_count_loop f devices i n acc = None).
    { induction n as [|n IH]; intros i acc Hn Hi; [lia|].
      cbn [select_count_loop].
      destruct (devices !! i) as [d|] eqn:Hd; [|done].
      apply lookup_lt_Some in Hd.
      case_decide; apply IH; lia. }
    apply Hloop; lia.
Qed.

Lemma select_count_counts_matches_witness :
  rhid_select_count [gamepad_enumerated; device_zero 8 4] 2 is_joystick
  = Some (Z.of_nat (length (matching is_joystick
                              [gamepad_enumerated; device_zero 8 4]
                              (Z.to_nat 2))))
  /\ 0 <= Z.of_nat (length (matching is_joystick
                              [gamepad_enumerated; device_zero 8 4]
                              (Z.to_nat 2)))
     <= Z.max 0 2.
Proof.
  refine (proj1 (select_count_counts_matches
                   [gamepad_enumerated; device_zero 8 4] 2 is_joystick) _).
  simpl. lia.
Defined.

(** The loop of [rhid_select_devices] from device [i] with [a] entries of
    [selected] already assigned, in terms of the matches still to come
    and of the number of assignments the guard lets through. *)
Lemma select_devices_loop_spec (f : rhid_select_func_t)
    (devices : list rhid_device_t) (c : Z) (n : nat) :
  forall (i a : nat) (selected : list (option nat)) (written : list Z),
    let m := List.filter (selects f devices) (seq i n) in
    let limit := Z.to_nat (c + 1) in
    let w := (length m `min` (limit - a))%nat in
    (i + n <= length devices)%nat ->
    (a <= limit)%nat ->
    (a + w <= length selected)%nat ->
    exists selected' : list (option nat),
      select_devices_loop f devices i n selected c (Z.of_nat a) written
      = Some (if decide (length m <= limit - a)%nat then 0 else -1,
              selected', written ++ (Z.of_nat <$> seq a w))
      /\ length selected' = length selected
      /\ forall j : nat,
           selected' !! j
           = if decide (a <= j < a + w)%nat
             then Some (m !! (j - a)%nat) else selected !! j.
Proof.
  induction n as [|n IH]; intros i a selected written m limit w Hn Ha Hsel;
    assert (Hlimit : limit = Z.to_nat (c + 1)) by done; clearbody limit;
    subst m w.
  - exists selected. cbn [seq List.filter length Nat.min
      select_devices_loop fmap list_fmap]. rewrite app_nil_r.
    split_and!; [done|done|].
    intros j. by rewrite decide_False by lia.
  - destruct (lookup_lt_is_Some_2 devices i) as [d Hd]; [lia|].
    cbn [select_devices_loop]. rewrite Hd.
    rewrite (matching_step f devices i n d Hd) in *.
    set (m' := List.filter (selects f devices) (seq (S i) n)) in *.
    destruct (decide (f (usage_page d) (usage d) = 1)) as [Hm|Hm].
    + cbn [length] in *.
      destruct (decide (Z.of_nat a > c)) as [Hfull|Hroom].
      * exists selected.
        replace (limit - a)%nat with 0%nat by lia.
        rewrite Nat.min_0_r. cbn [seq fmap list_fmap].
        rewrite app_nil_r.
        rewrite decide_False by lia. split_and!; [done|done|].
        intros j. by rewrite decide_False by lia.
      * assert (Hlim : (a < limit)%nat) by lia.
        assert (Hw : (S (length m') `min` (limit - a)
                      = S (length m' `min` (limit - S a)))%nat) by lia.
        rewrite Hw in *.
        rewrite array_set_Some by lia. rewrite Nat2Z.id.
        replace (Z.of_nat a + 1) with (Z.of_nat (S a)) by lia.
        destruct (IH (S i) (S a) (<[a := Some i]> selected)
                    (written ++ [Z.of_nat a]))
          as (selected' & Hrun & Hlen & Hlook);
          [lia|lia|rewrite length_insert; fold m'; lia|].
        fold m' in Hrun, Hlook. rewrite <- Hlimit in Hrun, Hlook.
        rewrite Hrun. rewrite length_insert in Hlen.
        exists selected'. split_and!.
        -- f_equal. f_equal; [f_equal|].
           ++ repeat case_decide; lia.
           ++ cbn [seq fmap list_fmap]. by rewrite <- app_assoc.
        -- done.
        -- intros j. rewrite Hlook.
           destruct (decide (j = a)) as [->|Hne].
           ++ rewrite decide_False by lia. rewrite decide_True by lia.
              rewrite list_lookup_insert_eq by lia.
              by rewrite Nat.sub_diag.
           ++ rewrite list_lookup_insert_ne by done.
              repeat case_decide; try lia; try done;
                replace (j - a)%nat with (S (j - S a)) by lia; done.
    + destruct (IH (S i) a selected written)
        as (selected' & Hrun & Hlen & Hlook); [lia|lia|fold m'; lia|].
      fold m' in Hrun, Hlook. rewrite <- Hlimit in Hrun, Hlook.
      rewrite Hrun. exists selected'. split_and!; done.
Qed.

(** X10.  [rhid_select_devices], for an array of at least [count]
    devices.  Let [m] be the indices of the matching devices in order.
    The guard lets [selected_count + 1] assignments through: when [m] has
    no more elements than that, the function returns 0 and has assigned
    [selected[j] = &devices[m[j]]] for every [j], in the original order;
    otherwise it returns -1 after the first [selected_count + 1] of these
    assignments.  The other elements of [selected] are left as they
    were. *)
Theorem select_devices_fills_in_order (devices : list rhid_device_t)
    (count : Z) (selected : list (option nat)) (selected_count : Z)
    (f : rhid_select_func_t) :
  let m := matching f devices (Z.to_nat count) in
  let limit := Z.to_nat (selected_count + 1) in
  let w := (length m `min` limit)%nat in
  count <= Z.of_nat (length devices) ->
  (w <= length selected)%nat ->
  exists selected' : list (option nat),
    rhid_select_devices devices count selected selected_count f
    = Some (if decide (length m <= limit)%nat then 0 else -1,
            selected', Z.of_nat <$> seq 0 w)
    /\ length selected' = length selected
    /\ forall j : nat,
         selected' !! j
         = if decide (j < w)%nat then Some (m !! j) else selected !! j.
Proof.
  intros m limit w Hcount Hsel. unfold rhid_select_devices.
  destruct (select_devices_loop_spec f devices selected_count
              (Z.to_nat count) 0 0 selected [])
    as (selected' & Hrun & Hlen & Hlook).
  - lia.
  - lia.
  - rewrite Nat.sub_0_r. fold (matching f devices (Z.to_nat count)).
    fold m. fold limit. fold w. lia.
  - fold (matching f devices (Z.to_nat count)) in Hrun, Hlook.
    fold m limit in Hrun, Hlook. rewrite Nat.sub_0_r in Hrun, Hlook.
    fold w in Hrun, Hlook.
    exists selected'. split_and!; [exact Hrun|done|].
    intros j. rewrite Hlook. rewrite Nat.sub_0_r.
    repeat case_decide; (done || lia).
Qed.

Lemma select_devices_fills_in_order_witness :
  exists selected' : list (option nat),
    rhid_select_devices
      [device_zero 8 4; gamepad_enumerated; gamepad_enumerated] 3
      [None; None] 2 is_joystick
    = Some (if decide
                 (length (matching is_joystick
                            [device_zero 8 4; gamepad_enumerated;
                             gamepad_enumerated] (Z.to_nat 3))
                  <= Z.to_nat (2 + 1))%nat
            then 0 else -1,
            selected',
            Z.of_nat
              <$> seq 0
                    (length (matching is_joystick
                               [device_zero 8 4; gamepad_enumerated;
                                gamepad_enumerated] (Z.to_nat 3))
                     `min` Z.to_nat (2 + 1))%nat)
    /\ length selected' = length [None (A := nat); None]
    /\ forall j : nat,
         selected' !! j
         = if decide
                (j < length (matching is_joystick
                               [device_zero 8 4; gamepad_enumerated;
                                gamepad_enumerated] (Z.to_nat 3))
                     `min` Z.to_nat (2 + 1))%nat
           then Some (matching is_joystick
                        [device_zero 8 4; gamepad_enumerated;
                         gamepad_enumerated] (Z.to_nat 3) !! j)
           else [None; None] !! j.
Proof.
  refine (select_devices_fills_in_order
            [device_zero 8 4; gamepad_enumerated; gamepad_enumerated] 3
            [None; None] 2 is_joystick _ _).
  - simpl. lia.
  - vm_compute. lia.
Defined.

(** The witness, evaluated: the two joysticks at indices 1 and 2 are
    selected, in that order. *)
Example select_two_of_three :
  rhid_select_devices
    [device_zero 8 4; gamepad_enumerated; gamepad_enumerated] 3
    [None; None] 2 is_joystick
  = Some (0, [Some 1%nat; Some 2%nat], [0; 1]).
Proof. vm_compute. reflexivity. Qed.

(** ** Polling: every call *)

Lemma start_read_inv (io : poll_io) (device : rhid_device_t)
    (buffer : list Z) (report_id : Z) (events : list io_event)
    r device' events' :
  start_read io device buffer 0 report_id events
    = Some (r, device', events') ->
  buffer <> []
  /\ events'
     = events ++ [EvReadFile (<[0%nat := report_id]> buffer)
                    (report_size device)]
  /\ report device'
     = Some (store_bytes (io_read_data io) (<[0%nat := report_id]> buffer))
  /\ ((read_started io /\ r = 1
       /\ native device' = Some {| is_reading := 1 |})
      \/ (~ read_started io /\ r = 0 /\ native device' = native device)).
Proof.
  unfold start_read, read_started.
  destruct (array_set buffer 0 report_id) as [buffer1|] eqn:Hset; [|done].
  apply array_set_inv in Hset as [Hlen ->]. change (Z.to_nat 0) with 0%nat.
  assert (Hne : buffer <> []) by (destruct buffer; [simpl in Hlen; lia|done]).
  destruct (io_read_file io) as [[] err]; simpl.
  - intros [= <- <- <-]. split_and!; [done..|]. left. done.
  - case_decide as Herr.
    + intros [= <- <- <-]. split_and!; [done..|]. right. done.
    + intros [= <- <- <-]. split_and!; [done..|]. left.
      split_and!; [|done..].
      destruct (decide (err = ERROR_IO_PENDING)); [done|].
      by destruct Herr.
Qed.

(** X11.  Every call of [rhid_read_report] returns 0 or 1, and returns 1
    exactly when it has called [ReadFile] and the read was started, at
    once or queued; in that case a read is in flight afterwards.  A call
    makes at most one [ReadFile] call, for [report_size] bytes of a buffer
    whose first byte is the report id, and the report buffer keeps its
    length. *)
Theorem poll_returns_one_iff_read_started (io : poll_io)
    (device device' : rhid_device_t) (report_id r : Z)
    (events : list io_event) :
  rhid_read_report io device report_id = Some (r, device', events) ->
  (r = 0 \/ r = 1)
  /\ (r = 1 <->
      read_started io
      /\ exists buffer, EvReadFile buffer (report_size device) ∈ events)
  /\ (length (List.filter is_read_file events) <= 1)%nat
  /\ (forall (buffer : list Z) (size : Z),
        EvReadFile buffer size ∈ events ->
        size = report_size device /\ buffer !! 0%nat = Some report_id)
  /\ (r = 1 -> native device' = Some {| is_reading := 1 |})
  /\ (exists buffer buffer' : list Z,
        report device = Some buffer /\ report device' = Some buffer'
        /\ length buffer' = length buffer).
Proof.
  unfold rhid_read_report.
  destruct (native device) as [state|] eqn:Hstate; [|done].
  destruct (report device) as [buffer|] eqn:Hbuffer; [|done].
  assert (Hstart : forall dev buf pre,
    report_size dev = report_size device ->
    length buf = length buffer ->
    (forall e, e ∈ pre -> e = EvGetOverlappedResult) ->
    (length pre <= 1)%nat ->
    start_read io dev buf 0 report_id pre = Some (r, device', events) ->
    (r = 0 \/ r = 1)
    /\ (r = 1 <->
        read_started io
        /\ exists b, EvReadFile b (report_size device) ∈ events)
    /\ (length (List.filter is_read_file events) <= 1)%nat
    /\ (forall (b : list Z) (size : Z),
          EvReadFile b size ∈ events ->
          size = report_size device /\ b !! 0%nat = Some report_id)
    /\ (r = 1 -> native device' = Some {| is_reading := 1 |})
    /\ (exists b b' : list Z,
          Some buffer = Some b /\ report device' = Some b'
          /\ length b' = length b)).
  { intros dev buf pre Hsize Hlen Hpre Hpre1
      (Hne & -> & Hrep & Hcases)%start_read_inv.
    assert (Hfirst : <[0%nat := report_id]> buf !! 0%nat = Some report_id)
      by (destruct buf; done).
    assert (Hfilter : List.filter is_read_file pre = []).
    { clear -Hpre. induction pre as [|e pre IH]; [done|].
      rewrite (Hpre e) by (by left). simpl. apply IH.
      intros e' He'. apply Hpre. by right. }
    split_and!.
    - destruct Hcases as [(_ & -> & _)|(_ & -> & _)]; auto.
    - split.
      + intros ->. destruct Hcases as [(? & _)|(_ & ? & _)]; [|done].
        split; [done|]. eexists. rewrite Hsize.
        apply elem_of_app. right. by left.
      + intros [Hst _]. destruct Hcases as [(_ & ? & _)|(? & _)]; done.
    - rewrite List.filter_app, Hfilter. simpl. lia.
    - intros b size [Hin|Hin]%elem_of_app.
      + by apply Hpre in Hin.
      + apply list_elem_of_singleton in Hin. injection Hin as -> ->.
        done.
    - intros ->. destruct Hcases as [(_ & _ & ?)|(_ & ? & _)]; done.
    - eexists _, _. split_and!; [done|exact Hrep|].
      rewrite store_bytes_length, length_insert. done. }
  case_decide as Hreading.
  - case_decide as Hdone.
    + apply Hstart; simpl.
      * done.
      * apply store_bytes_length.
      * intros e He. by apply list_elem_of_singleton in He.
      * lia.
    + intros [= <- <- <-]. split_and!.
      * by left.
      * split; [done|]. intros [_ [b Hb]].
        by apply list_elem_of_singleton in Hb.
      * simpl. lia.
      * intros b size Hb. by apply list_elem_of_singleton in Hb.
      * done.
      * eexists _, _. split_and!; [done|done|].
        apply store_bytes_length.
  - replace (is_reading state) with 0
      by (destruct (decide (is_reading state = 0)); [done|done]).
    apply Hstart; [done|done| |simpl; lia].
    intros e He. by apply elem_of_nil in He.
Qed.

Lemma poll_returns_one_iff_read_started_witness :
  (1 = 0 \/ 1 = 1)
  /\ (1 = 1 <->
      read_started read_queued
      /\ exists buffer,
           EvReadFile buffer (report_size gamepad)
             ∈ [EvReadFile [1; 0; 0] 3])
  /\ (length (List.filter is_read_file [EvReadFile [1; 0; 0]%Z 3%Z])
      <= 1)%nat
  /\ (forall (buffer : list Z) (size : Z),
        EvReadFile buffer size ∈ [EvReadFile [1; 0; 0] 3] ->
        size = report_size gamepad /\ buffer !! 0%nat = Some 1)
  /\ (1 = 1 ->
      native (set_is_reading 1 (set_report (Some [1; 0; 0]) gamepad))
      = Some {| is_reading := 1 |})
  /\ (exists buffer buffer' : list Z,
        report gamepad = Some buffer
        /\ report (set_is_reading 1 (set_report (Some [1; 0; 0]) gamepad))
           = Some buffer'
        /\ length buffer' = length buffer).
Proof.
  refine (poll_returns_one_iff_read_started read_queued gamepad
            (set_is_reading 1 (set_report (Some [1; 0; 0]) gamepad))
            1 1 [EvReadFile [1; 0; 0] 3] _).
  vm_compute; reflexivity.
Defined.

(** X12.  A call of [rhid_read_report] that finds the read in flight
    completed, the driver having delivered at least [report_size] bytes:
    it asks for the result once, writes the report id over the first byte
    of the report just received and starts the next read at once.  When
    that read is started the call returns 1 and a read stays in flight;
    when it is not, the call returns 0 although a complete report has
    arrived, and no read is in flight afterwards. *)
Theorem completed_read_restarts (io : poll_io) (device : rhid_device_t)
    (report_id : Z) (state : rhid_native_t) (buffer : list Z) :
  native device = Some state ->
  is_reading state <> 0 ->
  report device = Some buffer ->
  buffer <> [] ->
  io_overlapped_bytes_read io >= report_size device ->
  let received := store_bytes (io_arrived io) buffer in
  let sent := <[0%nat := report_id]> received in
  exists (r : Z) (device' : rhid_device_t),
    rhid_read_report io device report_id
    = Some (r, device',
            [EvGetOverlappedResult; EvReadFile sent (report_size device)])
    /\ native device' = Some {| is_reading := r |}
    /\ report device' = Some (store_bytes (io_read_data io) sent)
    /\ (read_started io -> r = 1)
    /\ (~ read_started io -> r = 0).
Proof.
  intros Hstate Hreading Hbuffer Hne Hdone received sent.
  assert (Hrec : received <> []).
  { intros Hnil. apply (f_equal length) in Hnil. unfold received in Hnil.
    rewrite store_bytes_length in Hnil. by destruct buffer. }
  unfold rhid_read_report. rewrite Hstate, Hbuffer.
  rewrite decide_True by done. simpl.
  rewrite decide_True by done.
  fold received.
  destruct (start_read io
              (set_is_reading 0 (set_report (Some received) device))
              received 0 report_id [EvGetOverlappedResult])
    as [[[r device'] events]|] eqn:Hrun.
  - apply start_read_inv in Hrun as (_ & -> & Hrep & Hcases).
    exists r, device'. split; [done|]. fold sent in Hrep.
    destruct Hcases as [(Hst & -> & Hn)|(Hst & -> & Hn)];
      split_and!; done.
  - exfalso. unfold start_read in Hrun.
    rewrite array_set_Some in Hrun
      by (destruct received; [done|simpl; lia]).
    destruct (io_read_file io) as [[] err]; simpl in Hrun;
      repeat case_decide; done.
Qed.

Lemma completed_read_restarts_witness :
  exists (r : Z) (device' : rhid_device_t),
    rhid_read_report (read_completed_restart_fails [1; 7; 0])
      gamepad_cycle_1 1
    = Some (r, device',
            [EvGetOverlappedResult;
             EvReadFile
               (<[0%nat := 1]>
                  (store_bytes
                     (io_arrived (read_completed_restart_fails [1; 7; 0]))
                     [1; 0; 0]))
               (report_size gamepad_cycle_1)])
    /\ native device' = Some {| is_reading := r |}
    /\ report device'
       = Some (store_bytes
                 (io_read_data (read_completed_restart_fails [1; 7; 0]))
                 (<[0%nat := 1]>
                    (store_bytes
                       (io_arrived
                          (read_completed_restart_fails [1; 7; 0]))
                       [1; 0; 0])))
    /\ (read_started (read_completed_restart_fails [1; 7; 0]) -> r = 1)
    /\ (~ read_started (read_completed_restart_fails [1; 7; 0]) -> r = 0).
Proof.
  refine (completed_read_restarts (read_completed_restart_fails [1; 7; 0])
            gamepad_cycle_1 1 {| is_reading := 1 |} [1; 0; 0] _ _ _ _ _).
  - vm_compute; reflexivity.
  - discriminate.
  - vm_compute; reflexivity.
  - discriminate.
  - vm_compute; discriminate.
Defined.

(** The witness, evaluated: the report 1 7 0 has arrived, the restart
    fails, and the call returns 0 with no read in flight. *)
Example arrived_report_not_announced :
  match rhid_read_report (read_completed_restart_fails [1; 7; 0])
          gamepad_cycle_1 1 with
  | Some (r, d, events) =>
      r = 0 /\ report d = Some [1; 7; 0]
      /\ native d = Some {| is_reading := 0 |}
      /\ events = [EvGetOverlappedResult; EvReadFile [1; 7; 0] 3]
  | None => False
  end.
Proof. vm_compute. split_and!; reflexivity. Qed.

(** ** Decode cycles without a report *)

(** X13.  [rhid_report] on a device that is not open returns -1 without
    any call to the operating system and leaves the device as it is.  On
    an open device whose read in flight has not delivered [report_size]
    bytes it asks for the result of the read once, starts no read, makes
    no usage query, returns 0 and changes nothing but the bytes the driver
    has stored in the report buffer. *)
Theorem report_without_fresh_report (driver : hid_driver) (io : poll_io)
    (device : rhid_device_t) (report_id : Z) :
  (handle device = NULL \/ is_open device = 0 ->
   rhid_report driver io device report_id = Some (-1, device, []))
  /\ (forall (state : rhid_native_t) (buffer : list Z),
        handle device <> NULL ->
        is_open device <> 0 ->
        native device = Some state ->
        is_reading state <> 0 ->
        report device = Some buffer ->
        io_overlapped_bytes_read io < report_size device ->
        rhid_report driver io device report_id
        = Some (0,
                set_report (Some (store_bytes (io_arrived io) buffer))
                  device,
                [EvGetOverlappedResult])).
Proof.
  split.
  - intros Hclosed. unfold rhid_report. by rewrite decide_True.
  - intros state buffer Hh Hopen Hstate Hreading Hbuffer Hbytes.
    unfold rhid_report. rewrite decide_False by (intros [?|?]; done).
    unfold rhid_read_report. rewrite Hstate, Hbuffer.
    rewrite decide_True by done. simpl.
    rewrite decide_False by lia.
    unfold decode_report. by rewrite decide_False by (intros H; by apply H).
Qed.

Lemma report_without_fresh_report_witness :
  rhid_report sample_driver read_queued gamepad_cycle_1 1
  = Some (0,
          set_report (Some (store_bytes (io_arrived read_queued) [1; 0; 0]))
            gamepad_cycle_1,
          [EvGetOverlappedResult]).
Proof.
  refine (proj2 (report_without_fresh_report sample_driver read_queued
                   gamepad_cycle_1 1)
            {| is_reading := 1 |} [1; 0; 0] _ _ _ _ _ _).
  - vm_compute; discriminate.
  - vm_compute; discriminate.
  - vm_compute; reflexivity.
  - discriminate.
  - vm_compute; reflexivity.
  - vm_compute; reflexivity.
Defined.

(** ** Decoding: the buttons are replaced *)




(** ** Opening and closing *)

(** X15.  [rhid_open] returns 0 exactly when one of its two attempts to
    open the device gives a handle and the preparsed data are obtained,
    and -1 otherwise.  On success the device holds that handle, is marked
    open with no read in flight, has a report buffer of [report_size]
    bytes, [button_count] button bytes and [value_count] value words, all
    zero, and keeps its descriptors and counts; polling it then returns
    for every answer of the operating system when [report_size] is
    positive.  On failure the handle is NULL and the buffers and the open
    flag are as they were. *)
Theorem rhid_open_cases (io : open_io) (device : rhid_device_t) :
  let opens :=
    (_rhid_open_device_handle (oio_open_read io) <> NULL
     \/ _rhid_open_device_handle (oio_open_read_write io) <> NULL)
    /\ is_Some (oio_preparsed io) in
  (opens ->
   exists device' : rhid_device_t,
     rhid_open io device = (0, device')
     /\ handle device' <> NULL
     /\ is_open device' = 1
     /\ native device' = Some {| is_reading := 0 |}
     /\ (exists buffer : list Z,
           report device' = Some buffer
           /\ length buffer = Z.to_nat (report_size device))
     /\ buttons device'
        = Some (replicate (Z.to_nat (button_count device)) 0)
     /\ values device' = Some (replicate (Z.to_nat (value_count device)) 0)
     /\ button_descriptors device' = button_descriptors device
     /\ value_descriptors device' = value_descriptors device
     /\ button_count device' = button_count device
     /\ value_count device' = value_count device
     /\ report_size device' = report_size device
     /\ (0 < report_size device ->
         forall (pio : poll_io) (report_id : Z),
           is_Some (rhid_read_report pio device' report_id)))
  /\ (~ opens ->
      exists device' : rhid_device_t,
        rhid_open io device = (-1, device')
        /\ handle device' = NULL
        /\ is_open device' = is_open device
        /\ report device' = report device
        /\ buttons device' = buttons device
        /\ values device' = values device
        /\ native device' = native device).
Proof.
  intros opens. subst opens. unfold rhid_open.
  set (h1 := _rhid_open_device_handle (oio_open_read io)).
  set (h2 := _rhid_open_device_handle (oio_open_read_write io)).
  set (h := if decide (h1 = NULL) then h2 else h1).
  assert (Hh : h <> NULL <-> (h1 <> NULL \/ h2 <> NULL)).
  { unfold h. case_decide; tauto. }
  split.
  - intros [Hopen [pre Hpre]]. rewrite decide_False by (by apply Hh).
    rewrite Hpre. eexists. split; [done|]. simpl.
    split_and!; try done.
    + by apply Hh.
    + eexists. split; [done|]. apply length_resize.
    + intros Hsize pio report_id.
      destruct (rhid_read_report_defined pio
                  (set_is_open 1
                     (set_is_reading 0
                        (set_values
                           (Some (replicate
                                    (Z.to_nat (value_count device)) 0))
                           (set_buttons
                              (Some (replicate
                                       (Z.to_nat (button_count device)) 0))
                              (set_report
                                 (Some (resize
                                          (Z.to_nat (report_size device))
                                          0 (oio_report io)))
                                 (set_preparsed pre
                                    (set_handle h device)))))))
                  report_id {| is_reading := 0 |}
                  (resize (Z.to_nat (report_size device)) 0
                     (oio_report io)))
        as (r & d' & ev & Hrun); [done|done| |by eexists].
      intros Hnil. apply (f_equal length) in Hnil.
      rewrite length_resize in Hnil. simpl in Hnil. lia.
  - intros Hnot. case_decide as Hnull.
    + eexists. split; [done|]. split_and!; done.
    + destruct (oio_preparsed io) as [pre|] eqn:Hpre.
      * destruct Hnot. split; [by apply Hh|by eexists].
      * eexists. split; [done|]. split_and!; done.
Qed.

Lemma rhid_open_cases_witness :
  exists device' : rhid_device_t,
    rhid_open gamepad_open_io gamepad_enumerated = (0, device')
    /\ handle device' <> NULL
    /\ is_open device' = 1
    /\ native device' = Some {| is_reading := 0 |}
    /\ (exists buffer : list Z,
          report device' = Some buffer
          /\ length buffer = Z.to_nat (report_size gamepad_enumerated))
    /\ buttons device'
       = Some (replicate (Z.to_nat (button_count gamepad_enumerated)) 0)
    /\ values device'
       = Some (replicate (Z.to_nat (value_count gamepad_enumerated)) 0)
    /\ button_descriptors device' = button_descriptors gamepad_enumerated
    /\ value_descriptors device' = value_descriptors gamepad_enumerated
    /\ button_count device' = button_count gamepad_enumerated
    /\ value_count device' = value_count gamepad_enumerated
    /\ report_size device' = report_size gamepad_enumerated
    /\ (0 < report_size gamepad_enumerated ->
        forall (pio : poll_io) (report_id : Z),
          is_Some (rhid_read_report pio device' report_id)).
Proof.
  refine (proj1 (rhid_open_cases gamepad_open_io gamepad_enumerated) _).
  split.
  - left. vm_compute. discriminate.
  - by eexists.
Defined.

(** X16.  Opening a closed device and closing it again gives the device
    back as it was: on a device that holds no handle and no buffers,
    [rhid_open] either fails and leaves the device unchanged, or succeeds,
    and then [rhid_close] succeeds and returns the very device
    [rhid_open] was given, descriptors and counts included. *)
Theorem open_close_round_trip (io : open_io) (device : rhid_device_t) :
  closed_state device ->
  rhid_open io device = (-1, device)
  \/ exists device' : rhid_device_t,
       rhid_open io device = (0, device')
       /\ rhid_close device' = (0, device).
Proof.
  intros [Hh Hpre Hrep Hbtn Hval Hnat Hopen].
  destruct device; simpl in *; subst.
  unfold rhid_open. simpl.
  set (h1 := _rhid_open_device_handle (oio_open_read io)).
  set (h2 := _rhid_open_device_handle (oio_open_read_write io)).
  destruct (decide (h1 = NULL)) as [H1|H1].
  - destruct (decide (h2 = NULL)) as [H2|H2].
    + left. by rewrite H2.
    + destruct (oio_preparsed io); [|by left].
      right. eexists. split; [done|]. done.
  - rewrite decide_False by done.
    destruct (oio_preparsed io); [|by left].
    right. eexists. split; [done|]. done.
Qed.

Lemma open_close_round_trip_witness :
  rhid_open gamepad_open_io gamepad_enumerated = (-1, gamepad_enumerated)
  \/ exists device' : rhid_device_t,
       rhid_open gamepad_open_io gamepad_enumerated = (0, device')
       /\ rhid_close device' = (0, gamepad_enumerated).
Proof.
  refine (open_close_round_trip gamepad_open_io gamepad_enumerated _).
  split; vm_compute; reflexivity.
Defined.

(** X17.  [rhid_close] on a device that is not open returns -1 and leaves
    it as it is.  On an open device it returns 0 and leaves the device
    closed, with no handle and no buffers, and with its descriptors,
    counts and report size as they were; after that a second
    [rhid_close] returns -1, and [rhid_report] returns -1 without any call
    to the operating system. *)
Theorem rhid_close_cases (device : rhid_device_t) :
  (is_open device = 0 -> rhid_close device = (-1, device))
  /\ (is_open device <> 0 ->
      exists device' : rhid_device_t,
        rhid_close device = (0, device')
        /\ closed_state device'
        /\ button_descriptors device' = button_descriptors device
        /\ value_descriptors device' = value_descriptors device
        /\ button_count device' = button_count device
        /\ value_count device' = value_count device
        /\ report_size device' = report_size device
        /\ rhid_close device' = (-1, device')
        /\ forall (driver : hid_driver) (io : poll_io) (report_id : Z),
             rhid_report driver io device' report_id
             = Some (-1, device', [])).
Proof.
  split.
  - intros Hclosed. unfold rhid_close. by rewrite decide_True.
  - intros Hopen. unfold rhid_close at 1. rewrite decide_False by done.
    eexists. split; [reflexivity|]. split; [split; reflexivity|].
    do 5 (split; [reflexivity|]). split.
    + unfold rhid_close. cbn [is_open set_is_open].
      by rewrite decide_True.
    + intros driver io report_id. unfold rhid_report.
      rewrite decide_True; [reflexivity|]. by right.
Qed.

Lemma rhid_close_cases_witness :
  exists device' : rhid_device_t,
    rhid_close gamepad = (0, device')
    /\ closed_state device'
    /\ button_descriptors device' = button_descriptors gamepad
    /\ value_descriptors device' = value_descriptors gamepad
    /\ button_count device' = button_count gamepad
    /\ value_count device' = value_count gamepad
    /\ report_size device' = report_size gamepad
    /\ rhid_close device' = (-1, device')
    /\ forall (driver : hid_driver) (io : poll_io) (report_id : Z),
         rhid_report driver io device' report_id = Some (-1, device', []).
Proof.
  refine (proj2 (rhid_close_cases gamepad) _).
  vm_compute; discriminate.
Defined.

(** ** Enumeration: a device that fails does not end the pass *)

Section EnumerationFailures.

Variable max_buttons max_values : Z.












End EnumerationFailures.


